(** * nbainjuries: the report parser ([src/nbainjuries/_parser.py])

    A shallow embedding of [validate_injrepurl], [extract_injrepurl] and
    [extract_injreplocal].  The three functions are glue around external
    collaborators (requests/urllib3, tempfile, PyPDF2, tabula and the
    package's own [_util] helpers), so the embedding is a state-and-exception
    monad over a world made of a file system and a trace of the calls the
    functions make, with the collaborators' answers supplied by an
    environment record. *)

From Stdlib Require Import ZArith QArith String Ascii List Bool Lia.
From Stdlib.Strings Require Import Byte.
From stdpp Require Import base gmap strings list pretty.

Open Scope string_scope.
Open Scope Z_scope.
Open Scope list_scope.

(** ** Python values the parser handles *)

Definition bytes := list Byte.byte.

(** Coordinates of an area or of a column boundary, in points. *)
Definition coord := Q.

(** A pandas data frame as far as the parser sees it: it is only handed
    from one collaborator to the next. *)
Record DataFrame := {
  df_columns : list string;
  df_rows : list (list string)
}.

(** urllib3's exceptions for a request that ends before a response
    arrives, as [urlopen] hands them to [Retry.increment] when no proxy is
    configured. *)
Inductive error :=
  | ConnectTimeoutError
  | NewConnectionError
  | ReadTimeoutError
  | ProtocolError
  | SSLError.

(** Exceptions.  [RequestException] stands for the whole class
    [requests.exceptions.RequestException], its argument tells the subclass;
    [Urllib3Exception] is an exception of urllib3 that requests lets
    through as it is. *)
Inductive request_error :=
  | MissingSchema
  | InvalidSchema
  | InvalidURL
  | InvalidHeader
  | ConnectionError
  | ConnectTimeout
  | ReadTimeout
  | RequestsSSLError
  | ChunkedEncodingError
  | ContentDecodingError
  | RetryError
  | TooManyRedirects
  | HTTPError (status_code : Z).

Inductive exn :=
  | RequestException (kind : request_error)
  | Urllib3Exception (err : error)
  | URLRetrievalError (filepath : string) (cause : exn)
  | LocalRetrievalError (filepath : string) (cause : exn)
  | FileNotFoundError
  | PermissionError
  | FileExistsError
  | IndexError
  | OtherException (name : string).

Definition Result (A : Type) : Type := exn + A.

(** The [pages] argument of [tabula.read_pdf]: an int or a string. *)
Inductive pages_arg :=
  | PagesInt (n : Z)
  | PagesStr (s : string).

(** Values of a [pandas_options] dict, as far as the parser writes them. *)
Inductive pyval :=
  | PyNone
  | PyStr (s : string).

(** The keyword arguments of one [tabula.read_pdf] call.  [area], [columns]
    and [pandas_options] are [None] when the caller leaves them out or
    passes [None]. *)
Record read_pdf_args := {
  input_path : string;
  stream : bool;
  area : option (list coord);
  columns : option (list coord);
  pages : pages_arg;
  pandas_options : option (gmap string pyval)
}.

(** pandas infers a header row unless [pandas_options] sets ["header"] to
    [None] (the comment of [extract_injreplocal]: the default
    [{'header': 'infer'}] is overridden with [{'header': None}]). *)
Definition header_inference (a : read_pdf_args) : bool :=
  match pandas_options a with
  | None => true
  | Some opts =>
      match opts !! "header" with
      | Some PyNone => false
      | _ => true
      end
  end.

(** A request as requests hands it to an adapter: the method, the prepared
    URL, the headers the caller of [session.get] gave, and the [stream] and
    [timeout] arguments. *)
Record Request := {
  req_method : string;
  req_url : string;
  req_headers : gmap string string;
  req_stream : bool;
  req_timeout : Z * Z
}.

(** What [resp.iter_content] yields: chunks, and possibly an exception when
    the connection breaks while the body is read. *)
Inductive stream_item :=
  | Chunk (b : bytes)
  | StreamFail (e : exn).

(** The [Retry-After] header of a response, by what urllib3 makes of it:
    there is none; it is the empty string; it is a number of seconds or a
    date that [Retry.parse_retry_after] reads; or it is any other text. *)
Inductive retry_after_header :=
  | RetryAfterNone
  | RetryAfterEmpty
  | RetryAfterDelay
  | RetryAfterInvalid.

(** A response: the status, the [Retry-After] and [Location] headers, and
    the body as [iter_content] delivers it. *)
Record Response := {
  status_code : Z;
  retry_after : retry_after_header;
  location : option string;
  iter_content : list stream_item
}.

(** The exception [iter_content] breaks with, if it breaks. *)
Fixpoint stream_failure (items : list stream_item) : option exn :=
  match items with
  | [] => None
  | Chunk _ :: items' => stream_failure items'
  | StreamFail e :: _ => Some e
  end.

(** What the network does with one request. *)
Inductive outcome :=
  | Responds (resp : Response)
  | Fails (err : error).

(** ** The world: a file system and the calls made so far

    An event is a call of a collaborator together with what it answered. *)

Inductive event :=
  | EvRequest (req : Request) (attempt : nat) (answer : outcome)
  | EvTmpCreate (path : string)
  | EvTmpWrite (path : string) (chunk : bytes)
  | EvPdfReader (path : string) (answer : Result nat)
  | EvPagect (path : string) (answer : Result Z)
  | EvReadPdf (a : read_pdf_args) (answer : Result (list DataFrame))
  | EvValidateHeaders (df : DataFrame) (answer : Result unit)
  | EvConcat (dflist_headpg dflist_otherpgs : list DataFrame) (answer : Result DataFrame)
  | EvClean (df : DataFrame) (answer : Result DataFrame)
  | EvUnlink (path : string) (answer : option exn).

Record World := {
  files : gmap string bytes;
  trace : list event
}.

Definition log (ev : event) (w : World) : World :=
  {| files := files w; trace := trace w ++ [ev] |}.

Definition is_request (ev : event) : bool :=
  match ev with
  | EvRequest _ _ _ => true
  | _ => false
  end.

(** The number of requests put on the wire. *)
Definition attempts (t : list event) : nat := length (List.filter is_request t).

(** ** A monad for state, exceptions and fuel

    [None] is only produced by [urlopen] when its fuel runs out. *)

Definition M (A : Type) : Type := World -> option (Result A * World).

Definition ret {A} (a : A) : M A := fun w => Some (inr a, w).

Definition raise {A} (e : exn) : M A := fun w => Some (inl e, w).

Definition bind {A B} (m : M A) (k : A -> M B) : M B :=
  fun w =>
    match m w with
    | None => None
    | Some (inl e, w') => Some (inl e, w')
    | Some (inr a, w') => k a w'
    end.

Notation "x <- m ;; k" := (bind m (fun x => k))
  (at level 100, m at next level, right associativity).
Notation "m ;;; k" := (bind m (fun _ => k))
  (at level 100, right associativity).

Definition emit (ev : event) : M unit := fun w => Some (inr tt, log ev w).

(** A call of a collaborator that only reads the files: its answer is
    returned or raised, and the call recorded. *)
Definition call {A} (answer : gmap string bytes -> Result A) (ev : Result A -> event) : M A :=
  fun w => let r := answer (files w) in Some (r, log (ev r) w).

(** [try: body finally: cleanup]: the cleanup runs however the body ends,
    and an exception of the cleanup takes the place of the body's outcome. *)
Definition try_finally {A} (body : M A) (cleanup : M unit) : M A :=
  fun w =>
    match body w with
    | None => None
    | Some (r, w1) =>
        match cleanup w1 with
        | None => None
        | Some (inl e, w2) => Some (inl e, w2)
        | Some (inr _, w2) => Some (r, w2)
        end
    end.

(** [try: body except Exception: pass] *)
Definition try_except_pass (body : M unit) : M unit :=
  fun w =>
    match body w with
    | None => None
    | Some (_, w1) => Some (inr tt, w1)
    end.

(** [try: body except cls as e: handler e], [cls] given as a test. *)
Definition try_except {A} (body : M A) (cls : exn -> bool) (handler : exn -> M A) : M A :=
  fun w =>
    match body w with
    | None => None
    | Some (inl e, w1) => if cls e then handler e w1 else Some (inl e, w1)
    | Some (inr a, w1) => Some (inr a, w1)
    end.

(** ** urllib3: [util.retry.Retry] and [HTTPConnectionPool.urlopen] *)

Module urllib3.

(** A retry counter: [None], [False] or an int. *)
Inductive count :=
  | CNone
  | CFalse
  | CInt (n : Z).

Definition truthy (c : count) : bool :=
  match c with
  | CInt n => negb (n =? 0)
  | _ => false
  end.

Definition count_value (c : count) : Z :=
  match c with
  | CInt n => n
  | _ => 0
  end.

(** [if c is not None: c -= 1] ([False - 1] is [-1]). *)
Definition decr (c : count) : count :=
  match c with
  | CNone => CNone
  | CFalse => CInt (-1)
  | CInt n => CInt (n - 1)
  end.

Record Retry := {
  total : count;
  connect : count;
  read : count;
  redirect : count;
  status : count;
  other : count;
  allowed_methods : list string;
  status_forcelist : list Z;
  backoff_factor : Q;
  raise_on_status : bool;
  respect_retry_after_header : bool
}.

Definition DEFAULT_ALLOWED_METHODS : list string :=
  ["HEAD"; "GET"; "PUT"; "DELETE"; "OPTIONS"; "TRACE"].

Definition RETRY_AFTER_STATUS_CODES : list Z := [413; 429; 503].

(** [HTTPResponse.REDIRECT_STATUSES] *)
Definition REDIRECT_STATUSES : list Z := [301; 302; 303; 307; 308].

(** [Retry(total=..., read=..., backoff_factor=..., status_forcelist=...,
    allowed_methods=...)], the other arguments at their defaults. *)
Definition Retry_init (total read : count) (backoff_factor : Q)
    (status_forcelist : list Z) (allowed_methods : list string) : Retry :=
  {| total := total; connect := CNone; read := read; redirect := CNone;
     status := CNone; other := CNone;
     allowed_methods := allowed_methods;
     status_forcelist := status_forcelist;
     backoff_factor := backoff_factor;
     raise_on_status := true;
     respect_retry_after_header := true |}.

Definition mem_Z (x : Z) (l : list Z) : bool := existsb (Z.eqb x) l.

Definition mem_str (x : string) (l : list string) : bool := existsb (String.eqb x) l.

Definition upper_ascii (c : ascii) : ascii :=
  let n := nat_of_ascii c in
  if ((97 <=? n) && (n <=? 122))%nat then ascii_of_nat (n - 32) else c.

(** [str.upper] on ASCII text. *)
Fixpoint upper (s : string) : string :=
  match s with
  | EmptyString => EmptyString
  | String c s' => String (upper_ascii c) (upper s')
  end.

(** [bool(s)] for a header that may be missing. *)
Definition nonempty (s : option string) : bool :=
  match s with
  | Some (String _ _) => true
  | _ => false
  end.

Definition _is_method_retryable (self : Retry) (method : string) : bool :=
  match allowed_methods self with
  | [] => true
  | allowed => mem_str (upper method) allowed
  end.

Definition is_retry (self : Retry) (method : string) (status_code : Z)
    (has_retry_after : bool) : bool :=
  if negb (_is_method_retryable self method) then false
  else if mem_Z status_code (status_forcelist self) then true
  else truthy (total self) && respect_retry_after_header self
       && has_retry_after && mem_Z status_code RETRY_AFTER_STATUS_CODES.

Definition is_exhausted (self : Retry) : bool :=
  let retry_counts :=
    List.filter truthy
      [total self; connect self; read self; redirect self; status self; other self] in
  match retry_counts with
  | [] => false
  | c :: cs => fold_right Z.min (count_value c) (map count_value cs) <? 0
  end.

Definition _is_connection_error (err : error) : bool :=
  match err with
  | ConnectTimeoutError | NewConnectionError => true
  | _ => false
  end.

Definition _is_read_error (err : error) : bool :=
  match err with
  | ReadTimeoutError | ProtocolError => true
  | _ => false
  end.

(** [bool(response.headers.get("Retry-After"))] *)
Definition has_retry_after (response : Response) : bool :=
  match retry_after response with
  | RetryAfterDelay | RetryAfterInvalid => true
  | RetryAfterNone | RetryAfterEmpty => false
  end.

(** [bool(response.get_redirect_location())] *)
Definition get_redirect_location (response : Response) : bool :=
  mem_Z (status_code response) REDIRECT_STATUSES && nonempty (location response).

(** The reason a [MaxRetryError] carries: the error of the last attempt, or
    a [ResponseError], of whose message the status is kept. *)
Inductive reason :=
  | ReasonError (err : error)
  | ResponseError (status_code : Z).

Inductive increment_result :=
  | Incremented (new_retry : Retry)
  | Reraise (err : error)
  | MaxRetryError (why : reason).

Definition with_counts (self : Retry) (total connect read redirect status other : count)
    : Retry :=
  {| total := total; connect := connect; read := read; redirect := redirect;
     status := status; other := other;
     allowed_methods := allowed_methods self;
     status_forcelist := status_forcelist self;
     backoff_factor := backoff_factor self;
     raise_on_status := raise_on_status self;
     respect_retry_after_header := respect_retry_after_header self |}.

Definition finish_increment (new_retry : Retry) (why : reason) : increment_result :=
  if is_exhausted new_retry then MaxRetryError why else Incremented new_retry.

(** [Retry.increment(method, url, response=..., error=...)]: [urlopen] gives
    either the [error] or the [response]. *)
Definition increment (self : Retry) (method : string) (outcome : error + Response)
    : increment_result :=
  let total' := decr (total self) in
  match outcome with
  | inl err =>
      match total self with
      | CFalse => Reraise err
      | _ =>
          if _is_connection_error err then
            match connect self with
            | CFalse => Reraise err
            | c => finish_increment
                     (with_counts self total' (decr c) (read self) (redirect self)
                                  (status self) (other self))
                     (ReasonError err)
            end
          else if _is_read_error err then
            match read self with
            | CFalse => Reraise err
            | c =>
                if negb (_is_method_retryable self method) then Reraise err
                else finish_increment
                       (with_counts self total' (connect self) (decr c) (redirect self)
                                    (status self) (other self))
                       (ReasonError err)
            end
          else
            finish_increment
              (with_counts self total' (connect self) (read self) (redirect self)
                           (status self) (decr (other self)))
              (ReasonError err)
      end
  | inr response =>
      if get_redirect_location response then
        finish_increment
          (with_counts self total' (connect self) (read self) (decr (redirect self))
                       (status self) (other self))
          (ResponseError (status_code response))
      else
        let status' :=
          if status_code response =? 0 then status self else decr (status self) in
        finish_increment
          (with_counts self total' (connect self) (read self) (redirect self)
                       status' (other self))
          (ResponseError (status_code response))
  end.

(** [Retry.parse_retry_after] raises [InvalidHeader] for a text that is
    neither a number of seconds nor a date; [true] stands for raising. *)
Definition parse_retry_after (retry_after : retry_after_header) : bool :=
  match retry_after with
  | RetryAfterEmpty | RetryAfterInvalid => true
  | RetryAfterNone | RetryAfterDelay => false
  end.

(** [Retry.sleep(response)], the waiting left aside: with
    [respect_retry_after_header] it reads the [Retry-After] header of the
    response, if there is one, and raises [InvalidHeader] when
    [parse_retry_after] does.  [true] stands for raising.  Without a
    response it only waits. *)
Definition sleep (self : Retry) (response : option Response) : bool :=
  match response with
  | Some response =>
      respect_retry_after_header self && parse_retry_after (retry_after response)
  | None => false
  end.

Inductive urlopen_result :=
  | Returned (resp : Response)
  | Raised (err : error)
  | RaisedMaxRetry (why : reason)
  | RaisedInvalidHeader.

(** [urlopen(method, url, retries=retries, redirect=False, ...)]: a request
    is sent, the [attempt]-th of the invocation, and the function calls
    itself after a failure or a response [is_retry] accepts, once
    [increment] and [sleep] have returned.  Each recursive call uses one
    unit of [fuel]. *)
Fixpoint urlopen (fuel : nat) (transport : Request -> nat -> outcome)
    (req : Request) (retries : Retry) (attempt : nat) : M urlopen_result :=
  match fuel with
  | O => fun _ => None
  | S fuel' =>
      emit (EvRequest req attempt (transport req attempt)) ;;;
      match transport req attempt with
      | Fails err =>
          match increment retries (req_method req) (inl err) with
          | Incremented retries' =>
              if sleep retries' None then ret RaisedInvalidHeader
              else urlopen fuel' transport req retries' (S attempt)
          | Reraise e => ret (Raised e)
          | MaxRetryError why => ret (RaisedMaxRetry why)
          end
      | Responds resp =>
          if is_retry retries (req_method req) (status_code resp) (has_retry_after resp) then
            match increment retries (req_method req) (inr resp) with
            | Incremented retries' =>
                if sleep retries' (Some resp) then ret RaisedInvalidHeader
                else urlopen fuel' transport req retries' (S attempt)
            | Reraise e => ret (Raised e)
            | MaxRetryError why =>
                if raise_on_status retries then ret (RaisedMaxRetry why)
                else ret (Returned resp)
            end
          else ret (Returned resp)
      end
  end.

(** Fuel that is enough for a [Retry] whose [total] is an int: [total]
    goes down by one at each recursive call and [increment] raises once it
    is negative. *)
Definition fuel_for (retries : Retry) : nat :=
  S (S (Z.to_nat (count_value (total retries)))).

End urllib3.

(** ** requests: [Session], [HTTPAdapter], [Response.raise_for_status] *)

Module requests.

Import urllib3.

Record HTTPAdapter := {
  max_retries : Retry
}.

Definition DEFAULT_RETRIES : Z := 0.

(** [Session.max_redirects] *)
Definition DEFAULT_REDIRECT_LIMIT : nat := 30.

(** [codes.moved], [found], [other], [temporary_redirect] and
    [permanent_redirect] *)
Definition REDIRECT_STATI : list Z := [301; 302; 303; 307; 308].

(** [HTTPAdapter()]: [max_retries = Retry(0, read=False)]. *)
Definition HTTPAdapter_default : HTTPAdapter :=
  {| max_retries := Retry_init (CInt DEFAULT_RETRIES) CFalse 0 [] DEFAULT_ALLOWED_METHODS |}.

(** [HTTPAdapter(max_retries=retries)] for a [Retry] object. *)
Definition HTTPAdapter_init (retries : Retry) : HTTPAdapter :=
  {| max_retries := retries |}.

(** [Session.adapters] is an ordered dict. *)
Record Session := {
  adapters : list (string * HTTPAdapter)
}.

(** [self.adapters[prefix] = adapter]: an existing key keeps its place. *)
Fixpoint odict_set (d : list (string * HTTPAdapter)) (prefix : string) (adapter : HTTPAdapter)
    : list (string * HTTPAdapter) :=
  match d with
  | [] => [(prefix, adapter)]
  | (k, v) :: d' =>
      if String.eqb k prefix then (k, adapter) :: d'
      else (k, v) :: odict_set d' prefix adapter
  end.

Definition mount (self : Session) (prefix : string) (adapter : HTTPAdapter) : Session :=
  let d := odict_set (adapters self) prefix adapter in
  let shorter (kv : string * HTTPAdapter) : bool :=
    (String.length (fst kv) <? String.length prefix)%nat in
  {| adapters := List.filter (fun kv => negb (shorter kv)) d ++ List.filter shorter d |}.

(** [requests.Session()] *)
Definition Session_init : Session :=
  mount (mount {| adapters := [] |} "https://" HTTPAdapter_default)
        "http://" HTTPAdapter_default.

Definition lower_ascii (c : ascii) : ascii :=
  let n := nat_of_ascii c in
  if ((65 <=? n) && (n <=? 90))%nat then ascii_of_nat (n + 32) else c.

(** [str.lower] on ASCII text. *)
Fixpoint lower (s : string) : string :=
  match s with
  | EmptyString => EmptyString
  | String c s' => String (lower_ascii c) (lower s')
  end.

Definition startswith (s prefix : string) : bool := String.prefix prefix s.

Fixpoint find_adapter (d : list (string * HTTPAdapter)) (url : string) : option HTTPAdapter :=
  match d with
  | [] => None
  | (prefix, adapter) :: d' =>
      if startswith (lower url) (lower prefix) then Some adapter
      else find_adapter d' url
  end.

(** [Session.get_adapter(url)], called with the URL of a prepared request;
    [None] stands for raising [InvalidSchema]. *)
Definition get_adapter (self : Session) (url : string) : option HTTPAdapter :=
  find_adapter (adapters self) url.

(** The [except] clauses of [HTTPAdapter.send]: the exceptions of urllib3
    become requests' ones, but for a connect error that [increment] handed
    back as it is. *)
Definition send_outcome (r : urlopen_result) : Result Response :=
  match r with
  | Returned resp => inr resp
  | Raised ProtocolError => inl (RequestException ConnectionError)
  | Raised SSLError => inl (RequestException RequestsSSLError)
  | Raised ReadTimeoutError => inl (RequestException ReadTimeout)
  | Raised err => inl (Urllib3Exception err)
  | RaisedMaxRetry (ReasonError ConnectTimeoutError) => inl (RequestException ConnectTimeout)
  | RaisedMaxRetry (ResponseError _) => inl (RequestException RetryError)
  | RaisedMaxRetry (ReasonError SSLError) => inl (RequestException RequestsSSLError)
  | RaisedMaxRetry (ReasonError _) => inl (RequestException ConnectionError)
  | RaisedInvalidHeader => inl (RequestException InvalidHeader)
  end.

(** [HTTPAdapter.send]: [urlopen] with the adapter's [max_retries].  The
    requests of an invocation are numbered through, so the first attempt
    has the number of the requests sent before. *)
Definition send (self : HTTPAdapter) (transport : Request -> nat -> outcome)
    (req : Request) : M Response :=
  r <- (fun w => urlopen (fuel_for (max_retries self)) transport req (max_retries self)
                   (attempts (trace w)) w) ;;
  match send_outcome r with
  | inl e => raise e
  | inr resp => ret resp
  end.

(** [Response.is_redirect] *)
Definition is_redirect (resp : Response) : bool :=
  bool_decide (is_Some (location resp)) && mem_Z (status_code resp) REDIRECT_STATI.

(** [Session.get_redirect_target(resp)] *)
Definition get_redirect_target (resp : Response) : option string :=
  if is_redirect resp then location resp else None.

(** [resp.content] in [resolve_redirects], which reads the body of a
    redirect before it is followed: of the exceptions [iter_content]
    raises, [ChunkedEncodingError] and [ContentDecodingError] are caught
    there, and the other instances of [RequestException] ([ConnectionError]
    and [SSLError]) come out. *)
Definition content_error (resp : Response) : option request_error :=
  match stream_failure (iter_content resp) with
  | Some (RequestException ChunkedEncodingError)
  | Some (RequestException ContentDecodingError) => None
  | Some (RequestException kind) => Some kind
  | _ => None
  end.

(** [Session.rebuild_method] *)
Definition rebuild_method (method : string) (status_code : Z) : string :=
  let method :=
    if (status_code =? 303) && negb (String.eqb method "HEAD") then "GET" else method in
  let method :=
    if (status_code =? 302) && negb (String.eqb method "HEAD") then "GET" else method in
  if (status_code =? 301) && String.eqb method "POST" then "GET" else method.

(** The request [resolve_redirects] makes of a request and of the redirect
    that answered it.  [redirect_url] stands for the URL requests computes
    from the URL of the request and the [Location] header (joining and
    requoting), [redirect_headers] for the headers it keeps and rebuilds. *)
Definition redirect_request (redirect_url : string -> string -> string)
    (redirect_headers : Request -> Response -> gmap string string)
    (req : Request) (resp : Response) (location : string) : Request :=
  {| req_method := rebuild_method (req_method req) (status_code resp);
     req_url := redirect_url (req_url req) location;
     req_headers := redirect_headers req resp;
     req_stream := req_stream req;
     req_timeout := req_timeout req |}.

(** [Session.send(request, allow_redirects=True)]: the adapter for the URL
    of the request sends it, and while the answer is a redirect with a
    target, [resolve_redirects] sends the request for that target in the
    same way, a new adapter lookup and a new retry budget each time.
    The body of a redirect is read first; [redirects_left] redirects are
    followed before [TooManyRedirects]. *)
Fixpoint Session_send (redirects_left : nat) (self : Session)
    (transport : Request -> nat -> outcome)
    (redirect_url : string -> string -> string)
    (redirect_headers : Request -> Response -> gmap string string)
    (req : Request) : M Response :=
  match get_adapter self (req_url req) with
  | None => raise (RequestException InvalidSchema)
  | Some adapter =>
      resp <- send adapter transport req ;;
      match get_redirect_target resp with
      | Some (String _ _ as url) =>
          match content_error resp with
          | Some kind => raise (RequestException kind)
          | None =>
              match redirects_left with
              | O => raise (RequestException TooManyRedirects)
              | S redirects_left' =>
                  Session_send redirects_left' self transport redirect_url redirect_headers
                    (redirect_request redirect_url redirect_headers req resp url)
              end
          end
      | _ => ret resp
      end
  end.

(** [session.get(url, headers=..., stream=..., timeout=...)]:
    [prepare_request] stands for the preparation of the request, which
    gives the prepared URL or raises for a URL or a header requests
    refuses; redirects are followed. *)
Definition Session_get (self : Session) (transport : Request -> nat -> outcome)
    (prepare_request : string -> gmap string string -> request_error + string)
    (redirect_url : string -> string -> string)
    (redirect_headers : Request -> Response -> gmap string string)
    (url : string) (headers : gmap string string) (stream : bool) (timeout : Z * Z)
    : M Response :=
  match prepare_request url headers with
  | inl kind => raise (RequestException kind)
  | inr prepared_url =>
      Session_send DEFAULT_REDIRECT_LIMIT self transport redirect_url redirect_headers
        {| req_method := "GET"; req_url := prepared_url; req_headers := headers;
           req_stream := stream; req_timeout := timeout |}
  end.

Definition raise_for_status (resp : Response) : M unit :=
  if ((400 <=? status_code resp) && (status_code resp <? 500))
     || ((500 <=? status_code resp) && (status_code resp <? 600))
  then raise (RequestException (HTTPError (status_code resp)))
  else ret tt.

End requests.

(** ** The collaborators

    What the network, the operating system, PyPDF2, tabula and the helpers
    of [_util] answer: [transport req k] is what the network does with
    [req] when it is the [k]-th request of the invocation.  With them come
    three functions of requests that work on the text of URLs and headers:
    [prepare_request], [redirect_url] and [redirect_headers], as
    [Session_get] and [redirect_request] use them.  The readers get the
    file system and do not change it.  [_validate_headers],
    [__concat_injreppgs], [__clean_injrep] and [_pagect_localpdf] belong to
    [nbainjuries._util], which the parser only imports. *)
Record Env := {
  transport : Request -> nat -> outcome;
  prepare_request : string -> gmap string string -> request_error + string;
  redirect_url : string -> string -> string;
  redirect_headers : Request -> Response -> gmap string string;
  mkstemp : gmap string bytes -> string;
  unlink_error : gmap string bytes -> string -> option exn;
  PdfReader_pages : gmap string bytes -> string -> Result nat;
  read_pdf : gmap string bytes -> read_pdf_args -> Result (list DataFrame);
  _validate_headers : DataFrame -> Result unit;
  __concat_injreppgs : list DataFrame -> list DataFrame -> Result DataFrame;
  __clean_injrep : DataFrame -> Result DataFrame;
  _pagect_localpdf : gmap string bytes -> string -> Result Z
}.

Section Parser.

Variable env : Env.

(** [tempfile.NamedTemporaryFile(suffix=".pdf", delete=False)]: a new,
    empty file under a name no file has yet. *)
Definition NamedTemporaryFile : M string :=
  fun w =>
    let name := mkstemp env (files w) in
    match files w !! name with
    | Some _ => Some (inl FileExistsError, w)
    | None =>
        Some (inr name,
              log (EvTmpCreate name) {| files := <[name := []]> (files w); trace := trace w |})
    end.

(** [tmp.write(chunk)] *)
Definition tmp_write (name : string) (chunk : bytes) : M unit :=
  fun w =>
    let old := default [] (files w !! name) in
    Some (inr tt,
          log (EvTmpWrite name chunk)
              {| files := <[name := (old ++ chunk)%list]> (files w); trace := trace w |}).

(** [for chunk in resp.iter_content(chunk_size=8192): if chunk: tmp.write(chunk)] *)
Fixpoint write_chunks (name : string) (items : list stream_item) : M unit :=
  match items with
  | [] => ret tt
  | StreamFail e :: _ => raise e
  | Chunk b :: items' =>
      (match b with
       | [] => ret tt
       | _ => tmp_write name b
       end) ;;;
      write_chunks name items'
  end.

(** [tmp_path.unlink(missing_ok=True)] *)
Definition unlink (path : string) : M unit :=
  fun w =>
    let answer := unlink_error env (files w) path in
    let w1 := log (EvUnlink path answer) w in
    match answer with
    | Some e => Some (inl e, w1)
    | None => Some (inr tt, {| files := delete path (files w1); trace := trace w1 |})
    end.

(** [len(PyPDF2.PdfReader(path).pages)] *)
Definition PdfReader_numpgs (path : string) : M Z :=
  n <- call (fun fs => PdfReader_pages env fs path) (EvPdfReader path) ;;
  ret (Z.of_nat n).

Definition pagect_localpdf (path : string) : M Z :=
  call (fun fs => _pagect_localpdf env fs path) (EvPagect path).

Definition tabula_read_pdf (a : read_pdf_args) : M (list DataFrame) :=
  call (fun fs => read_pdf env fs a) (EvReadPdf a).

Definition validate_headers (df : DataFrame) : M unit :=
  call (fun _ => _validate_headers env df) (EvValidateHeaders df).

Definition concat_injreppgs (dflist_headpg dflist_otherpgs : list DataFrame) : M DataFrame :=
  call (fun _ => __concat_injreppgs env dflist_headpg dflist_otherpgs)
       (EvConcat dflist_headpg dflist_otherpgs).

Definition clean_injrep (df : DataFrame) : M DataFrame :=
  call (fun _ => __clean_injrep env df) (EvClean df).

(** [l[0]] *)
Definition index0 {A} (l : list A) : M A :=
  match l with
  | [] => raise IndexError
  | x :: _ => ret x
  end.

(** [d.update(new)] on dicts. *)
Definition dict_update (d new : gmap string string) : gmap string string := new ∪ d.

Definition is_RequestException (e : exn) : bool :=
  match e with
  | RequestException _ => true
  | _ => false
  end.

Definition retries : urllib3.Retry :=
  urllib3.Retry_init (urllib3.CInt 5) urllib3.CNone (3 # 2) [429; 500; 502; 503; 504] ["GET"].

Definition default_headers : gmap string string :=
  {[ "User-Agent" :=
       "Mozilla/5.0 (Windows NT 10.0; Win64; x64) " +:+
       "AppleWebKit/537.36 (KHTML, like Gecko) " +:+
       "Chrome/120.0.0.0 Safari/537.36";
     "Accept" := "application/pdf" ]}.

(** The session of [validate_injrepurl] after [session.mount]. *)
Definition session : requests.Session :=
  requests.mount requests.Session_init "https://" (requests.HTTPAdapter_init retries).

(** [kwargs_headers] is [kwargs.get("headers")]: [None] when the caller
    gives no ["headers"] keyword. *)
Definition validate_injrepurl (filepath : string)
    (kwargs_headers : option (gmap string string)) : M Response :=
  let headers := dict_update default_headers (default ∅ kwargs_headers) in
  try_except
    (resp <- requests.Session_get session (transport env) (prepare_request env)
               (redirect_url env) (redirect_headers env) filepath headers true (5, 60) ;;
     requests.raise_for_status resp ;;;
     ret resp)
    is_RequestException
    (fun e_gen => raise (URLRetrievalError filepath e_gen)).

(** The [None] test on an optional geometry argument:
    [if x is None: x = fallback]. *)
Definition if_None_then (x : option (list coord)) (fallback : list coord)
    : option (list coord) :=
  match x with
  | None => Some fallback
  | Some _ => x
  end.

(** The two calls of [tabula.read_pdf]. *)
Definition headpg_args (path : string) (area_headpg cols_headpg : list coord) : read_pdf_args :=
  {| input_path := path; stream := true;
     area := Some area_headpg; columns := Some cols_headpg;
     pages := PagesInt 1; pandas_options := None |}.

Definition otherpgs_args (path : string) (area_otherpgs cols_otherpgs : option (list coord))
    (pdf_numpgs : Z) : read_pdf_args :=
  {| input_path := path; stream := true;
     area := area_otherpgs; columns := cols_otherpgs;
     pages := PagesStr ("2-" +:+ pretty pdf_numpgs);
     pandas_options := Some {[ "header" := PyNone ]} |}.

(** The statements both entry operations share, from the defaulting of the
    continuation geometry to the cleaned table. *)
Definition extract_pages (path : string) (pdf_numpgs : Z)
    (area_headpg cols_headpg : list coord)
    (area_otherpgs cols_otherpgs : option (list coord)) : M DataFrame :=
  let area_otherpgs := if_None_then area_otherpgs area_headpg in
  let cols_otherpgs := if_None_then cols_otherpgs cols_headpg in
  dfs_headpg <- tabula_read_pdf (headpg_args path area_headpg cols_headpg) ;;
  df0 <- index0 dfs_headpg ;;
  validate_headers df0 ;;;
  dfs_otherpgs <-
    (if 2 <=? pdf_numpgs
     then tabula_read_pdf (otherpgs_args path area_otherpgs cols_otherpgs pdf_numpgs)
     else ret []) ;;
  df_rawdata <- concat_injreppgs dfs_headpg dfs_otherpgs ;;
  clean_injrep df_rawdata.

Definition extract_injrepurl (filepath : string) (area_headpg cols_headpg : list coord)
    (area_otherpgs cols_otherpgs : option (list coord))
    (kwargs_headers : option (gmap string string)) : M DataFrame :=
  resp <- validate_injrepurl filepath kwargs_headers ;;
  tmp_path <- NamedTemporaryFile ;;
  write_chunks tmp_path (iter_content resp) ;;;
  try_finally
    (pdf_numpgs <- PdfReader_numpgs tmp_path ;;
     extract_pages tmp_path pdf_numpgs area_headpg cols_headpg area_otherpgs cols_otherpgs)
    (try_except_pass (unlink tmp_path)).

Definition is_missing_or_denied (e : exn) : bool :=
  match e with
  | FileNotFoundError | PermissionError => true
  | _ => false
  end.

Definition extract_injreplocal (filepath : string) (area_headpg cols_headpg : list coord)
    (area_otherpgs cols_otherpgs : option (list coord)) : M DataFrame :=
  pdf_numpgs <-
    try_except (pagect_localpdf filepath) is_missing_or_denied
      (fun e_gen => raise (LocalRetrievalError filepath e_gen)) ;;
  extract_pages filepath pdf_numpgs area_headpg cols_headpg area_otherpgs cols_otherpgs.

End Parser.

(** ** The two entry operations under one name *)

Inductive entry :=
  | FromUrl (kwargs_headers : option (gmap string string))
  | FromLocal.

Definition run_entry (env : Env) (op : entry) (filepath : string)
    (area_headpg cols_headpg : list coord)
    (area_otherpgs cols_otherpgs : option (list coord)) : M DataFrame :=
  match op with
  | FromUrl kwargs_headers =>
      extract_injrepurl env filepath area_headpg cols_headpg area_otherpgs cols_otherpgs
        kwargs_headers
  | FromLocal =>
      extract_injreplocal env filepath area_headpg cols_headpg area_otherpgs cols_otherpgs
  end.

(** ** Reading worlds and traces *)

(** The world an invocation starts in: some files, nothing called yet. *)
Definition start (fs : gmap string bytes) : World := {| files := fs; trace := [] |}.

Definition extend (w : World) (evs : list event) : World :=
  {| files := files w; trace := (trace w ++ evs)%list |}.

(** Calls of the extraction engine and of the header validator. *)
Definition is_extraction (ev : event) : bool :=
  match ev with
  | EvReadPdf _ _ | EvValidateHeaders _ _ => true
  | _ => false
  end.

(** Operations that change the file system. *)
Definition touches_files (ev : event) : bool :=
  match ev with
  | EvTmpCreate _ | EvTmpWrite _ _ | EvUnlink _ _ => true
  | _ => false
  end.

(** A [read_pdf] call is the header-page call when it selects page 1 alone,
    and a continuation-page call otherwise. *)
Definition headpg_call (a : read_pdf_args) : bool :=
  match pages a with
  | PagesInt 1 => true
  | _ => false
  end.

Definition continuation_call (a : read_pdf_args) : bool := negb (headpg_call a).

Fixpoint read_pdf_calls (t : list event) : list read_pdf_args :=
  match t with
  | [] => []
  | EvReadPdf a _ :: t' => a :: read_pdf_calls t'
  | _ :: t' => read_pdf_calls t'
  end.

Definition continuation_calls (t : list event) : list read_pdf_args :=
  List.filter continuation_call (read_pdf_calls t).

(** The page count the invocation obtained, if it obtained one. *)
Fixpoint page_count (t : list event) : option Z :=
  match t with
  | [] => None
  | EvPdfReader _ (inr n) :: _ => Some (Z.of_nat n)
  | EvPagect _ (inr n) :: _ => Some n
  | _ :: t' => page_count t'
  end.

Definition is_unlink (ev : event) : bool :=
  match ev with
  | EvUnlink _ _ => true
  | _ => false
  end.

Definition is_chunk (item : stream_item) : bool :=
  match item with
  | Chunk _ => true
  | StreamFail _ => false
  end.

(** The body of a response can be read to its end. *)
Definition stream_complete (resp : Response) : bool := forallb is_chunk (iter_content resp).

(** The status codes [raise_for_status] raises for. *)
Definition client_or_server_error (code : Z) : bool :=
  (400 <=? code) && (code <? 600).

(** A [Retry] whose only counter is an int [total], as both adapters of the
    session have it. *)
Definition total_only (r : urllib3.Retry) (n : Z) : Prop :=
  urllib3.total r = urllib3.CInt n /\ 0 <= n /\
  urllib3.connect r = urllib3.CNone /\
  (urllib3.read r = urllib3.CNone \/ urllib3.read r = urllib3.CFalse) /\
  urllib3.redirect r = urllib3.CNone /\
  urllib3.status r = urllib3.CNone /\
  urllib3.other r = urllib3.CNone /\
  urllib3.raise_on_status r = true.

(** ** The runs of the statements both entry operations share *)

(** From [__concat_injreppgs] on. *)
Inductive finish_run (dfs_headpg dfs_otherpgs : list DataFrame)
    : Result DataFrame -> list event -> Prop :=
  | finish_concat_raises e :
      finish_run dfs_headpg dfs_otherpgs (inl e)
        [EvConcat dfs_headpg dfs_otherpgs (inl e)]
  | finish_cleaned df_rawdata r :
      finish_run dfs_headpg dfs_otherpgs r
        [EvConcat dfs_headpg dfs_otherpgs (inr df_rawdata); EvClean df_rawdata r].

(** [pages_run path n ... r evs]: [extract_pages] on a document of [n] pages
    ends in [r] after the calls [evs]. *)
Inductive pages_run (path : string) (pdf_numpgs : Z) (area_headpg cols_headpg : list coord)
    (area_otherpgs cols_otherpgs : option (list coord))
    : Result DataFrame -> list event -> Prop :=
  | run_head_raises e :
      pages_run path pdf_numpgs area_headpg cols_headpg area_otherpgs cols_otherpgs (inl e)
        [EvReadPdf (headpg_args path area_headpg cols_headpg) (inl e)]
  | run_no_fragment :
      pages_run path pdf_numpgs area_headpg cols_headpg area_otherpgs cols_otherpgs
        (inl IndexError)
        [EvReadPdf (headpg_args path area_headpg cols_headpg) (inr [])]
  | run_invalid df rest e :
      pages_run path pdf_numpgs area_headpg cols_headpg area_otherpgs cols_otherpgs (inl e)
        [EvReadPdf (headpg_args path area_headpg cols_headpg) (inr (df :: rest));
         EvValidateHeaders df (inl e)]
  | run_single df rest r tl :
      pdf_numpgs < 2 ->
      finish_run (df :: rest) [] r tl ->
      pages_run path pdf_numpgs area_headpg cols_headpg area_otherpgs cols_otherpgs r
        (EvReadPdf (headpg_args path area_headpg cols_headpg) (inr (df :: rest))
         :: EvValidateHeaders df (inr tt) :: tl)
  | run_continuation_raises df rest e :
      2 <= pdf_numpgs ->
      pages_run path pdf_numpgs area_headpg cols_headpg area_otherpgs cols_otherpgs (inl e)
        [EvReadPdf (headpg_args path area_headpg cols_headpg) (inr (df :: rest));
         EvValidateHeaders df (inr tt);
         EvReadPdf (otherpgs_args path (if_None_then area_otherpgs area_headpg)
                                  (if_None_then cols_otherpgs cols_headpg) pdf_numpgs)
                   (inl e)]
  | run_multi df rest dfs_otherpgs r tl :
      2 <= pdf_numpgs ->
      finish_run (df :: rest) dfs_otherpgs r tl ->
      pages_run path pdf_numpgs area_headpg cols_headpg area_otherpgs cols_otherpgs r
        (EvReadPdf (headpg_args path area_headpg cols_headpg) (inr (df :: rest))
         :: EvValidateHeaders df (inr tt)
         :: EvReadPdf (otherpgs_args path (if_None_then area_otherpgs area_headpg)
                                     (if_None_then cols_otherpgs cols_headpg) pdf_numpgs)
                      (inr dfs_otherpgs)
         :: tl).

(** ** Sample environments *)

Definition sample_df : DataFrame :=
  {| df_columns := ["Game Date"; "Team"; "Player Name"; "Current Status"];
     df_rows := [["11/03/2026"; "Boston Celtics"; "Doe, John"; "Out"]] |}.

Definition sample_body : list stream_item :=
  [Chunk ["%"%byte; "P"%byte; "D"%byte; "F"%byte]; Chunk []; Chunk ["-"%byte]].

Definition sample_response (code : Z) (body : list stream_item) : Response :=
  {| status_code := code; retry_after := RetryAfterNone; location := None;
     iter_content := body |}.

Definition sample_tmp : string := "/tmp/tmpk3v9q1.pdf".

(** A server that answers every request with [code] and [body], URLs that
    requests leaves as they are, a temporary
    directory whose next name is [/tmp/tmpk3v9q1.pdf], a document of [n]
    pages whose tables tabula finds, a validator that answers [v], and an
    [unlink] that answers [unl]. *)
Definition sample_env (code : Z) (body : list stream_item) (n : nat) (v : Result unit)
    (unl : option exn) : Env :=
  {| transport := fun _ _ => Responds (sample_response code body);
     prepare_request := fun url _ => inr url;
     redirect_url := fun _ location => location;
     redirect_headers := fun req _ => req_headers req;
     mkstemp := fun _ => sample_tmp;
     unlink_error := fun _ _ => unl;
     PdfReader_pages := fun _ _ => inr n;
     read_pdf := fun _ _ => inr [sample_df];
     _validate_headers := fun _ => v;
     __concat_injreppgs := fun _ _ => inr sample_df;
     __clean_injrep := fun df => inr df;
     _pagect_localpdf := fun fs path =>
       match fs !! path with
       | Some _ => inr (Z.of_nat n)
       | None => inl FileNotFoundError
       end |}.

(** A server that answers the first [k] requests with [first] and the
    later ones with [code]. *)
Definition then_env (k : nat) (first code : Z) : Env :=
  {| transport := fun _ attempt =>
       Responds (sample_response (if (attempt <? k)%nat then first else code) sample_body);
     prepare_request := fun url _ => inr url;
     redirect_url := fun _ location => location;
     redirect_headers := fun req _ => req_headers req;
     mkstemp := mkstemp (sample_env code sample_body 1 (inr tt) None);
     unlink_error := unlink_error (sample_env code sample_body 1 (inr tt) None);
     PdfReader_pages := PdfReader_pages (sample_env code sample_body 1 (inr tt) None);
     read_pdf := read_pdf (sample_env code sample_body 1 (inr tt) None);
     _validate_headers := fun _ => inr tt;
     __concat_injreppgs := fun _ _ => inr sample_df;
     __clean_injrep := fun df => inr df;
     _pagect_localpdf := _pagect_localpdf (sample_env code sample_body 1 (inr tt) None) |}.

Definition sample_url : string :=
  "https://ak-static.cms.nba.com/referee/injury/Injury-Report_2026-11-03_05PM.pdf".

Definition sample_http_url : string :=
  "http://ak-static.cms.nba.com/referee/injury/Injury-Report_2026-11-03_05PM.pdf".

Definition sample_area : list coord := [70 # 1; 20 # 1; 560 # 1; 820 # 1].

Definition sample_cols : list coord := [110 # 1; 190 # 1; 260 # 1; 430 # 1; 590 # 1; 680 # 1].

(** ** More readings of runs *)

(** The request [session.get] sends first in [validate_injrepurl], for the
    prepared URL. *)
Definition sent_request (url : string) (kwargs_headers : option (gmap string string))
    : Request :=
  {| req_method := "GET"; req_url := url;
     req_headers := dict_update default_headers (default ∅ kwargs_headers);
     req_stream := true; req_timeout := (5, 60) |}.

(** The bytes [iter_content] delivers before it ends or breaks. *)
Fixpoint received (items : list stream_item) : bytes :=
  match items with
  | [] => []
  | Chunk b :: items' => b ++ received items'
  | StreamFail _ :: _ => []
  end.

(** The [tmp.write] calls of the download loop: one for each chunk that is
    not empty, up to the break. *)
Fixpoint writes_of (name : string) (items : list stream_item) : list event :=
  match items with
  | [] => []
  | Chunk [] :: items' => writes_of name items'
  | Chunk b :: items' => EvTmpWrite name b :: writes_of name items'
  | StreamFail _ :: _ => []
  end.

(** The exception of a call of PyPDF2, tabula or a [_util] helper inside
    the pipeline, when the call raised. *)
Definition failed_call (ev : event) : option exn :=
  match ev with
  | EvPdfReader _ (inl e) | EvReadPdf _ (inl e) | EvValidateHeaders _ (inl e)
  | EvConcat _ _ (inl e) | EvClean _ (inl e) => Some e
  | _ => None
  end.

Definition is_validation (ev : event) : bool :=
  match ev with
  | EvValidateHeaders _ _ => true
  | _ => false
  end.

(** Calls of the pipeline proper: the extraction engine, the validator,
    the concatenation and the cleaning. *)
Definition is_pipeline (ev : event) : bool :=
  match ev with
  | EvReadPdf _ _ | EvValidateHeaders _ _ | EvConcat _ _ _ | EvClean _ _ => true
  | _ => false
  end.

(** The same collaborators with another [unlink]. *)
Definition with_unlink (env : Env) (unl : gmap string bytes -> string -> option exn) : Env :=
  {| transport := transport env;
     prepare_request := prepare_request env;
     redirect_url := redirect_url env;
     redirect_headers := redirect_headers env;
     mkstemp := mkstemp env;
     unlink_error := unl;
     PdfReader_pages := PdfReader_pages env;
     read_pdf := read_pdf env;
     _validate_headers := _validate_headers env;
     __concat_injreppgs := __concat_injreppgs env;
     __clean_injrep := __clean_injrep env;
     _pagect_localpdf := _pagect_localpdf env |}.

(** A status of the [status_forcelist] of [retries]. *)
Definition forced (code : Z) : bool :=
  urllib3.mem_Z code (urllib3.status_forcelist retries).

(** A URL the session serves with the retrying adapter. *)
Definition is_https (url : string) : bool :=
  requests.startswith (requests.lower url) "https://".

(** A redirect that [Session_send] follows, if it has redirects left. *)
Definition followed (resp : Response) : bool :=
  urllib3.nonempty (requests.get_redirect_target resp).

(** A response whose [Retry-After] header, if it has one, [Retry.sleep]
    can read. *)
Definition readable_retry_after (resp : Response) : bool :=
  negb (urllib3.parse_retry_after (retry_after resp)).





(** What [validate_injrepurl] makes of a response that is not retried. *)
Definition validated (filepath : string) (resp : Response) : Result Response :=
  if client_or_server_error (status_code resp)
  then inl (URLRetrievalError filepath (RequestException (HTTPError (status_code resp))))
  else inr resp.

(** What [validate_injrepurl] makes of the outcome of [session.get]. *)
Definition checked (filepath : string) (r : Result Response) : Result Response :=
  match r with
  | inl e => inl (if is_RequestException e then URLRetrievalError filepath e else e)
  | inr resp => validated filepath resp
  end.

(** A [Retry] like [retries] with [n] retries left. *)
Definition retrying (r : urllib3.Retry) (n : Z) : Prop :=
  total_only r n /\
  urllib3.read r = urllib3.CNone /\
  urllib3.allowed_methods r = ["GET"] /\
  urllib3.status_forcelist r = urllib3.status_forcelist retries /\
  urllib3.respect_retry_after_header r = true.

(** What the two adapters of the session have in common, with [n] retries
    left: an int [total] alone, a GET is retried, and the forced statuses
    are client or server errors. *)
Definition policy (r : urllib3.Retry) (n : Z) : Prop :=
  total_only r n /\
  urllib3._is_method_retryable r "GET" = true /\
  urllib3.respect_retry_after_header r = true /\
  Forall (fun code => client_or_server_error code = true) (urllib3.status_forcelist r).

(** ** The runs of the retrieval *)

(** What [urlopen] does after an attempt: it ends, or it goes on with
    another [Retry]. *)
Definition after_attempt (retries : urllib3.Retry) (method : string) (o : outcome)
    : urllib3.urlopen_result + urllib3.Retry :=
  match o with
  | Fails err =>
      match urllib3.increment retries method (inl err) with
      | urllib3.Incremented retries' =>
          if urllib3.sleep retries' None then inl urllib3.RaisedInvalidHeader
          else inr retries'
      | urllib3.Reraise e => inl (urllib3.Raised e)
      | urllib3.MaxRetryError why => inl (urllib3.RaisedMaxRetry why)
      end
  | Responds resp =>
      if urllib3.is_retry retries method (status_code resp) (urllib3.has_retry_after resp)
      then
        match urllib3.increment retries method (inr resp) with
        | urllib3.Incremented retries' =>
            if urllib3.sleep retries' (Some resp) then inl urllib3.RaisedInvalidHeader
            else inr retries'
        | urllib3.Reraise e => inl (urllib3.Raised e)
        | urllib3.MaxRetryError why =>
            if urllib3.raise_on_status retries then inl (urllib3.RaisedMaxRetry why)
            else inl (urllib3.Returned resp)
        end
      else inl (urllib3.Returned resp)
  end.

(** [urlopen_run tr req retries k res evs]: [urlopen] for [req], with
    [retries] and after [k] requests, ends in [res] after the requests
    [evs]. *)
Inductive urlopen_run (tr : Request -> nat -> outcome) (req : Request)
    : urllib3.Retry -> nat -> urllib3.urlopen_result -> list event -> Prop :=
  | urlopen_ends retries k res :
      after_attempt retries (req_method req) (tr req k) = inl res ->
      urlopen_run tr req retries k res [EvRequest req k (tr req k)]
  | urlopen_retries retries k retries' res evs :
      after_attempt retries (req_method req) (tr req k) = inr retries' ->
      urlopen_run tr req retries' (S k) res evs ->
      urlopen_run tr req retries k res (EvRequest req k (tr req k) :: evs).

(** [session_run env n k req r evs]: [Session_send] for [req], with [n]
    redirects left and after [k] requests, ends in [r] after the requests
    [evs]. *)
Inductive session_run (env : Env)
    : nat -> nat -> Request -> Result Response -> list event -> Prop :=
  | session_no_adapter n k req :
      requests.get_adapter session (req_url req) = None ->
      session_run env n k req (inl (RequestException InvalidSchema)) []
  | session_raises n k req adapter res evs e :
      requests.get_adapter session (req_url req) = Some adapter ->
      urlopen_run (transport env) req (requests.max_retries adapter) k res evs ->
      requests.send_outcome res = inl e ->
      session_run env n k req (inl e) evs
  | session_returns n k req adapter res evs resp :
      requests.get_adapter session (req_url req) = Some adapter ->
      urlopen_run (transport env) req (requests.max_retries adapter) k res evs ->
      requests.send_outcome res = inr resp ->
      followed resp = false ->
      session_run env n k req (inr resp) evs
  | session_body_breaks n k req adapter res evs resp kind :
      requests.get_adapter session (req_url req) = Some adapter ->
      urlopen_run (transport env) req (requests.max_retries adapter) k res evs ->
      requests.send_outcome res = inr resp ->
      followed resp = true ->
      requests.content_error resp = Some kind ->
      session_run env n k req (inl (RequestException kind)) evs
  | session_too_many k req adapter res evs resp :
      requests.get_adapter session (req_url req) = Some adapter ->
      urlopen_run (transport env) req (requests.max_retries adapter) k res evs ->
      requests.send_outcome res = inr resp ->
      followed resp = true ->
      requests.content_error resp = None ->
      session_run env 0 k req (inl (RequestException TooManyRedirects)) evs
  | session_follows n k req adapter res evs resp url r evs' :
      requests.get_adapter session (req_url req) = Some adapter ->
      urlopen_run (transport env) req (requests.max_retries adapter) k res evs ->
      requests.send_outcome res = inr resp ->
      followed resp = true ->
      requests.content_error resp = None ->
      requests.get_redirect_target resp = Some url ->
      session_run env n (k + length evs)
        (requests.redirect_request (redirect_url env) (redirect_headers env) req resp url)
        r evs' ->
      session_run env (S n) k req r (evs ++ evs').

(** In a list of requests, one that does not go to an https URL has a
    successor only when a redirect has answered it. *)
Fixpoint never_retried (evs : list event) : Prop :=
  match evs with
  | EvRequest req _ ans :: ((_ :: _) as evs') =>
      (is_https (req_url req) = false ->
       exists resp, ans = Responds resp /\ followed resp = true) /\
      never_retried evs'
  | _ => True
  end.

(** ** What the environment presents *)

(** [document env op filepath fs path fs1 n]: in the files [fs] the
    environment presents to the operation [op] a document of [n] pages; the
    extraction engine will find it under [path], in the files [fs1].  In
    remote mode the retrieval succeeds, the name of the temporary file is
    free, the body can be read to its end and PyPDF2 counts the pages of
    what has been written; in local mode the probe counts them. *)
Definition document (env : Env) (op : entry) (filepath : string) (fs : gmap string bytes)
    (path : string) (fs1 : gmap string bytes) (n : Z) : Prop :=
  match op with
  | FromUrl kwargs_headers =>
      exists resp w0 k,
        validate_injrepurl env filepath kwargs_headers (start fs) = Some (inr resp, w0) /\
        stream_failure (iter_content resp) = None /\
        fs !! mkstemp env fs = None /\
        path = mkstemp env fs /\
        fs1 = <[path := received (iter_content resp)]> fs /\
        PdfReader_pages env fs1 path = inr k /\
        n = Z.of_nat k
  | FromLocal =>
      path = filepath /\ fs1 = fs /\ _pagect_localpdf env fs filepath = inr n
  end.

(** A server that does not answer: every request fails with [err]. *)
Definition down_env (err : error) : Env :=
  {| transport := fun _ _ => Fails err;
     prepare_request := fun url _ => inr url;
     redirect_url := fun _ location => location;
     redirect_headers := fun req _ => req_headers req;
     mkstemp := fun _ => sample_tmp;
     unlink_error := fun _ _ => None;
     PdfReader_pages := fun _ _ => inr 1%nat;
     read_pdf := fun _ _ => inr [sample_df];
     _validate_headers := fun _ => inr tt;
     __concat_injreppgs := fun _ _ => inr sample_df;
     __clean_injrep := fun df => inr df;
     _pagect_localpdf := fun _ _ => inl (OtherException "PdfReadError") |}.

(** A document in which tabula finds no table on the header page. *)
Definition blank_env : Env :=
  {| transport := fun _ _ => Responds (sample_response 200 sample_body);
     prepare_request := fun url _ => inr url;
     redirect_url := fun _ location => location;
     redirect_headers := fun req _ => req_headers req;
     mkstemp := fun _ => sample_tmp;
     unlink_error := fun _ _ => None;
     PdfReader_pages := fun _ _ => inr 2%nat;
     read_pdf := fun _ _ => inr [];
     _validate_headers := fun _ => inr tt;
     __concat_injreppgs := fun _ _ => inr sample_df;
     __clean_injrep := fun df => inr df;
     _pagect_localpdf := fun _ _ => inr 2 |}.

Definition broken_body : list stream_item :=
  [Chunk ["%"%byte; "P"%byte]; Chunk []; Chunk ["D"%byte];
   StreamFail (RequestException ConnectionError); Chunk ["F"%byte]].

(** ** What the last attempt decides *)


(** ** Readers of the document *)

(** Calls that read the document: the page count of PyPDF2 and the
    extraction engine. *)
Definition is_reader (ev : event) : bool :=
  match ev with
  | EvPdfReader _ _ | EvReadPdf _ _ => true
  | _ => false
  end.

(** The answer recorded for a call of PyPDF2 or of the extraction engine is
    the one the collaborator gives on the files [fs]. *)
Definition answered_on (env : Env) (fs : gmap string bytes) (ev : event) : Prop :=
  match ev with
  | EvPdfReader path answer => answer = PdfReader_pages env fs path
  | EvReadPdf a answer => answer = read_pdf env fs a
  | _ => True
  end.

(** The URLs the requests of a trace go to, in order. *)
Definition visited (t : list event) : list string :=
  flat_map (fun ev => match ev with
                      | EvRequest req _ _ => [req_url req]
                      | _ => []
                      end) t.

(** ** More sample environments *)

(** The sample collaborators around another network. *)
Definition network_env (network : Request -> nat -> outcome) : Env :=
  {| transport := network;
     prepare_request := fun url _ => inr url;
     redirect_url := fun _ location => location;
     redirect_headers := fun req _ => req_headers req;
     mkstemp := fun _ => sample_tmp;
     unlink_error := fun _ _ => None;
     PdfReader_pages := fun _ _ => inr 1%nat;
     read_pdf := fun _ _ => inr [sample_df];
     _validate_headers := fun _ => inr tt;
     __concat_injreppgs := fun _ _ => inr sample_df;
     __clean_injrep := fun df => inr df;
     _pagect_localpdf := fun _ _ => inr 1 |}.



(** A server that answers 503 with a [Retry-After] header that is no
    number and no date. *)
Definition garbled_response : Response :=
  {| status_code := 503; retry_after := RetryAfterInvalid; location := None;
     iter_content := [] |}.

Definition garbled_network (req : Request) (k : nat) : outcome :=
  Responds garbled_response.

(** A server that sends http requests on to [sample_url] and answers 503
    there. *)
Definition moved_network (req : Request) (k : nat) : outcome :=
  Responds
    (if is_https (req_url req)
     then sample_response 503 sample_body
     else {| status_code := 301; retry_after := RetryAfterNone;
             location := Some sample_url; iter_content := [] |}).

(** A server that sends every request on to [sample_url], in a response
    whose body breaks with [body_error]. *)
Definition broken_redirect_network (body_error : exn) (req : Request) (k : nat) : outcome :=
  Responds {| status_code := 302; retry_after := RetryAfterNone;
              location := Some sample_url; iter_content := [StreamFail body_error] |}.

(** A preparation of requests that strips the blanks a location begins
    with. *)
Fixpoint lstrip (s : string) : string :=
  match s with
  | String " " s' => lstrip s'
  | _ => s
  end.

Definition stripping_env (code : Z) : Env :=
  {| transport := fun _ _ => Responds (sample_response code sample_body);
     prepare_request := fun url _ => inr (lstrip url);
     redirect_url := fun _ location => location;
     redirect_headers := fun req _ => req_headers req;
     mkstemp := fun _ => sample_tmp;
     unlink_error := fun _ _ => None;
     PdfReader_pages := fun _ _ => inr 1%nat;
     read_pdf := fun _ _ => inr [sample_df];
     _validate_headers := fun _ => inr tt;
     __concat_injreppgs := fun _ _ => inr sample_df;
     __clean_injrep := fun df => inr df;
     _pagect_localpdf := fun _ _ => inr 1 |}.

(** ** Proof steps

    [inv_run] splits a run of the shared statements into its cases;
    [in_cases] goes through the members of a trace that is written out. *)

Ltac inv_run H :=
  inversion H; subst; clear H;
  try match goal with
      | F : finish_run _ _ _ _ |- _ => inversion F; subst; clear F
      end.

Ltac in_cases H :=
  simpl in H;
  repeat match type of H with
         | _ \/ _ => destruct H as [H | H]
         end;
  try done; try discriminate.

(** ** Helper lemmas: worlds *)

Lemma extend_nil w : extend w [] = w.
Proof. destruct w as [fs t]. unfold extend. simpl. by rewrite app_nil_r. Qed.

Lemma extend_extend w a b : extend (extend w a) b = extend w (a ++ b).
Proof. unfold extend. simpl. by rewrite <- app_assoc. Qed.

Lemma log_extend ev w : log ev w = extend w [ev].
Proof. reflexivity. Qed.

Lemma attempts_app a b : attempts (a ++ b) = (attempts a + attempts b)%nat.
Proof. unfold attempts. by rewrite List.filter_app, length_app. Qed.

Lemma attempts_requests evs :
  Forall (fun ev => is_request ev = true) evs -> attempts evs = length evs.
Proof.
  induction 1 as [|ev evs Hev _ IH]; [done|].
  unfold attempts in *. simpl. rewrite Hev. simpl. by rewrite IH.
Qed.

(** ** Helper lemmas: urllib3 *)

Lemma is_exhausted_total_only r n :
  urllib3.total r = urllib3.CInt n ->
  urllib3.connect r = urllib3.CNone ->
  (urllib3.read r = urllib3.CNone \/ urllib3.read r = urllib3.CFalse) ->
  urllib3.redirect r = urllib3.CNone ->
  urllib3.status r = urllib3.CNone ->
  urllib3.other r = urllib3.CNone ->
  urllib3.is_exhausted r = (n <? 0).
Proof.
  intros Ht Hc Hr Hd Hs Ho. unfold urllib3.is_exhausted.
  rewrite Ht, Hc, Hd, Hs, Ho.
  assert (urllib3.truthy (urllib3.read r) = false) as Hrd
    by (destruct Hr as [-> | ->]; reflexivity).
  simpl. rewrite Hrd.
  destruct (Z.eqb_spec n 0) as [-> | Hn]; simpl; [done|].
  reflexivity.
Qed.

(** [increment] for a [Retry] whose only counter is an int [total]: a read
    error is handed back when [read] is [False] or the method is not
    retried, and otherwise [total] goes down by one, which ends the retries
    once it is negative. *)
Lemma increment_total_only r n method o :
  total_only r n ->
  urllib3.increment r method o =
    let r' := urllib3.with_counts r (urllib3.CInt (n - 1)) urllib3.CNone (urllib3.read r)
                urllib3.CNone urllib3.CNone urllib3.CNone in
    match o with
    | inl err =>
        if urllib3._is_read_error err &&
           (match urllib3.read r with urllib3.CFalse => true | _ => false end
            || negb (urllib3._is_method_retryable r method))
        then urllib3.Reraise err
        else if n - 1 <? 0 then urllib3.MaxRetryError (urllib3.ReasonError err)
             else urllib3.Incremented r'
    | inr resp =>
        if n - 1 <? 0 then urllib3.MaxRetryError (urllib3.ResponseError (status_code resp))
        else urllib3.Incremented r'
    end.
Proof.
  intros (Ht & Hn & Hc & Hr & Hd & Hs & Ho & Hraise).
  assert (forall rd why,
             (rd = urllib3.CNone \/ rd = urllib3.CFalse) ->
             urllib3.finish_increment
               (urllib3.with_counts r (urllib3.CInt (n - 1)) urllib3.CNone rd
                  urllib3.CNone urllib3.CNone urllib3.CNone) why =
               if n - 1 <? 0 then urllib3.MaxRetryError why
               else urllib3.Incremented
                      (urllib3.with_counts r (urllib3.CInt (n - 1)) urllib3.CNone rd
                         urllib3.CNone urllib3.CNone urllib3.CNone)) as Hfin.
  { intros rd why Hrd. unfold urllib3.finish_increment.
    by rewrite (is_exhausted_total_only _ (n - 1)). }
  unfold urllib3.increment. rewrite Ht, Hc, Hd, Hs, Ho. cbn [urllib3.decr]. cbv zeta.
  destruct o as [err | resp].
  - destruct err; cbn [urllib3._is_connection_error urllib3._is_read_error andb];
      try (by apply Hfin);
      destruct Hr as [Hr | Hr]; rewrite Hr; cbn [orb urllib3.decr]; try done;
      destruct (urllib3._is_method_retryable r method); cbn [negb]; try done;
      apply Hfin; auto.
  - destruct (urllib3.get_redirect_location resp); [by apply Hfin|].
    destruct (status_code resp =? 0); by apply Hfin.
Qed.

Lemma total_only_with_counts r n :
  total_only r n -> 0 <= n - 1 ->
  total_only (urllib3.with_counts r (urllib3.CInt (n - 1)) urllib3.CNone (urllib3.read r)
                urllib3.CNone urllib3.CNone urllib3.CNone) (n - 1).
Proof.
  intros (Ht & Hn & Hc & Hr & Hd & Hs & Ho & Hraise) Hle.
  unfold total_only. simpl. repeat split; try done.
Qed.

(** After an attempt [urlopen] goes on only with one retry less, and with
    the same policy otherwise. *)
Lemma after_attempt_retry r n method o r' :
  total_only r n ->
  after_attempt r method o = inr r' ->
  r' = urllib3.with_counts r (urllib3.CInt (n - 1)) urllib3.CNone (urllib3.read r)
         urllib3.CNone urllib3.CNone urllib3.CNone /\
  0 <= n - 1.
Proof.
  intros Hr. unfold after_attempt.
  destruct o as [resp | err].
  - destruct (urllib3.is_retry _ _ _ _); [|done].
    rewrite (increment_total_only _ _ _ _ Hr). cbv zeta.
    destruct (Z.ltb_spec (n - 1) 0).
    + by destruct (urllib3.raise_on_status r).
    + destruct (urllib3.sleep _ _); [done|]. intros [= <-]. split; [done|lia].
  - rewrite (increment_total_only _ _ _ _ Hr). cbv zeta.
    destruct (_ && _); [done|].
    destruct (Z.ltb_spec (n - 1) 0); [done|].
    cbn [urllib3.sleep]. intros [= <-]. split; [done|lia].
Qed.


(** One step of [urlopen]. *)
Lemma urlopen_step fuel tr req r k w :
  urllib3.urlopen (S fuel) tr req r k w =
    match after_attempt r (req_method req) (tr req k) with
    | inl res => Some (inr res, extend w [EvRequest req k (tr req k)])
    | inr r' => urllib3.urlopen fuel tr req r' (S k) (extend w [EvRequest req k (tr req k)])
    end.
Proof.
  cbn [urllib3.urlopen]. unfold bind, emit, after_attempt. rewrite log_extend.
  destruct (tr req k) as [resp | err].
  - destruct (urllib3.is_retry _ _ _ _); [|done].
    destruct (urllib3.increment _ _ _); try done.
    + by destruct (urllib3.sleep _ _).
    + by destruct (urllib3.raise_on_status r).
  - destruct (urllib3.increment _ _ _); try done.
Qed.

(** [urlopen] returns, and what it does is a run of [urlopen_run]. *)
Lemma urlopen_sound fuel : forall tr req r n k w,
  total_only r n ->
  (Z.to_nat n + 2 <= fuel)%nat ->
  exists res evs,
    urllib3.urlopen fuel tr req r k w = Some (inr res, extend w evs) /\
    urlopen_run tr req r k res evs.
Proof.
  induction fuel as [|fuel IH]; intros tr req r n k w Hr Hfuel; [lia|].
  rewrite urlopen_step.
  destruct (after_attempt r (req_method req) (tr req k)) as [res | r'] eqn:Hafter.
  - exists res, [EvRequest req k (tr req k)]. split; [done|]. by constructor.
  - destruct (after_attempt_retry _ _ _ _ _ Hr Hafter) as [-> Hn].
    destruct (IH tr req _ (n - 1) (S k) (extend w [EvRequest req k (tr req k)])
                (total_only_with_counts _ _ Hr Hn)) as (res & evs & Hrun & Hevs); [lia|].
    exists res, (EvRequest req k (tr req k) :: evs).
    rewrite Hrun, extend_extend. split; [done|]. by econstructor.
Qed.

(** The requests of a run of [urlopen] are requests for the same thing,
    numbered from [k] on. *)
Lemma urlopen_run_requests tr req r k res evs :
  urlopen_run tr req r k res evs ->
  evs = map (fun j => EvRequest req j (tr req j)) (seq k (length evs)) /\ evs <> [].
Proof.
  induction 1 as [r k res Hafter | r k r' res evs Hafter Hrun [IH _]]; [done|].
  split; [|done]. simpl. by rewrite <- IH.
Qed.

Lemma urlopen_run_forall tr req r k res evs :
  urlopen_run tr req r k res evs ->
  Forall (fun ev => exists j, ev = EvRequest req j (tr req j)) evs.
Proof.
  intros Hrun. destruct (urlopen_run_requests _ _ _ _ _ _ Hrun) as [-> _].
  apply Forall_forall. intros ev Hin. apply list_elem_of_In, in_map_iff in Hin.
  destruct Hin as (j & <- & _). eauto.
Qed.

Lemma urlopen_run_is_request tr req r k res evs :
  urlopen_run tr req r k res evs ->
  Forall (fun ev => is_request ev = true) evs.
Proof.
  intros Hrun. eapply Forall_impl; [by eapply urlopen_run_forall|]. by intros ev [j ->].
Qed.

(** A run of [urlopen] sends at most [total + 1] requests. *)
Lemma urlopen_run_length tr req r k res evs : forall n,
  urlopen_run tr req r k res evs ->
  total_only r n ->
  (1 <= length evs <= Z.to_nat n + 1)%nat.
Proof.
  intros n Hrun. revert n.
  induction Hrun as [r k res Hafter | r k r' res evs Hafter Hrun IH]; intros n Hr.
  - simpl. lia.
  - destruct (after_attempt_retry _ _ _ _ _ Hr Hafter) as [-> Hn].
    specialize (IH (n - 1) (total_only_with_counts _ _ Hr Hn)). simpl. lia.
Qed.

Lemma mem_Z_In x l : urllib3.mem_Z x l = true <-> In x l.
Proof.
  unfold urllib3.mem_Z. rewrite existsb_exists. split.
  - intros (y & Hin & Heq). apply Z.eqb_eq in Heq. by subst.
  - intros Hin. exists x. split; [done|]. apply Z.eqb_refl.
Qed.





Lemma after_attempt_raised r n method o err :
  total_only r n ->
  after_attempt r method o = inl (urllib3.Raised err) ->
  urllib3._is_read_error err = true.
Proof.
  intros Hr. unfold after_attempt.
  destruct o as [resp | err']; rewrite (increment_total_only _ _ _ _ Hr); cbv zeta.
  - destruct (urllib3.is_retry _ _ _ _); [|done].
    destruct (n - 1 <? 0).
    + by destruct (urllib3.raise_on_status r).
    + by destruct (urllib3.sleep _ _).
  - destruct (urllib3._is_read_error err') eqn:Hread; cbn [andb].
    + destruct (_ || _); [by intros [= <-]|]. by destruct (n - 1 <? 0).
    + by destruct (n - 1 <? 0).
Qed.

(** An error [urlopen] hands back as it is is a read error. *)
Lemma urlopen_run_raised tr req r k res evs :
  urlopen_run tr req r k res evs ->
  forall n err, total_only r n -> res = urllib3.Raised err ->
  urllib3._is_read_error err = true.
Proof.
  induction 1 as [r k res Hafter | r k r' res evs Hafter Hrun IH]; intros n err Hr ->.
  - by eapply after_attempt_raised.
  - destruct (after_attempt_retry _ _ _ _ _ Hr Hafter) as [-> Hn].
    by eapply (IH (n - 1)); [apply total_only_with_counts|].
Qed.

(** ** Helper lemmas: requests *)

Lemma total_only_retries : total_only retries 5.
Proof. unfold total_only, retries. simpl. repeat split; auto; lia. Qed.

Lemma total_only_default :
  total_only (requests.max_retries requests.HTTPAdapter_default) 0.
Proof. unfold total_only. simpl. repeat split; auto; lia. Qed.

Lemma policy_retries : policy retries 5.
Proof.
  split; [apply total_only_retries|]. split; [reflexivity|]. split; [reflexivity|].
  by repeat constructor.
Qed.

Lemma policy_default : policy (requests.max_retries requests.HTTPAdapter_default) 0.
Proof.
  split; [apply total_only_default|]. split; [reflexivity|]. split; [reflexivity|].
  constructor.
Qed.

(** The adapters of the session: the retrying one for https, the default
    one for http. *)
Lemma session_adapters :
  requests.adapters session =
    [("https://", requests.HTTPAdapter_init retries);
     ("http://", requests.HTTPAdapter_default)].
Proof. reflexivity. Qed.

Lemma get_adapter_session url :
  requests.get_adapter session url =
    if is_https url
    then Some (requests.HTTPAdapter_init retries)
    else if requests.startswith (requests.lower url) "http://"
         then Some requests.HTTPAdapter_default
         else None.
Proof. unfold requests.get_adapter. rewrite session_adapters. reflexivity. Qed.

(** Every adapter of the session has a policy of at most five retries:
    five for https, none otherwise. *)
Lemma adapter_policy url adapter :
  requests.get_adapter session url = Some adapter ->
  exists n, policy (requests.max_retries adapter) n /\ n <= 5 /\
            (is_https url = true -> adapter = requests.HTTPAdapter_init retries /\ n = 5) /\
            (is_https url = false -> adapter = requests.HTTPAdapter_default /\ n = 0).
Proof.
  rewrite get_adapter_session. destruct (is_https url).
  - intros [= <-]. exists 5. split; [apply policy_retries|]. split; [lia|]. by split.
  - destruct (requests.startswith (requests.lower url) "http://"); [|done].
    intros [= <-]. exists 0. split; [apply policy_default|]. split; [lia|]. by split.
Qed.

(** [HTTPAdapter.send] returns, and what it does is a run of [urlopen]. *)
Lemma send_sound adapter n tr req w :
  total_only (requests.max_retries adapter) n ->
  exists res evs,
    requests.send adapter tr req w = Some (requests.send_outcome res, extend w evs) /\
    urlopen_run tr req (requests.max_retries adapter) (attempts (trace w)) res evs.
Proof.
  intros Hr. unfold requests.send, bind.
  destruct (urlopen_sound (urllib3.fuel_for (requests.max_retries adapter))
              tr req _ n (attempts (trace w)) w Hr) as (res & evs & -> & Hrun).
  { unfold urllib3.fuel_for. replace (urllib3.total _) with (urllib3.CInt n)
      by (symmetry; apply Hr). simpl. lia. }
  exists res, evs. split; [|done]. by destruct (requests.send_outcome res).
Qed.

Lemma followed_target resp :
  followed resp =
    match requests.get_redirect_target resp with
    | Some (String _ _) => true
    | _ => false
    end.
Proof. reflexivity. Qed.

(** [Session_send] returns, and what it does is a run of [session_run]. *)
Lemma session_sound env n : forall req w,
  exists r evs,
    requests.Session_send n session (transport env) (redirect_url env) (redirect_headers env)
      req w = Some (r, extend w evs) /\
    session_run env n (attempts (trace w)) req r evs.
Proof.
  induction n as [|n IH]; intros req w; cbn [requests.Session_send];
    (destruct (requests.get_adapter session (req_url req)) as [adapter|] eqn:Hget;
     [|exists (inl (RequestException InvalidSchema)), []; rewrite extend_nil;
       split; [done|]; by constructor]);
    destruct (adapter_policy _ _ Hget) as (m & Hp & _);
    destruct (send_sound adapter m (transport env) req w (proj1 Hp))
      as (res & evs & Hsend & Hrun);
    unfold bind; rewrite Hsend;
    (destruct (requests.send_outcome res) as [e | resp] eqn:Hout;
     [exists (inl e), evs; split; [done|]; by econstructor|]);
    pose proof (followed_target resp) as Hfollowed;
    destruct (requests.get_redirect_target resp) as [[|c url]|] eqn:Htarget;
    try (exists (inr resp), evs; split; [done|]; by econstructor);
    (destruct (requests.content_error resp) as [kind|] eqn:Hbody;
     [exists (inl (RequestException kind)), evs; split; [done|];
      by eapply session_body_breaks|]).
  - exists (inl (RequestException TooManyRedirects)), evs. split; [done|].
    by eapply session_too_many.
  - destruct (IH (requests.redirect_request (redirect_url env) (redirect_headers env)
                    req resp (String c url)) (extend w evs)) as (r & evs' & Hnext & Hrun').
    exists r, (evs ++ evs'). rewrite Hnext, extend_extend. split; [done|].
    eapply session_follows; try done.
    replace (attempts (trace w) + length evs)%nat with (attempts (trace (extend w evs)));
      [done|].
    simpl. rewrite attempts_app. f_equal.
    apply attempts_requests. by eapply urlopen_run_is_request.
Qed.

(** ** Helper lemmas: the runs of the session *)


Lemma session_run_requests env n k req r evs :
  session_run env n k req r evs ->
  Forall (fun ev => exists req' j, ev = EvRequest req' j (transport env req' j)) evs.
Proof.
  assert (forall req' r' k' res evs',
             urlopen_run (transport env) req' r' k' res evs' ->
             Forall (fun ev => exists req' j, ev = EvRequest req' j (transport env req' j)) evs')
    as Hhop.
  { intros req' r' k' res evs' Hrun.
    eapply Forall_impl; [by eapply urlopen_run_forall|]. intros ev [j ->]. eauto. }
  induction 1; eauto. apply Forall_app. eauto.
Qed.

Lemma session_run_is_request env n k req r evs :
  session_run env n k req r evs ->
  Forall (fun ev => is_request ev = true) evs.
Proof.
  intros Hrun. eapply Forall_impl; [by eapply session_run_requests|].
  by intros ev (req' & j & ->).
Qed.


Lemma urlopen_run_first tr req r k res evs req' j ans t :
  urlopen_run tr req r k res evs ->
  evs = EvRequest req' j ans :: t ->
  req' = req /\ j = k.
Proof. intros Hrun Heq. destruct Hrun; by injection Heq as <- <- _. Qed.

(** The first request of a session is the one it was asked to send. *)
Lemma session_run_first env n k req r evs req' j ans t :
  session_run env n k req r evs ->
  evs = EvRequest req' j ans :: t ->
  req' = req /\ j = k.
Proof.
  intros Hrun Heq.
  destruct Hrun as [| ? ? ? ? ? ? ? ? Hrun | ? ? ? ? ? ? ? ? Hrun | ? ? ? ? ? ? ? ? ? Hrun
                    | ? ? ? ? ? ? ? Hrun | ? ? ? ? ? ? ? ? ? ? ? Hrun]; [done| | | | |];
    try (by eapply urlopen_run_first).
  destruct (urlopen_run_requests _ _ _ _ _ _ Hrun) as [_ Hne].
  destruct evs as [|ev evs]; [done|]. simpl in Heq. injection Heq as -> _.
  by eapply urlopen_run_first.
Qed.

Lemma send_outcome_exn r n tr req k res evs e :
  total_only r n ->
  urlopen_run tr req r k res evs ->
  requests.send_outcome res = inl e ->
  exists cause, e = RequestException cause.
Proof.
  intros Hr Hrun Hout.
  destruct res as [resp | err | [err | code] |]; simpl in Hout.
  - done.
  - pose proof (urlopen_run_raised _ _ _ _ _ _ Hrun _ _ Hr eq_refl) as Hread.
    destruct err; try discriminate; injection Hout as <-; eauto.
  - destruct err; injection Hout as <-; eauto.
  - injection Hout as <-. eauto.
  - injection Hout as <-. eauto.
Qed.

Lemma send_outcome_returned res resp :
  requests.send_outcome res = inr resp -> res = urllib3.Returned resp.
Proof. destruct res as [resp' | [] | [[] | code] |]; simpl; try done. by intros [= ->]. Qed.

(** The session raises instances of [RequestException] only. *)
Lemma session_run_exn env n k req r evs :
  session_run env n k req r evs ->
  forall e, r = inl e -> exists cause, e = RequestException cause.
Proof.
  induction 1 as [| n k req adapter res evs e Hget Hrun Hout | | | |]; intros e' Heq;
    try (injection Heq as <-; eauto; fail); try done; eauto.
  injection Heq as <-.
  destruct (adapter_policy _ _ Hget) as (m & Hp & _).
  by eapply send_outcome_exn; [apply Hp| |].
Qed.




Lemma after_attempt_returned r method o resp :
  after_attempt r method o = inl (urllib3.Returned resp) -> o = Responds resp.
Proof.
  unfold after_attempt. destruct o as [resp0 | err].
  - destruct (urllib3.is_retry _ _ _ _); [|by intros [= ->]].
    destruct (urllib3.increment _ _ _); try done.
    + by destruct (urllib3.sleep _ _).
    + destruct (urllib3.raise_on_status r); [done|]. by intros [= ->].
  - destruct (urllib3.increment _ _ _); try done.
Qed.

(** A response [urlopen] returns is the answer to its last request. *)
Lemma urlopen_run_returned tr req r k res evs :
  urlopen_run tr req r k res evs ->
  forall resp, res = urllib3.Returned resp ->
  exists evs0 j, evs = evs0 ++ [EvRequest req j (Responds resp)] /\
                 tr req j = Responds resp.
Proof.
  induction 1 as [r k res Hafter | r k r' res evs Hafter Hrun IH]; intros resp ->.
  - apply after_attempt_returned in Hafter. exists [], k. by rewrite Hafter.
  - destruct (IH resp eq_refl) as (evs0 & j & -> & Hj).
    by exists (EvRequest req k (tr req k) :: evs0), j.
Qed.

(** A response the session returns is the answer to its last request, and
    no redirect it would follow. *)
Lemma session_run_returned env n k req r evs :
  session_run env n k req r evs ->
  forall resp, r = inr resp ->
  followed resp = false /\
  exists evs0 req' j,
    evs = evs0 ++ [EvRequest req' j (Responds resp)] /\
    transport env req' j = Responds resp.
Proof.
  induction 1 as [n k req Hget
                 | n k req adapter res evs e Hget Hrun Hout
                 | n k req adapter res evs resp Hget Hrun Hout Hfinal
                 | n k req adapter res evs resp kind Hget Hrun Hout Hfollowed Hbody
                 | k req adapter res evs resp Hget Hrun Hout Hfollowed Hbody
                 | n k req adapter res evs resp url r evs' Hget Hrun Hout Hfollowed Hbody
                     Ht Hnext IH];
    intros resp' Heq; try done.
  - injection Heq as <-. split; [done|].
    apply send_outcome_returned in Hout.
    destruct (urlopen_run_returned _ _ _ _ _ _ Hrun _ Hout) as (evs0 & j & -> & Hj). eauto.
  - destruct (IH resp' Heq) as (Hfinal & evs0 & req' & j & -> & Hj).
    split; [done|]. exists (evs ++ evs0), req', j. by rewrite app_assoc.
Qed.

(** Requests that never follow one another but for a redirect. *)
Lemma never_retried_app a b :
  Forall (fun ev => is_request ev = true) a ->
  never_retried a ->
  never_retried b ->
  (b <> [] ->
   forall a0 req j ans,
     a = a0 ++ [EvRequest req j ans] ->
     is_https (req_url req) = false ->
     exists resp, ans = Responds resp /\ followed resp = true) ->
  never_retried (a ++ b).
Proof.
  induction a as [|ev a IH]; intros Hreq Ha Hb Hjoin; [done|].
  apply Forall_cons in Hreq as [Hev Hreq].
  destruct ev as [req j ans| | | | | | | | |]; try done.
  destruct a as [|ev' a].
  - destruct b as [|ev' b]; [done|]. simpl. split; [|done].
    intros Hs. by apply (Hjoin ltac:(done) [] req j ans).
  - destruct Ha as [Hcond Ha]. change ((EvRequest req j ans :: ev' :: a) ++ b)
      with (EvRequest req j ans :: ev' :: (a ++ b)).
    cbn [never_retried]. split; [done|].
    apply (IH Hreq Ha Hb). intros Hne a0 req' j' ans' Heq.
    intros Hs. apply (Hjoin Hne (EvRequest req j ans :: a0) req' j' ans'); [|done].
    by rewrite Heq.
Qed.

Lemma never_retried_https req evs :
  Forall (fun ev => exists j ans, ev = EvRequest req j ans) evs ->
  is_https (req_url req) = true ->
  never_retried evs.
Proof.
  intros Hevs Hs. induction Hevs as [|ev evs (j & ans & Hev) _ IH]; [done|].
  rewrite Hev. destruct evs as [|ev' evs]; [done|]. split; [|done]. congruence.
Qed.

Lemma never_retried_split evs : forall t1 req j ans ev t2,
  Forall (fun ev => is_request ev = true) evs ->
  never_retried evs ->
  evs = t1 ++ EvRequest req j ans :: ev :: t2 ->
  is_https (req_url req) = false ->
  exists resp, ans = Responds resp /\ followed resp = true.
Proof.
  induction evs as [|x evs IH]; intros t1 req j ans ev t2 Hreq Hnever Heq Hs.
  - by destruct t1.
  - apply Forall_cons in Hreq as [Hx Hreq].
    destruct t1 as [|y t1]; simpl in Heq; injection Heq as -> ->.
    + by apply Hnever.
    + destruct y as [req' j' ans'| | | | | | | | |]; try done.
      apply (IH t1 req j ans ev t2); try done.
      by destruct t1; apply Hnever.
Qed.

(** One hop of the session sends at most six requests, and one exactly
    when the URL is not an https one. *)
Lemma hop_length env req adapter k res evs :
  requests.get_adapter session (req_url req) = Some adapter ->
  urlopen_run (transport env) req (requests.max_retries adapter) k res evs ->
  (1 <= length evs <= 6)%nat /\
  (is_https (req_url req) = false -> evs = [EvRequest req k (transport env req k)]).
Proof.
  intros Hget Hrun.
  destruct (adapter_policy _ _ Hget) as (m & Hp & Hm & _ & Hns).
  pose proof (urlopen_run_length _ _ _ _ _ _ m Hrun (proj1 Hp)) as Hlen.
  assert (0 <= m) by apply Hp.
  split; [lia|]. intros Hs. destruct (Hns Hs) as [_ ->].
  destruct (urlopen_run_requests _ _ _ _ _ _ Hrun) as [Hevs _].
  simpl in Hlen. assert (length evs = 1%nat) as Hone by lia.
  by rewrite Hone in Hevs.
Qed.

Lemma session_run_never_retried env n k req r evs :
  session_run env n k req r evs -> never_retried evs.
Proof.
  assert (forall req adapter k res evs,
             requests.get_adapter session (req_url req) = Some adapter ->
             urlopen_run (transport env) req (requests.max_retries adapter) k res evs ->
             never_retried evs) as Hhop.
  { intros req' adapter k' res evs' Hget Hrun.
    destruct (is_https (req_url req')) eqn:Hs.
    - apply (never_retried_https req'); [|done].
      eapply Forall_impl; [by eapply urlopen_run_forall|]. intros ev [j ->]. eauto.
    - destruct (hop_length _ _ _ _ _ _ Hget Hrun) as [_ Hone]. by rewrite (Hone Hs). }
  induction 1 as [n k req Hget
                 | n k req adapter res evs e Hget Hrun Hout
                 | n k req adapter res evs resp Hget Hrun Hout Hfinal
                 | n k req adapter res evs resp kind Hget Hrun Hout Hfollowed Hbody
                 | k req adapter res evs resp Hget Hrun Hout Hfollowed Hbody
                 | n k req adapter res evs resp url r evs' Hget Hrun Hout Hfollowed Hbody
                     Ht Hnext IH];
    [done | eauto | eauto | eauto | eauto |].
  apply never_retried_app; eauto.
  - by eapply urlopen_run_is_request.
  - intros _ a0 req' j ans Heq _.
    apply send_outcome_returned in Hout.
    destruct (urlopen_run_returned _ _ _ _ _ _ Hrun _ Hout) as (evs0 & j' & Hevs & _).
    rewrite Hevs in Heq. apply app_inj_tail in Heq as [_ Heq].
    injection Heq as _ _ <-. eauto.
Qed.

(** The session sends at most six requests for each of the at most
    [n + 1] URLs it visits. *)
Lemma session_run_length env n k req r evs :
  session_run env n k req r evs -> (length evs <= 6 * (n + 1))%nat.
Proof.
  induction 1 as [n k req Hget
                 | n k req adapter res evs e Hget Hrun Hout
                 | n k req adapter res evs resp Hget Hrun Hout Hfinal
                 | n k req adapter res evs resp kind Hget Hrun Hout Hfollowed Hbody
                 | k req adapter res evs resp Hget Hrun Hout Hfollowed Hbody
                 | n k req adapter res evs resp url r evs' Hget Hrun Hout Hfollowed Hbody
                     Ht Hnext IH];
    try (destruct (hop_length _ _ _ _ _ _ Hget Hrun) as [Hlen _]); simpl; try lia.
  rewrite length_app. lia.
Qed.

(** ** Helper lemmas: [validate_injrepurl] *)

Lemma raise_for_status_validated filepath resp w :
  try_except (requests.raise_for_status resp ;;; ret resp) is_RequestException
    (fun e_gen => raise (URLRetrievalError filepath e_gen)) w =
    Some (validated filepath resp, w).
Proof.
  unfold try_except, bind, requests.raise_for_status, validated, client_or_server_error.
  destruct (Z.leb_spec 400 (status_code resp)), (Z.ltb_spec (status_code resp) 500),
    (Z.leb_spec 500 (status_code resp)), (Z.ltb_spec (status_code resp) 600);
    try lia; reflexivity.
Qed.

(** [validate_injrepurl] is [session.get] followed by the check of the
    status; what [session.get] does is a run of [session_run], unless the
    preparation of the request already fails. *)
Lemma validate_injrepurl_sound env filepath kwargs_headers w :
  exists r0 evs,
    requests.Session_get session (transport env) (prepare_request env) (redirect_url env)
      (redirect_headers env) filepath
      (dict_update default_headers (default ∅ kwargs_headers)) true (5, 60) w =
      Some (r0, extend w evs) /\
    validate_injrepurl env filepath kwargs_headers w =
      Some (checked filepath r0, extend w evs) /\
    match prepare_request env filepath
            (dict_update default_headers (default ∅ kwargs_headers)) with
    | inl kind => r0 = inl (RequestException kind) /\ evs = []
    | inr url =>
        session_run env requests.DEFAULT_REDIRECT_LIMIT (attempts (trace w))
          (sent_request url kwargs_headers) r0 evs
    end.
Proof.
  unfold validate_injrepurl, requests.Session_get.
  destruct (prepare_request env filepath _) as [kind | url].
  - exists (inl (RequestException kind)), []. rewrite extend_nil. by repeat split.
  - destruct (session_sound env requests.DEFAULT_REDIRECT_LIMIT
                (sent_request url kwargs_headers) w) as (r0 & evs & Hsend & Hrun).
    exists r0, evs. unfold sent_request in Hsend. split; [exact Hsend|]. split; [|done].
    unfold try_except, bind. rewrite Hsend.
    destruct r0 as [e | resp];
      [unfold checked, raise; by destruct (is_RequestException e)|].
    exact (raise_for_status_validated filepath resp (extend w evs)).
Qed.

(** [validate_injrepurl] returns the answer to its last request, with a
    status outside 400..599, or raises [URLRetrievalError] with the location
    and a [RequestException]; it changes no file and only sends requests. *)
Lemma validate_injrepurl_run env filepath kwargs_headers w :
  exists r evs,
    validate_injrepurl env filepath kwargs_headers w = Some (r, extend w evs) /\
    Forall (fun ev => exists req k, ev = EvRequest req k (transport env req k)) evs /\
    match r with
    | inl e => exists cause, e = URLRetrievalError filepath (RequestException cause)
    | inr resp =>
        (exists evs0 req k, evs = evs0 ++ [EvRequest req k (Responds resp)] /\
                            transport env req k = Responds resp) /\
        client_or_server_error (status_code resp) = false
    end.
Proof.
  destruct (validate_injrepurl_sound env filepath kwargs_headers w)
    as (r0 & evs & _ & Hval & Hrun).
  exists (checked filepath r0), evs. split; [done|].
  destruct (prepare_request env filepath _) as [kind | url].
  - destruct Hrun as [-> ->]. split; [done|]. simpl. eauto.
  - split; [by eapply session_run_requests|].
    destruct r0 as [e | resp]; simpl.
    + destruct (session_run_exn _ _ _ _ _ _ Hrun e eq_refl) as [cause ->]. simpl. eauto.
    + unfold validated.
      destruct (client_or_server_error (status_code resp)) eqn:Hcode; [eauto|].
      split; [|done].
      by destruct (session_run_returned _ _ _ _ _ _ Hrun resp eq_refl) as [_ ?].
Qed.

(** ** Helper lemmas: the shared statements *)

Lemma finish_run_sound env dfs_headpg dfs_otherpgs w :
  exists r evs,
    (df_rawdata <- concat_injreppgs env dfs_headpg dfs_otherpgs ;;
     clean_injrep env df_rawdata) w = Some (r, extend w evs) /\
    finish_run dfs_headpg dfs_otherpgs r evs.
Proof.
  unfold bind, concat_injreppgs, clean_injrep, call.
  destruct (__concat_injreppgs env dfs_headpg dfs_otherpgs) as [e | raw].
  - eexists _, _. rewrite log_extend. split; [reflexivity|]. constructor.
  - eexists _, _. rewrite !log_extend, extend_extend. split; [reflexivity|]. constructor.
Qed.

(** Every run of [extract_pages] is one of the six of [pages_run]. *)
Lemma extract_pages_run env path n ah ch ao co w :
  exists r evs,
    extract_pages env path n ah ch ao co w = Some (r, extend w evs) /\
    pages_run path n ah ch ao co r evs.
Proof.
  unfold extract_pages. unfold bind at 1. unfold tabula_read_pdf at 1. unfold call at 1.
  destruct (read_pdf env (files w) (headpg_args path ah ch)) as [e | [|df rest]] eqn:Hhead.
  - eexists _, _. rewrite log_extend. split; [reflexivity|]. constructor.
  - unfold bind, index0, raise. eexists _, _. rewrite log_extend.
    split; [reflexivity|]. constructor.
  - unfold bind at 1. unfold index0, ret. unfold bind at 1.
    unfold validate_headers, call.
    destruct (_validate_headers env df) as [e | []] eqn:Hval.
    + eexists _, _. rewrite !log_extend, extend_extend. split; [reflexivity|]. constructor.
    + unfold bind at 1. destruct (Z.leb_spec 2 n) as [Hn | Hn].
      * unfold tabula_read_pdf, call. simpl files.
        destruct (read_pdf env (files w) (otherpgs_args _ _ _ _)) as [e | others] eqn:Hoth.
        -- eexists _, _. rewrite !log_extend, !extend_extend. split; [reflexivity|].
           by constructor.
        -- rewrite !log_extend, !extend_extend. simpl app.
           destruct (finish_run_sound env (df :: rest) others
                       (extend w [EvReadPdf (headpg_args path ah ch) (inr (df :: rest));
                                  EvValidateHeaders df (inr ());
                                  EvReadPdf (otherpgs_args path (if_None_then ao ah)
                                               (if_None_then co ch) n) (inr others)]))
             as (r & tl & Hrun & Hfin).
           eexists r, _. rewrite Hrun, extend_extend.
           split; [reflexivity|]. simpl. by constructor.
      * unfold ret. rewrite !log_extend, !extend_extend. simpl app.
        destruct (finish_run_sound env (df :: rest) []
                    (extend w [EvReadPdf (headpg_args path ah ch) (inr (df :: rest));
                               EvValidateHeaders df (inr ())]))
          as (r & tl & Hrun & Hfin).
        eexists r, _. rewrite Hrun, extend_extend.
        split; [reflexivity|]. simpl. by constructor.
Qed.

(** ** Helper lemmas: [extract_injreplocal] *)

(** The local operation leaves the files as they are, and its trace is the
    probe of the page count followed, when the probe answers, by a run of
    the shared statements on the caller's path. *)
Lemma extract_injreplocal_run env filepath ah ch ao co fs :
  exists r t,
    extract_injreplocal env filepath ah ch ao co (start fs) =
      Some (r, {| files := fs; trace := t |}) /\
    ((exists e, t = [EvPagect filepath (inl e)] /\
                _pagect_localpdf env fs filepath = inl e /\
                r = inl (if is_missing_or_denied e
                         then LocalRetrievalError filepath e else e)) \/
     (exists n evs, t = EvPagect filepath (inr n) :: evs /\
                    _pagect_localpdf env fs filepath = inr n /\
                    pages_run filepath n ah ch ao co r evs)).
Proof.
  unfold extract_injreplocal. unfold bind at 1. unfold try_except, pagect_localpdf, call.
  simpl files.
  destruct (_pagect_localpdf env fs filepath) as [e | n] eqn:Hct.
  - exists (inl (if is_missing_or_denied e then LocalRetrievalError filepath e else e)),
      [EvPagect filepath (inl e)].
    split; [by destruct (is_missing_or_denied e)|]. left. eauto.
  - destruct (extract_pages_run env filepath n ah ch ao co
                (log (EvPagect filepath (inr n)) (start fs))) as (r & evs & -> & Hrun).
    exists r, (EvPagect filepath (inr n) :: evs). split; [reflexivity|]. right. eauto.
Qed.

(** ** Helper lemmas: [extract_injrepurl] *)

(** The download loop writes to the temporary file only, keeps it in
    place, and ends normally exactly when the body can be read to its end. *)
Lemma write_chunks_run name items : forall w,
  exists r fs' evs,
    write_chunks name items w = Some (r, {| files := fs'; trace := trace w ++ evs |}) /\
    delete name fs' = delete name (files w) /\
    (is_Some (files w !! name) -> is_Some (fs' !! name)) /\
    Forall (fun ev => exists b, ev = EvTmpWrite name b) evs /\
    (if forallb is_chunk items then r = inr tt else exists e, r = inl e).
Proof.
  induction items as [|item items IH]; intros w.
  - exists (inr tt), (files w), []. rewrite app_nil_r. destruct w. simpl. repeat split; done.
  - destruct item as [b | e].
    + cbn [write_chunks forallb is_chunk andb]. unfold bind.
      destruct b as [|b0 b].
      * unfold ret. apply IH.
      * unfold tmp_write.
        set (w1 := log _ _).
        destruct (IH w1) as (r & fs' & evs & -> & Hdel & Hin & Hevs & Hr).
        exists r, fs', (EvTmpWrite name (b0 :: b) :: evs).
        subst w1. simpl in *. rewrite <- app_assoc. split; [done|].
        split; [by rewrite Hdel, delete_insert_eq|].
        split; [intros _; apply Hin; rewrite lookup_insert_eq; eauto|].
        split; [constructor; eauto|done].
    + exists (inl e), (files w), []. rewrite app_nil_r. destruct w. simpl.
      repeat split; try done. eauto.
Qed.

(** The cleanup of the [finally] block: one [unlink], whose failure is
    swallowed. *)
Lemma cleanup_run env path w :
  try_except_pass (unlink env path) w =
    Some (inr tt,
          {| files := match unlink_error env (files w) path with
                      | Some _ => files w
                      | None => delete path (files w)
                      end;
             trace := trace w ++ [EvUnlink path (unlink_error env (files w) path)] |}).
Proof.
  unfold try_except_pass, unlink. by destruct (unlink_error env (files w) path).
Qed.

(** The [try] block: the page count, then the shared statements. *)
Lemma try_block_run env path ah ch ao co w :
  exists r mid,
    (pdf_numpgs <- PdfReader_numpgs env path ;;
     extract_pages env path pdf_numpgs ah ch ao co) w = Some (r, extend w mid) /\
    ((exists e, mid = [EvPdfReader path (inl e)] /\ r = inl e) \/
     (exists k evs, mid = EvPdfReader path (inr k) :: evs /\
                    pages_run path (Z.of_nat k) ah ch ao co r evs)).
Proof.
  unfold bind at 1. unfold PdfReader_numpgs, bind, call, ret.
  destruct (PdfReader_pages env (files w) path) as [e | k].
  - eexists _, _. rewrite log_extend. split; [reflexivity|]. left. eauto.
  - destruct (extract_pages_run env path (Z.of_nat k) ah ch ao co
                (log (EvPdfReader path (inr k)) w)) as (r & evs & -> & Hrun).
    exists r, (EvPdfReader path (inr k) :: evs). rewrite log_extend, extend_extend.
    split; [reflexivity|]. right. eauto.
Qed.

(** The runs of [extract_injrepurl]: the retrieval fails; or the name of
    the temporary file is taken; or the download breaks and leaves the
    temporary file behind; or the body is on disk, the [try] block runs and
    [unlink] is called once, after everything else. *)
Lemma extract_injrepurl_run env filepath ah ch ao co kw fs :
  exists r w' reqs,
    extract_injrepurl env filepath ah ch ao co kw (start fs) = Some (r, w') /\
    Forall (fun ev => is_request ev = true) reqs /\
    ((exists cause, r = inl (URLRetrievalError filepath (RequestException cause)) /\
                    w' = {| files := fs; trace := reqs |}) \/
     (r = inl FileExistsError /\ w' = {| files := fs; trace := reqs |}) \/
     (exists resp p writes,
        (exists req k, transport env req k = Responds resp) /\
        fs !! p = None /\
        Forall (fun ev => exists b, ev = EvTmpWrite p b) writes /\
        ((stream_complete resp = false /\ (exists e, r = inl e) /\
          trace w' = reqs ++ EvTmpCreate p :: writes /\
          is_Some (files w' !! p)) \/
         (stream_complete resp = true /\
          exists mid fs1,
            trace w' = reqs ++ EvTmpCreate p :: writes ++ mid
                         ++ [EvUnlink p (unlink_error env fs1 p)] /\
            is_Some (fs1 !! p) /\
            files w' = match unlink_error env fs1 p with
                       | Some _ => fs1
                       | None => fs
                       end /\
            ((exists e, mid = [EvPdfReader p (inl e)] /\ r = inl e) \/
             (exists k evs, mid = EvPdfReader p (inr k) :: evs /\
                            pages_run p (Z.of_nat k) ah ch ao co r evs)))))).
Proof.
  unfold extract_injrepurl. unfold bind at 1.
  destruct (validate_injrepurl_run env filepath kw (start fs))
    as (r0 & reqs & -> & Hreqs & Hr0).
  assert (Forall (fun ev => is_request ev = true) reqs) as Hreqs'.
  { eapply Forall_impl; [exact Hreqs|]. by intros ev (req & k & ->). }
  destruct r0 as [e | resp].
  { destruct Hr0 as [cause ->]. eexists _, _, reqs. split; [reflexivity|].
    split; [done|]. left. eauto. }
  destruct Hr0 as [(evs0 & req & k & _ & Hk) _].
  unfold bind at 1. unfold NamedTemporaryFile. cbn [files extend start trace app].
  set (p := mkstemp env fs).
  destruct (fs !! p) eqn:Hfresh.
  { eexists _, _, reqs. split; [reflexivity|]. split; [done|]. right. left. done. }
  unfold bind at 1. rewrite log_extend.
  destruct (write_chunks_run p (iter_content resp)
              (extend {| files := <[p:=[]]> fs; trace := reqs |} [EvTmpCreate p]))
    as (rw & fs1 & writes & -> & Hdel & Hin & Hwrites & Hrw).
  cbn [files extend trace] in *. rewrite delete_insert_eq in Hdel.
  assert (delete p fs1 = fs) as Hfs by (rewrite Hdel; by apply delete_id).
  assert (is_Some (fs1 !! p)) as Hp by (apply Hin; rewrite lookup_insert_eq; eauto).
  fold (stream_complete resp) in Hrw.
  destruct (stream_complete resp) eqn:Hstream.
  - subst rw. unfold try_finally.
    destruct (try_block_run env p ah ch ao co
                {| files := fs1; trace := (reqs ++ [EvTmpCreate p]) ++ writes |})
      as (r & mid & -> & Hmid).
    rewrite cleanup_run. cbn [files extend trace].
    eexists r, _, reqs. split; [reflexivity|]. split; [done|]. right. right.
    exists resp, p, writes. split; [eauto|]. split; [done|]. split; [done|]. right.
    split; [done|]. exists mid, fs1. cbn [files trace].
    split; [by rewrite <- !app_assoc|]. split; [done|]. split; [|done].
    by rewrite Hfs.
  - destruct Hrw as [e ->].
    eexists (inl e), _, reqs. split; [reflexivity|]. split; [done|]. right. right.
    exists resp, p, writes. split; [eauto|]. split; [done|]. split; [done|]. left.
    cbn [files trace]. split; [done|]. split; [eauto|]. split; [|done].
    by rewrite <- app_assoc.
Qed.

(** ** Helper lemmas: traces *)

Lemma read_pdf_calls_app a b :
  read_pdf_calls (a ++ b) = read_pdf_calls a ++ read_pdf_calls b.
Proof.
  induction a as [|ev a IH]; [done|]. destruct ev; simpl; by rewrite ?IH.
Qed.

Lemma read_pdf_calls_none t :
  Forall (fun ev => is_extraction ev = false) t -> read_pdf_calls t = [].
Proof.
  induction 1 as [|ev t Hev _ IH]; [done|]. by destruct ev.
Qed.

Lemma continuation_calls_app a b :
  continuation_calls (a ++ b) = continuation_calls a ++ continuation_calls b.
Proof. unfold continuation_calls. by rewrite read_pdf_calls_app, List.filter_app. Qed.

Lemma continuation_calls_none t :
  Forall (fun ev => is_extraction ev = false) t -> continuation_calls t = [].
Proof. intros Ht. unfold continuation_calls. by rewrite read_pdf_calls_none. Qed.

Lemma page_count_app a b :
  page_count (a ++ b) =
    match page_count a with
    | Some n => Some n
    | None => page_count b
    end.
Proof.
  induction a as [|ev a IH]; [done|].
  destruct ev as [| | |? [|]|? [|]| | | | |]; simpl; by rewrite ?IH.
Qed.

Lemma page_count_requests t :
  Forall (fun ev => is_request ev = true) t -> page_count t = None.
Proof. induction 1 as [|ev t Hev _ IH]; [done|]. by destruct ev. Qed.

Lemma page_count_writes p t :
  Forall (fun ev => exists b, ev = EvTmpWrite p b) t -> page_count t = None.
Proof. induction 1 as [|ev t [b ->] _ IH]; [done|]. done. Qed.

Lemma requests_not_extraction t :
  Forall (fun ev => is_request ev = true) t ->
  Forall (fun ev => is_extraction ev = false) t.
Proof. intros Ht. eapply Forall_impl; [exact Ht|]. by intros []. Qed.

Lemma writes_not_extraction p t :
  Forall (fun ev => exists b, ev = EvTmpWrite p b) t ->
  Forall (fun ev => is_extraction ev = false) t.
Proof. intros Ht. eapply Forall_impl; [exact Ht|]. by intros ev [b ->]. Qed.

(** An extraction call in a trace [pre ++ mid ++ post] whose ends hold no
    such call sits in [mid]. *)
Lemma in_middle ev pre mid post :
  Forall (fun ev => is_extraction ev = false) pre ->
  Forall (fun ev => is_extraction ev = false) post ->
  is_extraction ev = true ->
  In ev (pre ++ mid ++ post) -> In ev mid.
Proof.
  intros Hpre Hpost Hev Hin.
  apply in_app_or in Hin as [Hin | Hin].
  - rewrite Forall_forall in Hpre. apply list_elem_of_In, Hpre in Hin. congruence.
  - apply in_app_or in Hin as [Hin | Hin]; [done|].
    rewrite Forall_forall in Hpost. apply list_elem_of_In, Hpost in Hin. congruence.
Qed.

Lemma split_middle ev pre : forall mid post p1 p2,
  Forall (fun ev => is_extraction ev = false) pre ->
  Forall (fun ev => is_extraction ev = false) post ->
  is_extraction ev = true ->
  pre ++ mid ++ post = p1 ++ ev :: p2 ->
  exists m1 m2, mid = m1 ++ ev :: m2 /\ p1 = pre ++ m1.
Proof.
  induction pre as [|x pre IH]; intros mid post p1 p2 Hpre Hpost Hev Heq.
  - clear Hpre. revert p1 Heq.
    induction mid as [|y mid IHmid]; intros p1 Heq; simpl in Heq.
    + exfalso. rewrite Forall_forall in Hpost.
      assert (ev ∈ post) as Hin by (rewrite Heq; set_solver).
      apply Hpost in Hin. congruence.
    + destruct p1 as [|z p1]; simpl in Heq.
      * injection Heq as -> Heq. by exists [], mid.
      * injection Heq as -> Heq. destruct (IHmid p1 Heq) as (m1 & m2 & -> & ->).
        by exists (z :: m1), m2.
  - apply Forall_cons in Hpre as [Hx Hpre].
    destruct p1 as [|z p1]; simpl in Heq.
    + injection Heq as -> Heq. congruence.
    + injection Heq as -> Heq.
      destruct (IH mid post p1 p2 Hpre Hpost Hev Heq) as (m1 & m2 & -> & ->).
      by exists m1, m2.
Qed.

(** The trace of either entry operation: a run of the shared statements,
    if it comes to that, between calls that are no extraction calls, the
    page count being known before the run starts. *)
Lemma run_entry_trace env op filepath ah ch ao co fs :
  exists r w',
    run_entry env op filepath ah ch ao co (start fs) = Some (r, w') /\
    exists pre mid post,
      trace w' = pre ++ mid ++ post /\
      Forall (fun ev => is_extraction ev = false) pre /\
      Forall (fun ev => is_extraction ev = false) post /\
      (mid = [] \/
       exists path n, page_count pre = Some n /\ pages_run path n ah ch ao co r mid).
Proof.
  destruct op as [kw|]; simpl.
  - destruct (extract_injrepurl_run env filepath ah ch ao co kw fs)
      as (r & w' & reqs & -> & Hreqs & Hcases).
    exists r, w'. split; [done|].
    pose proof (requests_not_extraction _ Hreqs) as Hreqs'.
    destruct Hcases as [(cause & -> & ->) | [(-> & ->) |
      (resp & p & writes & _ & _ & Hwrites & Hcases)]].
    + exists reqs, [], []. rewrite !app_nil_r. repeat split; try done; auto.
    + exists reqs, [], []. rewrite !app_nil_r. repeat split; try done; auto.
    + pose proof (writes_not_extraction _ _ Hwrites) as Hwrites'.
      destruct Hcases as [(_ & _ & -> & _) | (_ & mid & fs1 & -> & _ & _ & Hmid)].
      * exists (reqs ++ EvTmpCreate p :: writes), [], []. rewrite !app_nil_r.
        split; [done|]. split; [|split; [done|by left]].
        apply Forall_app. split; [done|]. by constructor.
      * destruct Hmid as [(e & -> & ->) | (k & evs & -> & Hrun)].
        -- exists (reqs ++ EvTmpCreate p :: writes ++
                     [EvPdfReader p (inl e); EvUnlink p (unlink_error env fs1 p)]), [], [].
           rewrite !app_nil_r. split; [done|]. split; [|split; [done|by left]].
           apply Forall_app. split; [done|]. constructor; [done|].
           apply Forall_app. split; [done|]. by repeat constructor.
        -- exists (reqs ++ EvTmpCreate p :: writes ++ [EvPdfReader p (inr k)]), evs,
             [EvUnlink p (unlink_error env fs1 p)].
           split; [by rewrite <- !app_assoc; simpl; rewrite <- !app_assoc|].
           split.
           { apply Forall_app. split; [done|]. constructor; [done|].
             apply Forall_app. split; [done|]. by repeat constructor. }
           split; [by repeat constructor|]. right. exists p, (Z.of_nat k).
           split; [|done].
           rewrite page_count_app, (page_count_requests _ Hreqs). simpl.
           by rewrite page_count_app, (page_count_writes _ _ Hwrites).
  - destruct (extract_injreplocal_run env filepath ah ch ao co fs)
      as (r & t & -> & Hcases).
    eexists r, _. split; [reflexivity|]. simpl.
    destruct Hcases as [(e & -> & _ & ->) | (n & evs & -> & _ & Hrun)].
    + exists [EvPagect filepath (inl e)], [], [].
      split; [done|]. split; [by repeat constructor|]. split; [done|by left].
    + exists [EvPagect filepath (inr n)], evs, []. rewrite app_nil_r.
      split; [done|]. split; [by repeat constructor|]. split; [done|].
      right. by exists filepath, n.
Qed.

(** ** Helper lemmas: what the runs of the shared statements have in common *)

Lemma pages_run_read_pdf path n ah ch ao co r mid c ans :
  pages_run path n ah ch ao co r mid ->
  In (EvReadPdf c ans) mid ->
  c = headpg_args path ah ch \/
  (2 <= n /\ c = otherpgs_args path (if_None_then ao ah) (if_None_then co ch) n).
Proof.
  intros Hrun Hin. inv_run Hrun; in_cases Hin; injection Hin as <- _; auto.
Qed.

Lemma pages_run_order path n ah ch ao co r m1 c ans m2 :
  pages_run path n ah ch ao co r (m1 ++ EvReadPdf c ans :: m2) ->
  continuation_call c = true ->
  exists df rest,
    In (EvReadPdf (headpg_args path ah ch) (inr (df :: rest))) m1 /\
    In (EvValidateHeaders df (inr tt)) m1.
Proof.
  intros Hrun Hc.
  remember (m1 ++ EvReadPdf c ans :: m2) as mid eqn:Heq.
  destruct Hrun as [e | | df rest e | df rest r tl Hn Hfin | df rest e Hn
                    | df rest others r tl Hn Hfin];
    try destruct Hfin;
    destruct m1 as [|e1 [|e2 [|e3 [|e4 [|e5 m1]]]]]; simplify_eq/=;
    try (eexists _, _; split; eauto; fail);
    by destruct m1.
Qed.

Lemma pages_run_invalid path n ah ch ao co r mid df e :
  pages_run path n ah ch ao co r mid ->
  In (EvValidateHeaders df (inl e)) mid ->
  r = inl e /\ continuation_calls mid = [].
Proof.
  intros Hrun Hin. inv_run Hrun; in_cases Hin. by injection Hin as _ <-.
Qed.

Lemma pages_run_no_files path n ah ch ao co r mid :
  pages_run path n ah ch ao co r mid ->
  Forall (fun ev => touches_files ev = false) mid.
Proof. intros Hrun. inv_run Hrun; by repeat constructor. Qed.

Lemma pages_run_calls path n ah ch ao co r mid :
  pages_run path n ah ch ao co r mid ->
  read_pdf_calls mid = [headpg_args path ah ch] \/
  (2 <= n /\
   read_pdf_calls mid =
     [headpg_args path ah ch;
      otherpgs_args path (if_None_then ao ah) (if_None_then co ch) n]).
Proof. intros Hrun. inv_run Hrun; auto. Qed.

(** ** Helper lemmas: the runs of [extract_injrepurl], in full *)

(** The download loop, exactly. *)
Lemma write_chunks_exact name items : forall w old,
  files w !! name = Some old ->
  write_chunks name items w =
    Some (match stream_failure items with
          | Some e => inl e
          | None => inr tt
          end,
          {| files := <[name := old ++ received items]> (files w);
             trace := trace w ++ writes_of name items |}).
Proof.
  induction items as [|[b | e] items IH]; intros w old Hold.
  - simpl. rewrite !app_nil_r, insert_id by done. by destruct w.
  - cbn [write_chunks stream_failure received]. unfold bind.
    destruct b as [|b0 b].
    + unfold ret. by rewrite (IH w old Hold).
    + unfold tmp_write. rewrite Hold. simpl default.
      rewrite (IH _ (old ++ b0 :: b)) by (simpl; by rewrite lookup_insert_eq).
      simpl. by rewrite insert_insert_eq, <- !app_assoc.
  - simpl. rewrite !app_nil_r, insert_id by done. by destruct w.
Qed.

Lemma writes_of_writes name items :
  Forall (fun ev => exists b, ev = EvTmpWrite name b) (writes_of name items).
Proof.
  induction items as [|[[|b0 b] | e] items IH]; simpl; try done.
  constructor; eauto.
Qed.

Lemma extract_injrepurl_full env filepath ah ch ao co kw fs :
  exists r0 reqs,
    validate_injrepurl env filepath kw (start fs) =
      Some (r0, {| files := fs; trace := reqs |}) /\
    Forall (fun ev => is_request ev = true) reqs /\
    match r0 with
    | inl e =>
        extract_injrepurl env filepath ah ch ao co kw (start fs) =
          Some (inl e, {| files := fs; trace := reqs |})
    | inr resp =>
        let p := mkstemp env fs in
        match fs !! p with
        | Some _ =>
            extract_injrepurl env filepath ah ch ao co kw (start fs) =
              Some (inl FileExistsError, {| files := fs; trace := reqs |})
        | None =>
            let fs1 := <[p := received (iter_content resp)]> fs in
            let t1 := reqs ++ EvTmpCreate p :: writes_of p (iter_content resp) in
            match stream_failure (iter_content resp) with
            | Some e =>
                extract_injrepurl env filepath ah ch ao co kw (start fs) =
                  Some (inl e, {| files := fs1; trace := t1 |})
            | None =>
                exists r mid,
                  extract_injrepurl env filepath ah ch ao co kw (start fs) =
                    Some (r, {| files := match unlink_error env fs1 p with
                                         | Some _ => fs1
                                         | None => fs
                                         end;
                                trace := t1 ++ mid ++ [EvUnlink p (unlink_error env fs1 p)] |}) /\
                  ((exists e, mid = [EvPdfReader p (inl e)] /\ r = inl e) \/
                   (exists k evs, mid = EvPdfReader p (inr k) :: evs /\
                                  pages_run p (Z.of_nat k) ah ch ao co r evs))
            end
        end
    end.
Proof.
  destruct (validate_injrepurl_run env filepath kw (start fs))
    as (r0 & reqs & Hval & Hreqs & _).
  exists r0, reqs. split; [exact Hval|].
  split; [eapply Forall_impl; [exact Hreqs|]; by intros ev (req & k & ->)|].
  assert (extract_injrepurl env filepath ah ch ao co kw (start fs) =
            match r0 with
            | inl e => Some (inl e, {| files := fs; trace := reqs |})
            | inr resp =>
                (tmp_path <- NamedTemporaryFile env ;;
                 write_chunks tmp_path (iter_content resp) ;;;
                 try_finally
                   (pdf_numpgs <- PdfReader_numpgs env tmp_path ;;
                    extract_pages env tmp_path pdf_numpgs ah ch ao co)
                   (try_except_pass (unlink env tmp_path)))
                  {| files := fs; trace := reqs |}
            end) as Hext.
  { unfold extract_injrepurl. unfold bind at 1. rewrite Hval. by destruct r0. }
  destruct r0 as [e | resp]; [done|]. cbv zeta.
  unfold bind at 1 in Hext. unfold NamedTemporaryFile in Hext. cbn [files trace] in Hext.
  set (p := mkstemp env fs) in *.
  destruct (fs !! p) eqn:Hfresh; [done|].
  unfold bind at 1 in Hext.
  rewrite (write_chunks_exact p (iter_content resp) _ []) in Hext
    by (simpl; by rewrite lookup_insert_eq).
  cbn [files trace log app] in Hext. rewrite insert_insert_eq, <- app_assoc in Hext.
  cbn [app] in Hext.
  destruct (stream_failure (iter_content resp)) as [e|]; [done|].
  unfold try_finally in Hext.
  match type of Hext with
  | _ = match _ ?w with _ => _ end =>
      destruct (try_block_run env p ah ch ao co w) as (r & mid & Hblock & Hmid)
  end.
  rewrite Hblock, cleanup_run in Hext. cbn [files extend trace] in Hext.
  exists r, mid. split; [|done]. rewrite Hext.
  rewrite delete_insert_eq, delete_id by done. by rewrite <- !app_assoc.
Qed.

(** A run of [extract_injrepurl] whose download succeeds is the run of its
    [try] block followed by the [unlink]. *)
Lemma extract_injrepurl_block env filepath ah ch ao co kw fs resp reqs r mid :
  validate_injrepurl env filepath kw (start fs) =
    Some (inr resp, {| files := fs; trace := reqs |}) ->
  fs !! mkstemp env fs = None ->
  stream_failure (iter_content resp) = None ->
  (pdf_numpgs <- PdfReader_numpgs env (mkstemp env fs) ;;
   extract_pages env (mkstemp env fs) pdf_numpgs ah ch ao co)
    {| files := <[mkstemp env fs := received (iter_content resp)]> fs;
       trace := reqs ++ EvTmpCreate (mkstemp env fs)
                  :: writes_of (mkstemp env fs) (iter_content resp) |} =
    Some (r, {| files := <[mkstemp env fs := received (iter_content resp)]> fs;
                trace := (reqs ++ EvTmpCreate (mkstemp env fs)
                            :: writes_of (mkstemp env fs) (iter_content resp)) ++ mid |}) ->
  extract_injrepurl env filepath ah ch ao co kw (start fs) =
    Some (r,
          {| files :=
               match unlink_error env (<[mkstemp env fs := received (iter_content resp)]> fs)
                       (mkstemp env fs) with
               | Some _ => <[mkstemp env fs := received (iter_content resp)]> fs
               | None => fs
               end;
             trace :=
               (reqs ++ EvTmpCreate (mkstemp env fs)
                  :: writes_of (mkstemp env fs) (iter_content resp)) ++ mid ++
               [EvUnlink (mkstemp env fs)
                  (unlink_error env (<[mkstemp env fs := received (iter_content resp)]> fs)
                     (mkstemp env fs))] |}).
Proof.
  intros Hval Hfresh Hstream Hblock.
  unfold extract_injrepurl. unfold bind at 1. rewrite Hval.
  unfold bind at 1. unfold NamedTemporaryFile. cbn [files trace]. rewrite Hfresh.
  unfold bind at 1.
  rewrite (write_chunks_exact (mkstemp env fs) (iter_content resp) _ [])
    by (simpl; by rewrite lookup_insert_eq).
  rewrite Hstream. cbn [files trace log app].
  rewrite insert_insert_eq, <- app_assoc. cbn [app].
  unfold try_finally.
  match goal with
  | |- match ?b with Some _ => _ | None => _ end = _ =>
      match type of Hblock with
      | _ = ?rhs => replace b with rhs by (symmetry; exact Hblock)
      end
  end.
  rewrite cleanup_run. cbn [files trace].
  by rewrite delete_insert_eq, delete_id, <- !app_assoc by done.
Qed.

(** ** Helper lemmas: a document the environment presents *)

Lemma pipeline_not_extraction t :
  Forall (fun ev => is_pipeline ev = false) t ->
  Forall (fun ev => is_extraction ev = false) t.
Proof. intros Ht. eapply Forall_impl; [exact Ht|]. by intros []. Qed.

Lemma finish_exact env dfs_headpg dfs_otherpgs w :
  (df_rawdata <- concat_injreppgs env dfs_headpg dfs_otherpgs ;;
   clean_injrep env df_rawdata) w =
    Some (match __concat_injreppgs env dfs_headpg dfs_otherpgs with
          | inl e => (inl e, extend w [EvConcat dfs_headpg dfs_otherpgs (inl e)])
          | inr df_rawdata =>
              (__clean_injrep env df_rawdata,
               extend w [EvConcat dfs_headpg dfs_otherpgs (inr df_rawdata);
                         EvClean df_rawdata (__clean_injrep env df_rawdata)])
          end).
Proof.
  unfold bind, concat_injreppgs, clean_injrep, call.
  destruct (__concat_injreppgs env dfs_headpg dfs_otherpgs) as [e | raw]; [done|].
  by rewrite !log_extend, extend_extend.
Qed.

(** The shared statements on a document whose header page is read and
    validated. *)
Lemma extract_pages_valid env path n ah ch ao co w df rest :
  read_pdf env (files w) (headpg_args path ah ch) = inr (df :: rest) ->
  _validate_headers env df = inr tt ->
  let c := otherpgs_args path (if_None_then ao ah) (if_None_then co ch) n in
  let head := [EvReadPdf (headpg_args path ah ch) (inr (df :: rest));
               EvValidateHeaders df (inr tt)] in
  extract_pages env path n ah ch ao co w =
    if 2 <=? n
    then match read_pdf env (files w) c with
         | inl e => Some (inl e, extend w (head ++ [EvReadPdf c (inl e)]))
         | inr dfs_otherpgs =>
             (df_rawdata <- concat_injreppgs env (df :: rest) dfs_otherpgs ;;
              clean_injrep env df_rawdata)
               (extend w (head ++ [EvReadPdf c (inr dfs_otherpgs)]))
         end
    else (df_rawdata <- concat_injreppgs env (df :: rest) [] ;;
          clean_injrep env df_rawdata) (extend w head).
Proof.
  intros Hhead Hvalid c head. subst c head.
  unfold extract_pages. unfold bind at 1. unfold tabula_read_pdf at 1. unfold call at 1.
  rewrite Hhead. unfold bind at 1. unfold index0, ret. unfold bind at 1.
  unfold validate_headers, call. rewrite Hvalid.
  unfold bind at 1. destruct (2 <=? n).
  - unfold tabula_read_pdf, call. simpl files.
    destruct (read_pdf env (files w) (otherpgs_args _ _ _ _)) as [e | others].
    + by rewrite !log_extend, !extend_extend.
    + by rewrite !log_extend, !extend_extend.
  - unfold ret. by rewrite !log_extend, !extend_extend.
Qed.

(** Where the shared statements run for a document the environment
    presents: after the page count, on the files that hold the document,
    and before the cleanup, if there is one. *)
Lemma run_entry_document env op filepath ah ch ao co fs path fs1 n :
  document env op filepath fs path fs1 n ->
  exists pre post,
    page_count pre = Some n /\
    Forall (fun ev => is_pipeline ev = false) pre /\
    Forall (fun ev => is_pipeline ev = false) post /\
    forall r mid,
      extract_pages env path n ah ch ao co {| files := fs1; trace := pre |} =
        Some (r, {| files := fs1; trace := pre ++ mid |}) ->
      exists fs',
        run_entry env op filepath ah ch ao co (start fs) =
          Some (r, {| files := fs'; trace := pre ++ mid ++ post |}).
Proof.
  destruct op as [kw|]; simpl.
  - intros (resp & w0 & k & Hval & Hstream & Hfresh & -> & -> & Hcount & ->).
    destruct (validate_injrepurl_run env filepath kw (start fs))
      as (r0 & reqs & Hval' & Hreqs & _).
    rewrite Hval in Hval'. injection Hval' as <- ->.
    change (extend (start fs) reqs) with {| files := fs; trace := reqs |} in Hval.
    assert (Forall (fun ev => is_request ev = true) reqs) as Hreqs'.
    { eapply Forall_impl; [exact Hreqs|]. by intros ev (req & j & ->). }
    set (p := mkstemp env fs) in *.
    set (fs1 := <[p := received (iter_content resp)]> fs) in *.
    exists ((reqs ++ EvTmpCreate p :: writes_of p (iter_content resp))
              ++ [EvPdfReader p (inr k)]), [EvUnlink p (unlink_error env fs1 p)].
    split; [|split; [|split; [by repeat constructor|]]].
    + rewrite <- app_assoc, page_count_app, (page_count_requests _ Hreqs'). simpl.
      by rewrite page_count_app, (page_count_writes _ _ (writes_of_writes _ _)).
    + apply Forall_app. split; [|by repeat constructor].
      apply Forall_app. split.
      * eapply Forall_impl; [exact Hreqs'|]. by intros [].
      * constructor; [done|].
        eapply Forall_impl; [apply writes_of_writes|]. by intros ev [b ->].
    + intros r mid Hpages. eexists.
      rewrite (extract_injrepurl_block env filepath ah ch ao co kw fs resp reqs r
                 (EvPdfReader p (inr k) :: mid) Hval Hfresh Hstream).
      * f_equal. f_equal. f_equal. by rewrite <- !app_assoc.
      * unfold bind at 1. unfold PdfReader_numpgs, bind, call, ret. cbn [files trace].
        fold p. fold fs1. rewrite Hcount. unfold log. cbn [files trace].
        rewrite Hpages. f_equal. f_equal. f_equal. by rewrite <- !app_assoc.
  - intros (-> & -> & Hcount).
    exists [EvPagect filepath (inr n)], []. split; [done|].
    split; [by repeat constructor|]. split; [done|].
    intros r mid Hpages. exists fs.
    unfold extract_injreplocal. unfold bind at 1. unfold try_except, pagect_localpdf, call.
    simpl files. rewrite Hcount. unfold log, start. cbn [files trace app].
    rewrite Hpages. by rewrite app_nil_r.
Qed.

(** ** Helper lemmas: the retry policy at work *)

Lemma retrying_retries : retrying retries 5.
Proof. split; [apply total_only_retries|]. by repeat split. Qed.






(** The first hop of a session. *)
Lemma session_run_hop env n k req r evs adapter :
  session_run env n k req r evs ->
  requests.get_adapter session (req_url req) = Some adapter ->
  exists res evs1 evs2,
    evs = evs1 ++ evs2 /\
    urlopen_run (transport env) req (requests.max_retries adapter) k res evs1 /\
    match requests.send_outcome res with
    | inl e => r = inl e /\ evs2 = []
    | inr resp =>
        if followed resp
        then match requests.content_error resp with
             | Some kind => r = inl (RequestException kind) /\ evs2 = []
             | None =>
                 (n = 0%nat /\ r = inl (RequestException TooManyRedirects) /\ evs2 = []) \/
                 (exists n' url,
                     n = S n' /\ requests.get_redirect_target resp = Some url /\
                     session_run env n' (k + length evs1)
                       (requests.redirect_request (redirect_url env) (redirect_headers env)
                          req resp url) r evs2)
             end
        else r = inr resp /\ evs2 = []
    end.
Proof.
  intros Hrun Hget.
  destruct Hrun as [n k req Hnone
                   | n k req adapter' res evs e Hget' Hrun Hout
                   | n k req adapter' res evs resp Hget' Hrun Hout Hfinal
                   | n k req adapter' res evs resp kind Hget' Hrun Hout Hfollowed Hbody
                   | k req adapter' res evs resp Hget' Hrun Hout Hfollowed Hbody
                   | n k req adapter' res evs resp url r evs' Hget' Hrun Hout Hfollowed Hbody
                       Ht Hnext];
    [congruence | | | | |];
    rewrite Hget in Hget'; injection Hget' as <-.
  - exists res, evs, []. rewrite app_nil_r, Hout. done.
  - exists res, evs, []. rewrite app_nil_r, Hout, Hfinal. done.
  - exists res, evs, []. rewrite app_nil_r, Hout, Hfollowed, Hbody. done.
  - exists res, evs, []. rewrite app_nil_r, Hout, Hfollowed, Hbody.
    split; [done|]. split; [done|]. by left.
  - exists res, evs, evs'. rewrite Hout, Hfollowed, Hbody. split; [done|]. split; [done|].
    right. eauto.
Qed.

Lemma session_run_no_adapter env n k req r evs :
  session_run env n k req r evs ->
  requests.get_adapter session (req_url req) = None ->
  evs = [] /\ r = inl (RequestException InvalidSchema).
Proof. intros Hrun Hget. destruct Hrun; [done | congruence ..]. Qed.

Lemma urlopen_run_inv tr req r k res evs :
  urlopen_run tr req r k res evs ->
  (after_attempt r (req_method req) (tr req k) = inl res /\
   evs = [EvRequest req k (tr req k)]) \/
  (exists r' evs',
      after_attempt r (req_method req) (tr req k) = inr r' /\
      urlopen_run tr req r' (S k) res evs' /\
      evs = EvRequest req k (tr req k) :: evs').
Proof. destruct 1; eauto 10. Qed.

(** ** Helper lemmas: where a call sits in a trace *)

(** An event in a trace [pre ++ mid ++ post] that is of a kind the ends do
    not hold sits in [mid]. *)
Lemma split_in_middle (kind : event -> bool) ev pre : forall mid post p1 p2,
  Forall (fun ev => kind ev = false) pre ->
  Forall (fun ev => kind ev = false) post ->
  kind ev = true ->
  pre ++ mid ++ post = p1 ++ ev :: p2 ->
  exists m1 m2, mid = m1 ++ ev :: m2 /\ p1 = pre ++ m1 /\ p2 = m2 ++ post.
Proof.
  induction pre as [|x pre IH]; intros mid post p1 p2 Hpre Hpost Hev Heq.
  - clear Hpre. revert p1 Heq.
    induction mid as [|y mid IHmid]; intros p1 Heq; simpl in Heq.
    + exfalso. rewrite Forall_forall in Hpost.
      assert (ev ∈ post) as Hin by (rewrite Heq; set_solver).
      apply Hpost in Hin. congruence.
    + destruct p1 as [|z p1]; simpl in Heq.
      * injection Heq as -> Heq. by exists [], mid.
      * injection Heq as -> Heq. destruct (IHmid p1 Heq) as (m1 & m2 & -> & -> & ->).
        by exists (z :: m1), m2.
  - apply Forall_cons in Hpre as [Hx Hpre].
    destruct p1 as [|z p1]; simpl in Heq.
    + injection Heq as -> Heq. congruence.
    + injection Heq as -> Heq.
      destruct (IH mid post p1 p2 Hpre Hpost Hev Heq) as (m1 & m2 & -> & -> & ->).
      by exists m1, m2.
Qed.

(** In a run of the shared statements the concatenation comes after the
    header page has been read and validated, and after the continuation
    pages have been read, if they are. *)
Lemma pages_run_concat_order path n ah ch ao co r m1 hs os a m2 :
  pages_run path n ah ch ao co r (m1 ++ EvConcat hs os a :: m2) ->
  exists df rest,
    hs = df :: rest /\
    In (EvReadPdf (headpg_args path ah ch) (inr hs)) m1 /\
    In (EvValidateHeaders df (inr tt)) m1 /\
    ((os = [] /\ continuation_calls (m1 ++ EvConcat hs os a :: m2) = []) \/
     In (EvReadPdf (otherpgs_args path (if_None_then ao ah) (if_None_then co ch) n)
           (inr os)) m1).
Proof.
  intros Hrun.
  remember (m1 ++ EvConcat hs os a :: m2) as mid eqn:Heq.
  destruct Hrun as [e | | df rest e | df rest r tl Hn Hfin | df rest e Hn
                    | df rest others r tl Hn Hfin];
    try destruct Hfin;
    destruct m1 as [|e1 [|e2 [|e3 [|e4 [|e5 m1]]]]]; simplify_eq/=;
    try (eexists _, _; split; [reflexivity|]; split; [eauto|]; split; [eauto|];
         (by left) || (right; eauto 10); fail);
    by destruct m1.
Qed.

(** The [try] block of [extract_injrepurl], with the answers of the
    readers: they are those for the files the block runs on. *)
Lemma try_block_answers env path ah ch ao co w :
  exists r mid,
    (pdf_numpgs <- PdfReader_numpgs env path ;;
     extract_pages env path pdf_numpgs ah ch ao co) w = Some (r, extend w mid) /\
    ((exists e, mid = [EvPdfReader path (inl e)] /\ r = inl e) \/
     (exists k evs, mid = EvPdfReader path (inr k) :: evs /\
                    pages_run path (Z.of_nat k) ah ch ao co r evs)) /\
    Forall (answered_on env (files w)) mid.
Proof.
  unfold bind at 1. unfold PdfReader_numpgs, bind, call, ret.
  destruct (PdfReader_pages env (files w) path) as [e | k] eqn:Hcount.
  { eexists _, _. rewrite log_extend. split; [reflexivity|]. split; [left; eauto|].
    by repeat constructor. }
  assert (exists r evs,
             extract_pages env path (Z.of_nat k) ah ch ao co
               (log (EvPdfReader path (inr k)) w) =
               Some (r, extend (log (EvPdfReader path (inr k)) w) evs) /\
             pages_run path (Z.of_nat k) ah ch ao co r evs /\
             Forall (answered_on env (files w)) evs) as (r & evs & -> & Hrun & Hans).
  { set (w1 := log (EvPdfReader path (inr k)) w).
    change (files w) with (files w1). clearbody w1. clear Hcount.
    unfold extract_pages. unfold bind at 1. unfold tabula_read_pdf at 1. unfold call at 1.
    destruct (read_pdf env (files w1) (headpg_args path ah ch)) as [e | [|df rest]] eqn:Hhead.
    - eexists _, _. rewrite log_extend. split; [reflexivity|]. split; [constructor|].
      by repeat constructor.
    - unfold bind, index0, raise. eexists _, _. rewrite log_extend.
      split; [reflexivity|]. split; [constructor|]. by repeat constructor.
    - unfold bind at 1. unfold index0, ret. unfold bind at 1.
      unfold validate_headers, call.
      destruct (_validate_headers env df) as [e | []] eqn:Hval.
      + eexists _, _. rewrite !log_extend, extend_extend. split; [reflexivity|].
        split; [constructor|]. by repeat constructor.
      + unfold bind at 1. destruct (Z.leb_spec 2 (Z.of_nat k)) as [Hn | Hn].
        * unfold tabula_read_pdf, call. simpl files.
          destruct (read_pdf env (files w1) (otherpgs_args _ _ _ _)) as [e | others] eqn:Hoth.
          -- eexists _, _. rewrite !log_extend, !extend_extend. split; [reflexivity|].
             split; [by constructor|]. by repeat constructor.
          -- rewrite !log_extend, !extend_extend. simpl app.
             destruct (finish_run_sound env (df :: rest) others
                         (extend w1 [EvReadPdf (headpg_args path ah ch) (inr (df :: rest));
                                     EvValidateHeaders df (inr ());
                                     EvReadPdf (otherpgs_args path (if_None_then ao ah)
                                                  (if_None_then co ch) (Z.of_nat k))
                                       (inr others)]))
               as (r & tl & Hrun & Hfin).
             eexists r, _. rewrite Hrun, extend_extend.
             split; [reflexivity|]. simpl. split; [by constructor|].
             repeat (constructor; [done|]). by destruct Hfin; repeat constructor.
        * unfold ret. rewrite !log_extend, !extend_extend. simpl app.
          destruct (finish_run_sound env (df :: rest) []
                      (extend w1 [EvReadPdf (headpg_args path ah ch) (inr (df :: rest));
                                  EvValidateHeaders df (inr ())]))
            as (r & tl & Hrun & Hfin).
          eexists r, _. rewrite Hrun, extend_extend.
          split; [reflexivity|]. simpl. split; [by constructor|].
          repeat (constructor; [done|]). by destruct Hfin; repeat constructor. }
  exists r, (EvPdfReader path (inr k) :: evs). rewrite log_extend, extend_extend.
  split; [reflexivity|]. split; [right; eauto|]. by constructor.
Qed.

(** * Properties of the specification *)

(** C3. In both entry operations the header validation of the first
    header-page fragment is performed before any continuation-page
    extraction: every continuation-page call in the trace comes after the
    header-page call that returned a first fragment and after the
    successful validation of that fragment.  When the validation fails, the
    invocation ends with the validator's exception and no continuation-page
    extraction has been called. *)
Theorem validation_before_continuation env op filepath ah ch ao co fs :
  exists r w',
    run_entry env op filepath ah ch ao co (start fs) = Some (r, w') /\
    (forall pre c ans post,
        trace w' = pre ++ EvReadPdf c ans :: post ->
        continuation_call c = true ->
        exists h df rest,
          headpg_call h = true /\
          In (EvReadPdf h (inr (df :: rest))) pre /\
          In (EvValidateHeaders df (inr tt)) pre) /\
    (forall df e,
        In (EvValidateHeaders df (inl e)) (trace w') ->
        r = inl e /\ continuation_calls (trace w') = []).
Proof.
  destruct (run_entry_trace env op filepath ah ch ao co fs)
    as (r & w' & Hrun & pre & mid & post & Ht & Hpre & Hpost & Hmid).
  exists r, w'. split; [done|]. split.
  - intros p1 c ans p2 Heq Hc. rewrite Ht in Heq.
    apply split_middle in Heq as (m1 & m2 & -> & ->); try done.
    destruct Hmid as [Hnil | (path & n & _ & Hmid)]; [by destruct m1|].
    destruct (pages_run_order _ _ _ _ _ _ _ _ _ _ _ Hmid Hc) as (df & rest & Hh & Hv).
    exists (headpg_args path ah ch), df, rest.
    split; [done|]. split; apply in_or_app; by right.
  - intros df e Hin. rewrite Ht in Hin |- *.
    apply in_middle in Hin; try done.
    destruct Hmid as [-> | (path & n & _ & Hmid)]; [done|].
    destruct (pages_run_invalid _ _ _ _ _ _ _ _ _ _ Hmid Hin) as [-> Hnone].
    split; [done|].
    by rewrite !continuation_calls_app, Hnone, !continuation_calls_none.
Qed.

(** C4. A continuation-page extraction is called only when the page count
    is at least 2, and then with the page selector ["2-N"].  And it is
    called when it should be: for a document of [n] pages the environment
    presents, whose header page the extraction engine reads and the
    validator accepts, the page count the invocation obtains is [n]; with
    [n] at least 2 the continuation pages are extracted, by one call, for
    the pages ["2-n"]; with [n] below 2, so for a single page, no
    continuation-page extraction is called, the continuation list handed to
    [__concat_injreppgs] is empty, and the invocation returns what the
    concatenation and the cleaning give. *)
Theorem continuation_iff_two_pages env op filepath ah ch ao co fs :
  exists r w',
    run_entry env op filepath ah ch ao co (start fs) = Some (r, w') /\
    (forall c ans,
        In (EvReadPdf c ans) (trace w') ->
        continuation_call c = true ->
        exists n, page_count (trace w') = Some n /\ 2 <= n /\
                  pages c = PagesStr ("2-" +:+ pretty n)) /\
    (forall path fs1 n df rest,
        document env op filepath fs path fs1 n ->
        read_pdf env fs1 (headpg_args path ah ch) = inr (df :: rest) ->
        _validate_headers env df = inr tt ->
        let c := otherpgs_args path (if_None_then ao ah) (if_None_then co ch) n in
        page_count (trace w') = Some n /\
        In (EvReadPdf (headpg_args path ah ch) (inr (df :: rest))) (trace w') /\
        In (EvValidateHeaders df (inr tt)) (trace w') /\
        if 2 <=? n
        then continuation_calls (trace w') = [c] /\
             pages c = PagesStr ("2-" +:+ pretty n) /\
             In (EvReadPdf c (read_pdf env fs1 c)) (trace w')
        else continuation_calls (trace w') = [] /\
             In (EvConcat (df :: rest) [] (__concat_injreppgs env (df :: rest) []))
                (trace w') /\
             r = match __concat_injreppgs env (df :: rest) [] with
                 | inl e => inl e
                 | inr df_rawdata => __clean_injrep env df_rawdata
                 end).
Proof.
  destruct (run_entry_trace env op filepath ah ch ao co fs)
    as (r & w' & Hrun & pre & mid & post & Ht & Hpre & Hpost & Hmid).
  exists r, w'. split; [done|]. split.
  - rewrite Ht. intros c ans Hin Hc. apply in_middle in Hin; try done.
    destruct Hmid as [-> | (path & n & Hn & Hmid)]; [done|].
    destruct (pages_run_read_pdf _ _ _ _ _ _ _ _ _ _ Hmid Hin) as [-> | [Hle ->]];
      [discriminate|].
    exists n. by rewrite page_count_app, Hn.
  - clear pre mid post Ht Hpre Hpost Hmid.
    intros path fs1 n df rest Hdoc Hhead Hvalid c.
    destruct (run_entry_document env op filepath ah ch ao co fs path fs1 n Hdoc)
      as (pre & post & Hcount & Hpre & Hpost & Hgive).
    pose proof (extract_pages_valid env path n ah ch ao co
                  {| files := fs1; trace := pre |} df rest Hhead Hvalid) as Hpages.
    cbv zeta in Hpages. fold c in Hpages. cbn [files] in Hpages.
    assert (forall r2 mid,
               extract_pages env path n ah ch ao co {| files := fs1; trace := pre |} =
                 Some (r2, {| files := fs1; trace := pre ++ mid |}) ->
               r = r2 /\ trace w' = pre ++ mid ++ post) as Hsame.
    { intros r2 mid Hext. destruct (Hgive r2 mid Hext) as [fs' Hrun'].
      rewrite Hrun in Hrun'. by injection Hrun' as -> ->. }
    assert (continuation_calls pre = []) as Hpre_none
      by apply continuation_calls_none, pipeline_not_extraction, Hpre.
    assert (continuation_calls post = []) as Hpost_none
      by apply continuation_calls_none, pipeline_not_extraction, Hpost.
    assert (forall mid, page_count (pre ++ mid ++ post) = Some n) as Hn
      by (intros mid; by rewrite page_count_app, Hcount).
    destruct (2 <=? n).
    + destruct (read_pdf env fs1 c) as [e | others] eqn:Hothers.
      * unfold extend in Hpages. cbn [files trace] in Hpages.
        destruct (Hsame _ _ Hpages) as [-> ->].
        rewrite Hn, !continuation_calls_app, Hpre_none, Hpost_none.
        split; [done|]. split; [apply in_or_app; right; simpl; auto|].
        split; [apply in_or_app; right; simpl; auto|].
        split; [done|]. split; [done|]. apply in_or_app. right. simpl. auto.
      * rewrite finish_exact in Hpages.
        destruct (__concat_injreppgs env (df :: rest) others) as [e | raw];
          rewrite extend_extend in Hpages; unfold extend in Hpages;
          cbn [files trace] in Hpages;
          destruct (Hsame _ _ Hpages) as [-> ->];
          rewrite Hn, !continuation_calls_app, Hpre_none, Hpost_none;
          (split; [done|]); (split; [apply in_or_app; right; simpl; auto|]);
          (split; [apply in_or_app; right; simpl; auto|]);
          (split; [done|]); (split; [done|]); apply in_or_app; right; simpl; auto.
    + rewrite finish_exact in Hpages.
      destruct (__concat_injreppgs env (df :: rest) []) as [e | raw];
        rewrite extend_extend in Hpages; unfold extend in Hpages;
        cbn [files trace] in Hpages;
        destruct (Hsame _ _ Hpages) as [-> ->];
        rewrite Hn, !continuation_calls_app, Hpre_none, Hpost_none;
        (split; [done|]); (split; [apply in_or_app; right; simpl; auto|]);
        (split; [apply in_or_app; right; simpl; auto|]);
        (split; [done|]); (split; [|done]); apply in_or_app; right; simpl; auto.
Qed.

(** C5. In both entry operations, a continuation-page extraction is
    requested with an area and with column boundaries that are never
    [None]; the area is the header page's when the caller supplied none,
    and so are the column boundaries. *)
Theorem continuation_geometry_defaults env op filepath ah ch ao co fs :
  exists r w',
    run_entry env op filepath ah ch ao co (start fs) = Some (r, w') /\
    forall c ans,
      In (EvReadPdf c ans) (trace w') ->
      continuation_call c = true ->
      area c <> None /\ columns c <> None /\
      (ao = None -> area c = Some ah) /\
      (co = None -> columns c = Some ch).
Proof.
  destruct (run_entry_trace env op filepath ah ch ao co fs)
    as (r & w' & Hrun & pre & mid & post & Ht & Hpre & Hpost & Hmid).
  exists r, w'. split; [done|]. rewrite Ht.
  intros c ans Hin Hc. apply in_middle in Hin; try done.
  destruct Hmid as [-> | (path & n & Hn & Hmid)]; [done|].
  destruct (pages_run_read_pdf _ _ _ _ _ _ _ _ _ _ Hmid Hin) as [-> | [Hle ->]];
    [discriminate|].
  simpl. repeat split.
  - by destruct ao.
  - by destruct co.
  - by intros ->.
  - by intros ->.
Qed.

(** C6. In both entry operations, the header-page call of the extraction
    engine selects page 1 with the header geometry and leaves header
    inference on, and every continuation-page call turns header inference
    off; the header-page call is the first call of the engine and the only
    one with header inference. *)
Theorem header_inference_by_page env op filepath ah ch ao co fs :
  exists r w',
    run_entry env op filepath ah ch ao co (start fs) = Some (r, w') /\
    (forall c ans,
        In (EvReadPdf c ans) (trace w') ->
        if headpg_call c
        then pages c = PagesInt 1 /\ area c = Some ah /\ columns c = Some ch /\
             header_inference c = true
        else header_inference c = false) /\
    (forall c calls,
        read_pdf_calls (trace w') = c :: calls ->
        headpg_call c = true /\
        Forall (fun c' => header_inference c' = false) calls).
Proof.
  destruct (run_entry_trace env op filepath ah ch ao co fs)
    as (r & w' & Hrun & pre & mid & post & Ht & Hpre & Hpost & Hmid).
  exists r, w'. split; [done|]. rewrite Ht. split.
  - intros c ans Hin. apply in_middle in Hin; try done.
    destruct Hmid as [-> | (path & n & Hn & Hmid)]; [done|].
    by destruct (pages_run_read_pdf _ _ _ _ _ _ _ _ _ _ Hmid Hin) as [-> | [Hle ->]].
  - intros c calls.
    rewrite !read_pdf_calls_app, (read_pdf_calls_none pre), (read_pdf_calls_none post),
      app_nil_r by done. simpl.
    destruct Hmid as [-> | (path & n & Hn & Hmid)]; [done|].
    destruct (pages_run_calls _ _ _ _ _ _ _ _ Hmid) as [-> | [_ ->]];
      intros [= <- <-]; split; try done. by repeat constructor.
Qed.

(** C10. The continuation-page area and the continuation-page column
    boundaries default independently, in both entry operations: with only
    [area_otherpgs] supplied the continuation-page call gets that area and
    the header page's column boundaries, and with only [cols_otherpgs]
    supplied it gets the header page's area and those column boundaries. *)
Theorem geometry_defaults_independent env op filepath ah ch a b fs :
  (exists r w',
      run_entry env op filepath ah ch (Some a) None (start fs) = Some (r, w') /\
      forall c ans,
        In (EvReadPdf c ans) (trace w') ->
        continuation_call c = true ->
        area c = Some a /\ columns c = Some ch) /\
  (exists r w',
      run_entry env op filepath ah ch None (Some b) (start fs) = Some (r, w') /\
      forall c ans,
        In (EvReadPdf c ans) (trace w') ->
        continuation_call c = true ->
        area c = Some ah /\ columns c = Some b).
Proof.
  split.
  - destruct (run_entry_trace env op filepath ah ch (Some a) None fs)
      as (r & w' & Hrun & pre & mid & post & Ht & Hpre & Hpost & Hmid).
    exists r, w'. split; [done|]. rewrite Ht.
    intros c ans Hin Hc. apply in_middle in Hin; try done.
    destruct Hmid as [-> | (path & n & Hn & Hmid)]; [done|].
    by destruct (pages_run_read_pdf _ _ _ _ _ _ _ _ _ _ Hmid Hin) as [-> | [Hle ->]].
  - destruct (run_entry_trace env op filepath ah ch None (Some b) fs)
      as (r & w' & Hrun & pre & mid & post & Ht & Hpre & Hpost & Hmid).
    exists r, w'. split; [done|]. rewrite Ht.
    intros c ans Hin Hc. apply in_middle in Hin; try done.
    destruct Hmid as [-> | (path & n & Hn & Hmid)]; [done|].
    by destruct (pages_run_read_pdf _ _ _ _ _ _ _ _ _ _ Hmid Hin) as [-> | [Hle ->]].
Qed.

(** C8. In local mode a missing file or a permission failure of the
    page-count probe ends the invocation with [LocalRetrievalError] carrying
    the path and the cause, after the probe alone.  Whatever happens, the
    invocation creates, writes and deletes no file, leaves the file system
    as it found it, and hands the caller's path itself to the extraction
    engine. *)
Theorem local_retrieval env filepath ah ch ao co fs :
  exists r w',
    extract_injreplocal env filepath ah ch ao co (start fs) = Some (r, w') /\
    files w' = fs /\
    Forall (fun ev => touches_files ev = false) (trace w') /\
    (forall c ans, In (EvReadPdf c ans) (trace w') -> input_path c = filepath) /\
    (forall cause,
        _pagect_localpdf env fs filepath = inl cause ->
        cause = FileNotFoundError \/ cause = PermissionError ->
        r = inl (LocalRetrievalError filepath cause) /\
        trace w' = [EvPagect filepath (inl cause)]).
Proof.
  destruct (extract_injreplocal_run env filepath ah ch ao co fs)
    as (r & t & Hrun & Hcases).
  eexists r, _. split; [exact Hrun|]. simpl. split; [done|].
  destruct Hcases as [(e & -> & Hprobe & ->) | (n & evs & -> & Hprobe & Hmid)].
  - split; [by repeat constructor|]. split.
    + intros c ans Hin. in_cases Hin.
    + intros cause Hcause Hkind. rewrite Hprobe in Hcause. injection Hcause as ->.
      by destruct Hkind as [-> | ->].
  - split; [|split].
    + constructor; [done|]. by eapply pages_run_no_files.
    + intros c ans [Hin | Hin]; [done|].
      by destruct (pages_run_read_pdf _ _ _ _ _ _ _ _ _ _ Hmid Hin) as [-> | [Hle ->]].
    + intros cause Hcause _. congruence.
Qed.

(** C9. The adapter that carries the retry policy is mounted under
    ["https://"] only.  When the URL requests makes of the location, the
    one the adapter is picked for, does not start with that prefix,
    [validate_injrepurl] never picks the retrying adapter for it: the URL is
    served by the default adapter, whose [Retry] has [total = 0], or by
    none.  The first request goes to that URL, and no request for a URL
    outside https is ever retried: in the whole trace such a request is
    followed by another only when a redirect has answered it, which the
    session then follows.  So when the answer to the first request is no
    redirect to follow, at most one request is sent, and exactly one when
    the URL starts with ["http://"]. *)
Theorem non_https_single_attempt env filepath kwargs_headers fs url :
  prepare_request env filepath (dict_update default_headers (default ∅ kwargs_headers)) =
    inr url ->
  is_https url = false ->
  (forall prefix,
      In (prefix, requests.HTTPAdapter_init retries) (requests.adapters session) ->
      prefix = "https://") /\
  (forall adapter,
      requests.get_adapter session url = Some adapter ->
      adapter = requests.HTTPAdapter_default /\
      urllib3.total (requests.max_retries adapter) = urllib3.CInt 0) /\
  exists r w',
    validate_injrepurl env filepath kwargs_headers (start fs) = Some (r, w') /\
    (forall req k ans t, trace w' = EvRequest req k ans :: t -> req_url req = url) /\
    (forall t1 req k ans ev t2,
        trace w' = t1 ++ EvRequest req k ans :: ev :: t2 ->
        is_https (req_url req) = false ->
        exists resp, ans = Responds resp /\ followed resp = true) /\
    ((forall resp,
         transport env (sent_request url kwargs_headers) 0 = Responds resp ->
         followed resp = false) ->
     (attempts (trace w') <= 1)%nat /\
     (requests.startswith (requests.lower url) "http://" = true ->
      attempts (trace w') = 1%nat)).
Proof.
  intros Hprep Hs. split; [|split].
  - rewrite session_adapters. intros prefix [Heq | [Heq | []]].
    + by injection Heq.
    + injection Heq as _ Heq. vm_compute in Heq. discriminate.
  - intros adapter. rewrite get_adapter_session, Hs.
    destruct (requests.startswith (requests.lower url) "http://"); [|done].
    by intros [= <-].
  - destruct (validate_injrepurl_sound env filepath kwargs_headers (start fs))
      as (r0 & evs & _ & Hval & Hrun).
    rewrite Hprep in Hrun. change (attempts (trace (start fs))) with 0%nat in Hrun.
    exists (checked filepath r0), (extend (start fs) evs). split; [done|].
    change (trace (extend (start fs) evs)) with evs.
    pose proof (session_run_is_request _ _ _ _ _ _ Hrun) as Hreqs.
    split; [|split].
    + intros req k ans t Heq.
      by destruct (session_run_first _ _ _ _ _ _ _ _ _ _ Hrun Heq) as [-> _].
    + intros t1 req k ans ev t2 Heq.
      eapply never_retried_split; [exact Hreqs| |exact Heq].
      by eapply session_run_never_retried.
    + intros Hplain. rewrite (attempts_requests _ Hreqs).
      destruct (requests.get_adapter session url) as [adapter|] eqn:Hget.
      * destruct (session_run_hop _ _ _ _ _ _ adapter Hrun Hget)
          as (res & evs1 & evs2 & -> & Hhop & Hout).
        destruct (hop_length env (sent_request url kwargs_headers) _ _ _ _ Hget Hhop)
          as [_ Hone].
        specialize (Hone Hs). subst evs1.
        assert (evs2 = []) as ->.
        { destruct (requests.send_outcome res) as [e | resp] eqn:Hres; [apply Hout|].
          apply send_outcome_returned in Hres.
          destruct (urlopen_run_returned _ _ _ _ _ _ Hhop _ Hres) as (evs0 & j & Hlast & Hj).
          destruct evs0 as [|ev [|ev' evs0]]; try done.
          injection Hlast as <- Hresp. rewrite (Hplain resp Hj) in Hout. apply Hout. }
        simpl. split; [lia|done].
      * destruct (session_run_no_adapter _ _ _ _ _ _ Hrun Hget) as [-> _].
        rewrite get_adapter_session, Hs in Hget.
        destruct (requests.startswith (requests.lower url) "http://"); [done|].
        simpl. split; [lia|done].
Qed.

Lemma non_https_single_attempt_witness :
  prepare_request (sample_env 503 sample_body 1 (inr tt) None) sample_http_url
    (dict_update default_headers (default ∅ None)) = inr sample_http_url /\
  is_https sample_http_url = false /\
  exists r w',
    validate_injrepurl (sample_env 503 sample_body 1 (inr tt) None) sample_http_url None
      (start ∅) = Some (r, w') /\
    attempts (trace w') = 1%nat.
Proof.
  split; [reflexivity|]. split; [reflexivity|].
  destruct (non_https_single_attempt (sample_env 503 sample_body 1 (inr tt) None)
              sample_http_url None ∅ sample_http_url eq_refl eq_refl)
    as (_ & _ & r & w' & Hrun & _ & _ & Hone).
  exists r, w'. split; [exact Hrun|]. apply Hone; [|reflexivity].
  intros resp Hresp. simpl in Hresp. by injection Hresp as <-.
Defined.




(** A server that answers 503 five times in a row and 200 to the sixth
    request causes no retrieval error at all. *)
Lemma sixth_attempt_succeeds :
  exists resp w',
    validate_injrepurl (then_env 5 503 200) sample_url None (start ∅) = Some (inr resp, w') /\
    status_code resp = 200 /\
    attempts (trace w') = 6%nat.
Proof. eexists _, _. split; [vm_compute; reflexivity|]. by vm_compute. Qed.



(** C1, as the code has it.  Take an invocation of [extract_injrepurl]
    whose retrieval succeeds, that creates its temporary file and streams
    the whole body into it.  Then the [try] block runs, on the files that
    hold the body: the page count and, if that answers, the shared
    statements.  Whatever its outcome (success, or a failure of the page
    count, of the extraction, of the header validation, of the
    concatenation or of the cleaning), [unlink] is called on the temporary
    file exactly once, as the last action, and the outcome of the
    invocation is the outcome of the [try] block, also when that [unlink]
    fails: its failure is suppressed.  When the [unlink] does not fail, the
    temporary file is absent afterwards and the file system is as the
    invocation found it; when it fails the file stays, with the body in
    it. *)
Theorem temp_file_released env filepath ah ch ao co kwargs_headers fs resp w0 :
  validate_injrepurl env filepath kwargs_headers (start fs) = Some (inr resp, w0) ->
  fs !! mkstemp env fs = None ->
  stream_failure (iter_content resp) = None ->
  let p := mkstemp env fs in
  let fs1 := <[p := received (iter_content resp)]> fs in
  let w1 := {| files := fs1;
               trace := trace w0 ++ EvTmpCreate p :: writes_of p (iter_content resp) |} in
  exists r mid w',
    (pdf_numpgs <- PdfReader_numpgs env p ;;
     extract_pages env p pdf_numpgs ah ch ao co) w1 = Some (r, extend w1 mid) /\
    ((exists e, mid = [EvPdfReader p (inl e)] /\ r = inl e) \/
     (exists k evs, mid = EvPdfReader p (inr k) :: evs /\
                    pages_run p (Z.of_nat k) ah ch ao co r evs)) /\
    extract_injrepurl env filepath ah ch ao co kwargs_headers (start fs) = Some (r, w') /\
    trace w' = (trace w1 ++ mid) ++ [EvUnlink p (unlink_error env fs1 p)] /\
    Forall (fun ev => is_unlink ev = false) (trace w1 ++ mid) /\
    match unlink_error env fs1 p with
    | None => files w' = fs /\ files w' !! p = None
    | Some _ => files w' = fs1 /\ files w' !! p = Some (received (iter_content resp))
    end.
Proof.
  intros Hval Hfresh Hstream p fs1 w1.
  destruct (validate_injrepurl_run env filepath kwargs_headers (start fs))
    as (r0 & reqs & Hval' & Hreqs & _).
  rewrite Hval in Hval'. injection Hval' as <- ->.
  change (extend (start fs) reqs) with {| files := fs; trace := reqs |} in *.
  cbn [trace] in w1.
  destruct (try_block_run env p ah ch ao co w1) as (r & mid & Hblock & Hmid).
  exists r, mid. eexists. split; [exact Hblock|]. split; [exact Hmid|].
  split; [exact (extract_injrepurl_block env filepath ah ch ao co kwargs_headers fs resp
                   reqs r mid Hval Hfresh Hstream Hblock)|].
  cbn [trace files]. split; [subst w1; cbn [trace]; by rewrite <- !app_assoc|]. split.
  - subst w1. cbn [trace]. apply Forall_app. split; [apply Forall_app; split|].
    + eapply Forall_impl; [exact Hreqs|]. by intros ev (req & k & ->).
    + constructor; [done|].
      eapply Forall_impl; [apply writes_of_writes|]. by intros ev [b ->].
    + destruct Hmid as [(e & -> & _) | (k & evs & -> & Hpages)]; [by repeat constructor|].
      constructor; [done|].
      eapply Forall_impl; [by eapply pages_run_no_files|]. by intros [].
  - fold p. fold fs1. destruct (unlink_error env fs1 p); [|done].
    split; [done|]. subst fs1. by rewrite lookup_insert_eq.
Qed.

Lemma temp_file_released_witness :
  validate_injrepurl (sample_env 200 sample_body 3 (inr tt) None) sample_url None (start ∅) =
    Some (inr (sample_response 200 sample_body),
          {| files := ∅;
             trace := [EvRequest (sent_request sample_url None) 0
                         (Responds (sample_response 200 sample_body))] |}) /\
  (∅ : gmap string bytes) !! mkstemp (sample_env 200 sample_body 3 (inr tt) None) ∅ = None /\
  stream_failure (iter_content (sample_response 200 sample_body)) = None /\
  exists w',
    extract_injrepurl (sample_env 200 sample_body 3 (inr tt) None) sample_url
      sample_area sample_cols None None None (start ∅) = Some (inr sample_df, w') /\
    files w' = ∅.
Proof.
  assert (validate_injrepurl (sample_env 200 sample_body 3 (inr tt) None) sample_url None
            (start ∅) =
            Some (inr (sample_response 200 sample_body),
                  {| files := ∅;
                     trace := [EvRequest (sent_request sample_url None) 0
                                 (Responds (sample_response 200 sample_body))] |})) as Hval
    by (vm_compute; reflexivity).
  split; [exact Hval|]. split; [reflexivity|]. split; [reflexivity|].
  destruct (temp_file_released (sample_env 200 sample_body 3 (inr tt) None) sample_url
              sample_area sample_cols None None None ∅ _ _ Hval eq_refl eq_refl)
    as (r & mid & w' & Hblock & _ & Hrun & _ & _ & Hfiles).
  exists w'. simpl in Hfiles. destruct Hfiles as [Hfiles _]. split; [|exact Hfiles].
  rewrite Hrun. f_equal. f_equal.
  vm_compute in Hblock. by injection Hblock as <- _.
Defined.

(** C1, as stated, fails: when [unlink] raises (the file is locked, or the
    directory has become read-only), the [except Exception: pass] of the
    cleanup swallows it and the invocation returns its table with the
    temporary file still in place. *)
Lemma locked_temp_file_counterexample :
  exists df w',
    extract_injrepurl (sample_env 200 sample_body 3 (inr tt) (Some PermissionError))
      sample_url sample_area sample_cols None None None (start ∅) = Some (inr df, w') /\
    In (EvTmpCreate sample_tmp) (trace w') /\
    files w' !! sample_tmp = Some ["%"%byte; "P"%byte; "D"%byte; "F"%byte; "-"%byte].
Proof.
  eexists _, _. split; [vm_compute; reflexivity|]. split; [|by vm_compute].
  simpl. tauto.
Qed.

(** The download loop runs before the [try] block: when the body breaks
    while it is read, the exception leaves [extract_injrepurl] without any
    [unlink], and the temporary file stays. *)
Lemma broken_download_leaves_temp_file :
  exists w',
    extract_injrepurl
      (sample_env 200 [Chunk ["%"%byte]; StreamFail (RequestException ConnectionError)]
                  3 (inr tt) None)
      sample_url sample_area sample_cols None None None (start ∅) =
      Some (inl (RequestException ConnectionError), w') /\
    List.filter is_unlink (trace w') = [] /\
    files w' !! sample_tmp = Some ["%"%byte].
Proof. eexists. split; [vm_compute; reflexivity|]. split; by vm_compute. Qed.

(** * Sample runs *)

(** A three-page report read from disk: the probe, the header page, the
    validation, pages 2-3, the concatenation and the cleaning. *)
Example local_three_pages :
  exists w',
    extract_injreplocal (sample_env 200 sample_body 3 (inr tt) None) "report.pdf"
      sample_area sample_cols None None (start {[ "report.pdf" := [] ]}) =
      Some (inr sample_df, w') /\
    files w' = {[ "report.pdf" := [] ]} /\
    read_pdf_calls (trace w') =
      [headpg_args "report.pdf" sample_area sample_cols;
       otherpgs_args "report.pdf" (Some sample_area) (Some sample_cols) 3] /\
    map pages (continuation_calls (trace w')) = [PagesStr "2-3"].
Proof. eexists. split; [vm_compute; reflexivity|]. repeat split; by vm_compute. Qed.

(** A one-page report: no continuation-page call. *)
Example local_single_page :
  exists w',
    extract_injreplocal (sample_env 200 sample_body 1 (inr tt) None) "report.pdf"
      sample_area sample_cols None None (start {[ "report.pdf" := [] ]}) =
      Some (inr sample_df, w') /\
    read_pdf_calls (trace w') = [headpg_args "report.pdf" sample_area sample_cols].
Proof. eexists. split; [vm_compute; reflexivity|]. by vm_compute. Qed.

(** A report that is not there. *)
Example local_missing_file :
  exists w',
    extract_injreplocal (sample_env 200 sample_body 1 (inr tt) None) "report.pdf"
      sample_area sample_cols None None (start ∅) =
      Some (inl (LocalRetrievalError "report.pdf" FileNotFoundError), w') /\
    trace w' = [EvPagect "report.pdf" (inl FileNotFoundError)].
Proof. eexists. split; [vm_compute; reflexivity|]. by vm_compute. Qed.

(** A report whose header page has the wrong columns, fetched from the
    league's server: the validator's exception comes out, pages 2-3 are not
    read, and the temporary file is gone. *)
Example url_invalid_header :
  exists w',
    extract_injrepurl
      (sample_env 200 sample_body 3 (inl (OtherException "SchemaValidationError")) None)
      sample_url sample_area sample_cols None None None (start ∅) =
      Some (inl (OtherException "SchemaValidationError"), w') /\
    continuation_calls (trace w') = [] /\
    files w' = ∅.
Proof. eexists. split; [vm_compute; reflexivity|]. split; by vm_compute. Qed.

(** A report on whose header page the engine finds no table: [IndexError]
    comes out, nothing else of the pipeline is called, and the temporary
    file is gone. *)
Example url_blank_header_page :
  exists w',
    extract_injrepurl blank_env sample_url sample_area sample_cols None None None (start ∅) =
      Some (inl IndexError, w') /\
    read_pdf_calls (trace w') = [headpg_args sample_tmp sample_area sample_cols] /\
    List.filter is_pipeline (trace w') =
      [EvReadPdf (headpg_args sample_tmp sample_area sample_cols) (inr [])] /\
    files w' = ∅.
Proof. eexists. split; [vm_compute; reflexivity|]. repeat split; by vm_compute. Qed.

(** Caller's headers override and extend the defaults. *)
Example headers_override :
  let headers :=
    dict_update default_headers {[ "Accept" := "*/*"; "Referer" := "https://www.nba.com/" ]} in
  headers !! "Accept" = Some "*/*" /\
  headers !! "Referer" = Some "https://www.nba.com/" /\
  headers !! "User-Agent" = default_headers !! "User-Agent".
Proof. repeat split; by vm_compute. Qed.

(** * Further properties of the parser *)

(** ** The download loop *)

(** X1. The download loop appends to the temporary file exactly the bytes
    the body delivers, in order, up to the end of the body or to the
    exception that breaks it; it calls [write] once for each chunk that is
    not empty, and it raises that exception or ends normally. *)
Theorem write_chunks_content name items w old :
  files w !! name = Some old ->
  write_chunks name items w =
    Some (match stream_failure items with
          | Some e => inl e
          | None => inr tt
          end,
          {| files := <[name := old ++ received items]> (files w);
             trace := trace w ++ writes_of name items |}).
Proof. apply write_chunks_exact. Qed.

Lemma write_chunks_content_witness :
  write_chunks sample_tmp broken_body {| files := {[ sample_tmp := [] ]}; trace := [] |} =
    Some (inl (RequestException ConnectionError),
          {| files := {[ sample_tmp := ["%"%byte; "P"%byte; "D"%byte] ]};
             trace := [EvTmpWrite sample_tmp ["%"%byte; "P"%byte];
                       EvTmpWrite sample_tmp ["D"%byte]] |}).
Proof.
  rewrite (write_chunks_content sample_tmp broken_body
             {| files := {[ sample_tmp := [] ]}; trace := [] |} [])
    by (vm_compute; reflexivity).
  vm_compute. reflexivity.
Defined.

(** ** What the remote operation leaves behind *)

(** X2. When the body of a validated response breaks while it is
    downloaded, [extract_injrepurl] raises the exception of the stream as it
    is; PyPDF2, tabula and [unlink] are never called, and the temporary file
    stays on disk, holding the bytes received before the break. *)
Theorem broken_download env filepath ah ch ao co kw fs resp w0 e :
  validate_injrepurl env filepath kw (start fs) = Some (inr resp, w0) ->
  fs !! mkstemp env fs = None ->
  stream_failure (iter_content resp) = Some e ->
  extract_injrepurl env filepath ah ch ao co kw (start fs) =
    Some (inl e,
          {| files := <[mkstemp env fs := received (iter_content resp)]> fs;
             trace := trace w0 ++ EvTmpCreate (mkstemp env fs)
                        :: writes_of (mkstemp env fs) (iter_content resp) |}).
Proof.
  intros Hval Hfresh Hfail.
  destruct (extract_injrepurl_full env filepath ah ch ao co kw fs)
    as (r0 & reqs & Hval' & _ & Hrun).
  rewrite Hval in Hval'. injection Hval' as <- ->.
  cbv zeta in Hrun. by rewrite Hfresh, Hfail in Hrun.
Qed.

Lemma broken_download_witness :
  exists w',
    extract_injrepurl (sample_env 200 broken_body 3 (inr tt) None) sample_url
      sample_area sample_cols None None None (start ∅) =
      Some (inl (RequestException ConnectionError), w') /\
    files w' = {[ sample_tmp := ["%"%byte; "P"%byte; "D"%byte] ]} /\
    List.filter is_unlink (trace w') = [].
Proof.
  eexists. split.
  - eapply (broken_download (sample_env 200 broken_body 3 (inr tt) None) sample_url
              sample_area sample_cols None None None ∅).
    + vm_compute. reflexivity.
    + reflexivity.
    + reflexivity.
  - split; by vm_compute.
Defined.



(** X4. Whether the [unlink] of the cleanup fails or not makes no
    difference to what [extract_injrepurl] returns or raises, nor to the
    calls it makes before the [unlink]: a failure of the cleanup never takes
    the place of the outcome of the [try] block. *)
Theorem unlink_never_masks env unl filepath ah ch ao co kw fs :
  exists r w1 w2,
    extract_injrepurl env filepath ah ch ao co kw (start fs) = Some (r, w1) /\
    extract_injrepurl (with_unlink env unl) filepath ah ch ao co kw (start fs) =
      Some (r, w2) /\
    List.filter (fun ev => negb (is_unlink ev)) (trace w1) =
      List.filter (fun ev => negb (is_unlink ev)) (trace w2).
Proof.
  destruct (extract_injrepurl_full env filepath ah ch ao co kw fs)
    as (r0 & reqs & Hval & _ & Hrun).
  destruct (extract_injrepurl_full (with_unlink env unl) filepath ah ch ao co kw fs)
    as (r0' & reqs' & Hval' & _ & Hrun').
  change (validate_injrepurl (with_unlink env unl)) with (validate_injrepurl env) in Hval'.
  rewrite Hval in Hval'. injection Hval' as <- <-.
  destruct r0 as [e | resp]; [by eexists _, _, _|].
  cbv zeta in Hrun, Hrun'.
  change (mkstemp (with_unlink env unl)) with (mkstemp env) in Hrun'.
  destruct (fs !! mkstemp env fs) eqn:Hfresh; [by eexists _, _, _|].
  destruct (stream_failure (iter_content resp)) as [e|] eqn:Hstream;
    [by eexists _, _, _|].
  clear Hrun Hrun'.
  destruct (try_block_run env (mkstemp env fs) ah ch ao co
              {| files := <[mkstemp env fs := received (iter_content resp)]> fs;
                 trace := reqs ++ EvTmpCreate (mkstemp env fs)
                            :: writes_of (mkstemp env fs) (iter_content resp) |})
    as (r & mid & Hblock & _).
  eexists r, _, _.
  split; [exact (extract_injrepurl_block env filepath ah ch ao co kw fs resp reqs r mid
                   Hval Hfresh Hstream Hblock)|].
  split; [exact (extract_injrepurl_block (with_unlink env unl) filepath ah ch ao co kw fs
                   resp reqs r mid Hval Hfresh Hstream Hblock)|].
  cbn [trace]. rewrite !List.filter_app. by simpl.
Qed.

(** ** The local operation and other failures of the probe *)

(** X5. In local mode only [FileNotFoundError] and [PermissionError] are
    wrapped: any other exception of the page-count probe leaves
    [extract_injreplocal] as it is, after the probe alone and with the files
    untouched. *)
Theorem local_other_errors env filepath ah ch ao co fs cause :
  _pagect_localpdf env fs filepath = inl cause ->
  cause <> FileNotFoundError ->
  cause <> PermissionError ->
  extract_injreplocal env filepath ah ch ao co (start fs) =
    Some (inl cause, {| files := fs; trace := [EvPagect filepath (inl cause)] |}).
Proof.
  intros Hprobe Hmissing Hdenied.
  unfold extract_injreplocal. unfold bind at 1.
  unfold try_except, pagect_localpdf, call. simpl files. rewrite Hprobe.
  by destruct cause.
Qed.

Lemma local_other_errors_witness :
  extract_injreplocal (down_env NewConnectionError) "report.pdf"
    sample_area sample_cols None None (start ∅) =
    Some (inl (OtherException "PdfReadError"),
          {| files := ∅;
             trace := [EvPagect "report.pdf" (inl (OtherException "PdfReadError"))] |}).
Proof.
  apply (local_other_errors (down_env NewConnectionError) "report.pdf"
           sample_area sample_cols None None ∅ (OtherException "PdfReadError"));
    [reflexivity | discriminate | discriminate].
Defined.

(** ** The shape of every run *)

Lemma pages_run_failed path n ah ch ao co r mid ev e :
  pages_run path n ah ch ao co r mid ->
  In ev mid ->
  failed_call ev = Some e ->
  r = inl e.
Proof.
  intros Hrun Hin Hfail.
  inv_run Hrun; in_cases Hin; subst ev; simpl in Hfail; try discriminate;
    try (by injection Hfail as ->).
  all: destruct r; [by injection Hfail as ->|discriminate].
Qed.

(** The trace of either entry operation, with the calls of the pipeline
    proper in the middle; a failure around them is a failed page count. *)
Lemma run_entry_shape env op filepath ah ch ao co fs :
  exists r w',
    run_entry env op filepath ah ch ao co (start fs) = Some (r, w') /\
    exists pre mid post,
      trace w' = pre ++ mid ++ post /\
      Forall (fun ev => is_pipeline ev = false) pre /\
      Forall (fun ev => is_pipeline ev = false) post /\
      (forall ev e, In ev (pre ++ post) -> failed_call ev = Some e ->
                    mid = [] /\ r = inl e) /\
      ((mid = [] /\ exists e, r = inl e) \/
       exists path n, page_count pre = Some n /\ pages_run path n ah ch ao co r mid).
Proof.
  assert (forall t, Forall (fun ev => is_request ev = true) t ->
                    Forall (fun ev => is_pipeline ev = false) t) as Hreq_pipe.
  { intros t Ht. eapply Forall_impl; [exact Ht|]. by intros []. }
  assert (forall t ev e, Forall (fun ev => is_request ev = true) t ->
                         In ev t -> failed_call ev = Some e -> False) as Hreq_fail.
  { intros t ev e Ht Hin Hfail. rewrite Forall_forall in Ht.
    apply list_elem_of_In, Ht in Hin. by destruct ev. }
  assert (forall p items ev e, In ev (writes_of p items) -> failed_call ev = Some e -> False)
    as Hwr_fail.
  { intros p items ev e Hin Hfail. pose proof (writes_of_writes p items) as Hw.
    rewrite Forall_forall in Hw. by apply list_elem_of_In, Hw in Hin as [b ->]. }
  assert (forall p items, Forall (fun ev => is_pipeline ev = false) (writes_of p items))
    as Hwr_pipe.
  { intros p items. eapply Forall_impl; [apply writes_of_writes|]. by intros ev [b ->]. }
  destruct op as [kw|]; simpl.
  - destruct (extract_injrepurl_full env filepath ah ch ao co kw fs)
      as (r0 & reqs & Hval & Hreqs & Hrun).
    pose proof Hreqs as Hreqs'.
    destruct r0 as [e | resp].
    { eexists _, _. split; [exact Hrun|]. exists reqs, [], []. simpl.
      rewrite !app_nil_r. split; [done|]. split; [auto|]. split; [done|].
      split; [|left; eauto]. intros ev e' Hin Hfail.
      by destruct (Hreq_fail _ _ _ Hreqs' Hin Hfail). }
    cbv zeta in Hrun. set (p := mkstemp env fs) in *.
    destruct (fs !! p) eqn:Hfresh.
    { eexists _, _. split; [exact Hrun|]. exists reqs, [], []. simpl.
      rewrite !app_nil_r. split; [done|]. split; [auto|]. split; [done|].
      split; [|left; eauto]. intros ev e' Hin Hfail.
      by destruct (Hreq_fail _ _ _ Hreqs' Hin Hfail). }
    destruct (stream_failure (iter_content resp)) as [e|] eqn:Hstream.
    { eexists _, _. split; [exact Hrun|].
      exists (reqs ++ EvTmpCreate p :: writes_of p (iter_content resp)), [], []. simpl.
      rewrite !app_nil_r. split; [done|].
      split; [apply Forall_app; split; [auto|by constructor]|]. split; [done|].
      split; [|left; eauto]. intros ev e' Hin Hfail.
      apply in_app_or in Hin as [Hin | [<- | Hin]]; [|done|].
      - by destruct (Hreq_fail _ _ _ Hreqs' Hin Hfail).
      - by destruct (Hwr_fail _ _ _ _ Hin Hfail). }
    destruct Hrun as (r & mid & Hrun & Hmid).
    eexists _, _. split; [exact Hrun|]. cbn [trace].
    destruct Hmid as [(e & -> & ->) | (k & evs & -> & Hpages)].
    + exists ((reqs ++ EvTmpCreate p :: writes_of p (iter_content resp))
                ++ [EvPdfReader p (inl e)]), [],
        [EvUnlink p (unlink_error env (<[p:=received (iter_content resp)]> fs) p)].
      split; [by rewrite <- !app_assoc|].
      split.
      { repeat (apply Forall_app; split); auto; by repeat constructor. }
      split; [by repeat constructor|]. split; [|left; eauto].
      intros ev e' Hin Hfail. split; [done|].
      rewrite <- !app_assoc in Hin.
      apply in_app_or in Hin as [Hin | [<- | Hin]]; [|done|].
      * by destruct (Hreq_fail _ _ _ Hreqs' Hin Hfail).
      * apply in_app_or in Hin as [Hin | Hin];
          [by destruct (Hwr_fail _ _ _ _ Hin Hfail)|].
        simpl in Hin. destruct Hin as [<- | [<- | []]]; [|done].
        by injection Hfail as ->.
    + exists ((reqs ++ EvTmpCreate p :: writes_of p (iter_content resp))
                ++ [EvPdfReader p (inr k)]), evs,
        [EvUnlink p (unlink_error env (<[p:=received (iter_content resp)]> fs) p)].
      split; [by rewrite <- !app_assoc|].
      split.
      { repeat (apply Forall_app; split); auto; by repeat constructor. }
      split; [by repeat constructor|]. split.
      * intros ev e' Hin Hfail. exfalso.
        rewrite <- !app_assoc in Hin.
        apply in_app_or in Hin as [Hin | [<- | Hin]]; [|done|].
        -- by destruct (Hreq_fail _ _ _ Hreqs' Hin Hfail).
        -- apply in_app_or in Hin as [Hin | Hin];
             [by destruct (Hwr_fail _ _ _ _ Hin Hfail)|].
           simpl in Hin. by destruct Hin as [<- | [<- | []]].
      * right. exists p, (Z.of_nat k). split; [|done].
        rewrite !page_count_app, (page_count_requests _ Hreqs'). simpl.
        by rewrite (page_count_writes _ _ (writes_of_writes _ _)).
  - destruct (extract_injreplocal_run env filepath ah ch ao co fs)
      as (r & t & Hrun & Hcases).
    eexists r, _. split; [exact Hrun|]. simpl.
    destruct Hcases as [(e & -> & _ & ->) | (n & evs & -> & _ & Hpages)].
    + exists [EvPagect filepath (inl e)], [], [].
      split; [done|]. split; [by repeat constructor|]. split; [done|].
      split; [|left; eauto]. intros ev e' Hin Hfail. simpl in Hin.
      by destruct Hin as [<- | []].
    + exists [EvPagect filepath (inr n)], evs, []. rewrite app_nil_r.
      split; [done|]. split; [by repeat constructor|]. split; [done|]. split.
      * intros ev e' Hin Hfail. simpl in Hin. by destruct Hin as [<- | []].
      * right. by exists filepath, n.
Qed.

Lemma in_shape ev pre mid post :
  Forall (fun ev => is_pipeline ev = false) pre ->
  Forall (fun ev => is_pipeline ev = false) post ->
  is_pipeline ev = true ->
  In ev (pre ++ mid ++ post) -> In ev mid.
Proof.
  intros Hpre Hpost Hev Hin.
  apply in_app_or in Hin as [Hin | Hin].
  - rewrite Forall_forall in Hpre. apply list_elem_of_In, Hpre in Hin. congruence.
  - apply in_app_or in Hin as [Hin | Hin]; [done|].
    rewrite Forall_forall in Hpost. apply list_elem_of_In, Hpost in Hin. congruence.
Qed.

(** X6. In both entry operations an exception raised by PyPDF2, by tabula,
    by the header validator, by the concatenation or by the cleaning is the
    exception the invocation ends with: none of them is caught, wrapped or
    replaced. *)
Theorem failed_call_is_result env op filepath ah ch ao co fs :
  exists r w',
    run_entry env op filepath ah ch ao co (start fs) = Some (r, w') /\
    forall ev e, In ev (trace w') -> failed_call ev = Some e -> r = inl e.
Proof.
  destruct (run_entry_shape env op filepath ah ch ao co fs)
    as (r & w' & Hrun & pre & mid & post & Ht & Hpre & Hpost & Hout & Hmid).
  exists r, w'. split; [done|]. rewrite Ht.
  intros ev e Hin Hfail.
  apply in_app_or in Hin as [Hin | Hin];
    [by apply (Hout ev e); [apply in_or_app; left|]|].
  apply in_app_or in Hin as [Hin | Hin];
    [|by apply (Hout ev e); [apply in_or_app; right|]].
  destruct Hmid as [[-> _] | (path & n & _ & Hpages)]; [done|].
  by eapply pages_run_failed.
Qed.

Lemma filter_pipeline_none t :
  Forall (fun ev => is_pipeline ev = false) t -> List.filter is_pipeline t = [].
Proof. induction 1 as [|ev t Hev _ IH]; [done|]. simpl. by rewrite Hev. Qed.

Lemma pages_run_empty path n ah ch ao co r mid h :
  pages_run path n ah ch ao co r mid ->
  In (EvReadPdf h (inr [])) mid ->
  headpg_call h = true ->
  r = inl IndexError /\ mid = [EvReadPdf h (inr [])].
Proof.
  intros Hrun Hin Hh. inv_run Hrun; in_cases Hin; try (by injection Hin as <-).
  all: injection Hin as <- _; discriminate.
Qed.

(** X7. In both entry operations, when the extraction engine finds no
    table on the header page (it returns an empty list), the invocation
    ends with [IndexError]; the validator, the continuation-page
    extraction, the concatenation and the cleaning are never called. *)
Theorem empty_header_page env op filepath ah ch ao co fs :
  exists r w',
    run_entry env op filepath ah ch ao co (start fs) = Some (r, w') /\
    forall h,
      In (EvReadPdf h (inr [])) (trace w') ->
      headpg_call h = true ->
      r = inl IndexError /\
      List.filter is_pipeline (trace w') = [EvReadPdf h (inr [])].
Proof.
  destruct (run_entry_shape env op filepath ah ch ao co fs)
    as (r & w' & Hrun & pre & mid & post & Ht & Hpre & Hpost & _ & Hmid).
  exists r, w'. split; [done|]. rewrite Ht. intros h Hin Hh.
  apply in_shape in Hin; try done.
  destruct Hmid as [[-> _] | (path & n & _ & Hpages)]; [done|].
  destruct (pages_run_empty _ _ _ _ _ _ _ _ _ Hpages Hin Hh) as [-> ->].
  split; [done|].
  by rewrite !List.filter_app, (filter_pipeline_none pre), (filter_pipeline_none post).
Qed.

(** X8. In both entry operations [__concat_injreppgs] is called only after
    the header page has been read and its first fragment validated: both
    calls come before it in the trace, and so does the continuation-page
    call when there is one.  It is given the whole list of header-page
    fragments, not just the validated one, together with the very list the
    continuation-page call returned, or the empty list when there is no
    such call. *)
Theorem concat_inputs env op filepath ah ch ao co fs :
  exists r w',
    run_entry env op filepath ah ch ao co (start fs) = Some (r, w') /\
    forall before hs os a after,
      trace w' = before ++ EvConcat hs os a :: after ->
      exists h df rest,
        headpg_call h = true /\
        hs = df :: rest /\
        In (EvReadPdf h (inr hs)) before /\
        In (EvValidateHeaders df (inr tt)) before /\
        ((os = [] /\ continuation_calls (trace w') = []) \/
         exists c, continuation_call c = true /\ In (EvReadPdf c (inr os)) before).
Proof.
  destruct (run_entry_shape env op filepath ah ch ao co fs)
    as (r & w' & Hrun & pre & mid & post & Ht & Hpre & Hpost & _ & Hmid).
  exists r, w'. split; [done|]. rewrite Ht. intros before hs os a after Heq.
  apply (split_in_middle is_pipeline) in Heq as (m1 & m2 & -> & -> & ->); try done.
  destruct Hmid as [[Hnil _] | (path & n & _ & Hpages)]; [by destruct m1|].
  destruct (pages_run_concat_order _ _ _ _ _ _ _ _ _ _ _ _ Hpages)
    as (df & rest & -> & Hh & Hv & Hos).
  exists (headpg_args path ah ch), df, rest.
  split; [done|]. split; [done|].
  split; [apply in_or_app; by right|]. split; [apply in_or_app; by right|].
  destruct Hos as [[-> Hnone] | Hc].
  - left. split; [done|].
    by rewrite (continuation_calls_app pre), (continuation_calls_app _ post), Hnone,
      (continuation_calls_none pre (pipeline_not_extraction _ Hpre)),
      (continuation_calls_none post (pipeline_not_extraction _ Hpost)).
  - right. eexists. split; [|apply in_or_app; right; exact Hc]. done.
Qed.

Lemma pages_run_clean path n ah ch ao co r mid :
  pages_run path n ah ch ao co r mid ->
  (forall raw a, In (EvClean raw a) mid ->
                 r = a /\ exists hs os, In (EvConcat hs os (inr raw)) mid) /\
  (forall df, r = inr df -> exists raw, In (EvClean raw (inr df)) mid).
Proof.
  intros Hrun. split.
  - intros raw a Hin. inv_run Hrun; in_cases Hin; injection Hin as <- <-;
      (split; [done|]); eexists _, _; simpl; eauto 10.
  - intros df ->. inv_run Hrun; eexists; simpl; eauto 10.
Qed.

(** X9. In both entry operations the table an invocation returns is the
    one [__clean_injrep] returned, for the raw table [__concat_injreppgs]
    had returned: whatever the cleaning answers is the outcome of the
    invocation, and there is no successful outcome without it. *)
Theorem result_is_cleaned_table env op filepath ah ch ao co fs :
  exists r w',
    run_entry env op filepath ah ch ao co (start fs) = Some (r, w') /\
    (forall raw a,
        In (EvClean raw a) (trace w') ->
        r = a /\ exists hs os, In (EvConcat hs os (inr raw)) (trace w')) /\
    (forall df, r = inr df -> exists raw, In (EvClean raw (inr df)) (trace w')).
Proof.
  destruct (run_entry_shape env op filepath ah ch ao co fs)
    as (r & w' & Hrun & pre & mid & post & Ht & Hpre & Hpost & Hout & Hmid).
  exists r, w'. split; [done|]. rewrite Ht.
  assert (forall ev, In ev mid -> In ev (pre ++ mid ++ post)) as Hmid_in.
  { intros ev Hev. apply in_or_app. right. apply in_or_app. by left. }
  split.
  - intros raw a Hin. apply in_shape in Hin; try done.
    destruct Hmid as [[-> _] | (path & n & _ & Hpages)]; [done|].
    destruct (pages_run_clean _ _ _ _ _ _ _ _ Hpages) as [Hclean _].
    destruct (Hclean raw a Hin) as (-> & hs & os & Hconcat). eauto.
  - intros df ->.
    destruct Hmid as [[_ [e [=]]] | (path & n & _ & Hpages)].
    destruct (pages_run_clean _ _ _ _ _ _ _ _ Hpages) as [_ Hok].
    destruct (Hok df eq_refl) as [raw Hraw]. eauto.
Qed.

(** ** What the extraction engine is given, and how often it is called *)

Lemma try_block_paths p ah ch ao co r mid ev :
  ((exists e, mid = [EvPdfReader p (inl e)] /\ r = inl e) \/
   (exists k evs, mid = EvPdfReader p (inr k) :: evs /\
                  pages_run p (Z.of_nat k) ah ch ao co r evs)) ->
  In ev mid ->
  match ev with
  | EvReadPdf c _ => input_path c = p /\ stream c = true
  | EvPdfReader q _ => q = p
  | EvRequest _ _ _ | EvTmpCreate _ | EvTmpWrite _ _ | EvUnlink _ _ | EvPagect _ _ => False
  | _ => True
  end.
Proof.
  intros [(e & -> & _) | (k & evs & -> & Hpages)] Hin.
  - simpl in Hin. by destruct Hin as [<- | []].
  - destruct Hin as [<- | Hin]; [done|].
    inv_run Hpages; in_cases Hin; by subst ev.
Qed.

(** X10. [extract_injrepurl] lets PyPDF2 and tabula read the temporary
    file, and only once the download is over.  Every call of either is
    preceded in the trace by the requests of a retrieval that succeeded, by
    the creation of the temporary file under a name that was free and by
    all the writes of a body that was read to its end, with no other file
    operation in between; the call is given the path of the temporary file
    (tabula in stream mode), and its answer is the collaborator's answer on
    files in which the temporary file holds the whole body. *)
Theorem engine_reads_temp_file env filepath ah ch ao co kw fs :
  exists r w',
    extract_injrepurl env filepath ah ch ao co kw (start fs) = Some (r, w') /\
    forall before ev after,
      trace w' = before ++ ev :: after ->
      is_reader ev = true ->
      exists resp w0 mid,
        validate_injrepurl env filepath kw (start fs) = Some (inr resp, w0) /\
        fs !! mkstemp env fs = None /\
        stream_failure (iter_content resp) = None /\
        before = trace w0 ++ EvTmpCreate (mkstemp env fs)
                   :: writes_of (mkstemp env fs) (iter_content resp) ++ mid /\
        Forall (fun ev => touches_files ev = false) mid /\
        answered_on env (<[mkstemp env fs := received (iter_content resp)]> fs) ev /\
        match ev with
        | EvReadPdf c _ => input_path c = mkstemp env fs /\ stream c = true
        | EvPdfReader q _ => q = mkstemp env fs
        | _ => True
        end.
Proof.
  destruct (extract_injrepurl_full env filepath ah ch ao co kw fs)
    as (r0 & reqs & Hval & Hreqs & Hrun).
  assert (Forall (fun ev => is_reader ev = false) reqs) as Hreq.
  { eapply Forall_impl; [exact Hreqs|]. by intros []. }
  assert (forall p items, Forall (fun ev => is_reader ev = false) (writes_of p items)) as Hwr.
  { intros p items. eapply Forall_impl; [apply writes_of_writes|]. by intros ev [b ->]. }
  assert (forall t before ev after,
             Forall (fun ev => is_reader ev = false) t ->
             t = before ++ ev :: after -> is_reader ev = true -> False) as Hnone.
  { intros t before ev after Ht -> Hev. apply Forall_app in Ht as [_ Ht].
    apply Forall_cons in Ht as [Ht _]. congruence. }
  destruct r0 as [e | resp].
  { eexists _, _. split; [exact Hrun|]. simpl. intros before ev after Heq Hev.
    by destruct (Hnone _ _ _ _ Hreq Heq Hev). }
  cbv zeta in Hrun. set (p := mkstemp env fs) in *.
  destruct (fs !! p) eqn:Hfresh.
  { eexists _, _. split; [exact Hrun|]. simpl. intros before ev after Heq Hev.
    by destruct (Hnone _ _ _ _ Hreq Heq Hev). }
  destruct (stream_failure (iter_content resp)) as [e|] eqn:Hstream.
  { eexists _, _. split; [exact Hrun|]. simpl. intros before ev after Heq Hev.
    refine (False_ind _ (Hnone _ _ _ _ _ Heq Hev)).
    apply Forall_app. split; [done|]. by constructor. }
  clear Hrun.
  set (fs1 := <[p := received (iter_content resp)]> fs).
  set (t1 := reqs ++ EvTmpCreate p :: writes_of p (iter_content resp)).
  destruct (try_block_answers env p ah ch ao co {| files := fs1; trace := t1 |})
    as (r & mid & Hblock & Hmid & Hans).
  eexists r, _.
  split; [exact (extract_injrepurl_block env filepath ah ch ao co kw fs resp reqs r mid
                   Hval Hfresh Hstream Hblock)|].
  cbn [trace files]. fold p fs1 t1. intros before ev after Heq Hev.
  apply (split_in_middle is_reader) in Heq as (m1 & m2 & -> & -> & _); try done.
  2: { subst t1. apply Forall_app. split; [done|]. by constructor. }
  2: { by repeat constructor. }
  exists resp, {| files := fs; trace := reqs |}, m1.
  split; [done|]. split; [done|]. split; [done|].
  split; [subst t1; cbn [trace]; by rewrite <- app_assoc|].
  split; [|split].
  - assert (Forall (fun ev => touches_files ev = false) (m1 ++ ev :: m2)) as Hfiles.
    { destruct Hmid as [(e & -> & _) | (k & evs & -> & Hpages)]; [by repeat constructor|].
      constructor; [done|]. by eapply pages_run_no_files. }
    by apply Forall_app in Hfiles as [Hfiles _].
  - cbn [files] in Hans. apply Forall_app in Hans as [_ Hans].
    by apply Forall_cons in Hans as [Hans _].
  - pose proof (try_block_paths _ _ _ _ _ _ _ ev Hmid) as Hpath.
    destruct ev; try done; apply Hpath; apply in_or_app; right; by left.
Qed.

Lemma pages_run_validation path n ah ch ao co r mid :
  pages_run path n ah ch ao co r mid ->
  (length (List.filter is_validation mid) <= 1)%nat /\
  (length (read_pdf_calls mid) <= 2)%nat /\
  forall df a,
    In (EvValidateHeaders df a) mid ->
    exists rest, In (EvReadPdf (headpg_args path ah ch) (inr (df :: rest))) mid.
Proof.
  intros Hrun. inv_run Hrun; simpl; (split; [lia|]); (split; [lia|]);
    intros df' a Hin; in_cases Hin; injection Hin as <- _; eauto.
Qed.

Lemma filter_validation_none t :
  Forall (fun ev => is_pipeline ev = false) t -> List.filter is_validation t = [].
Proof. induction 1 as [|ev t Hev _ IH]; [done|]. by destruct ev. Qed.

(** X11. In both entry operations the extraction engine is called at most
    twice and the header validator at most once, and what the validator is
    given is the first fragment of a header-page result: no other fragment
    of the header page and no fragment of a continuation page is ever
    validated. *)
Theorem one_validation_two_extractions env op filepath ah ch ao co fs :
  exists r w',
    run_entry env op filepath ah ch ao co (start fs) = Some (r, w') /\
    (length (read_pdf_calls (trace w')) <= 2)%nat /\
    (length (List.filter is_validation (trace w')) <= 1)%nat /\
    forall df a,
      In (EvValidateHeaders df a) (trace w') ->
      exists h rest,
        headpg_call h = true /\ In (EvReadPdf h (inr (df :: rest))) (trace w').
Proof.
  destruct (run_entry_shape env op filepath ah ch ao co fs)
    as (r & w' & Hrun & pre & mid & post & Ht & Hpre & Hpost & _ & Hmid).
  exists r, w'. split; [done|]. rewrite Ht.
  rewrite !read_pdf_calls_app, !List.filter_app,
    (read_pdf_calls_none pre (pipeline_not_extraction _ Hpre)),
    (read_pdf_calls_none post (pipeline_not_extraction _ Hpost)),
    (filter_validation_none pre), (filter_validation_none post), !app_nil_r by done.
  simpl.
  destruct Hmid as [[-> _] | (path & n & _ & Hpages)].
  - simpl. split; [lia|]. split; [lia|]. intros df a Hin.
    apply (in_shape _ pre [] post) in Hin; done.
  - destruct (pages_run_validation _ _ _ _ _ _ _ _ Hpages) as (Hv & Hc & Hfirst).
    split; [done|]. split; [done|]. intros df a Hin.
    apply in_shape in Hin; try done.
    destruct (Hfirst df a Hin) as [rest Hrest].
    exists (headpg_args path ah ch), rest. split; [done|].
    apply in_or_app. right. apply in_or_app. by left.
Qed.

(** ** Requests *)

Lemma pages_run_no_requests path n ah ch ao co r mid :
  pages_run path n ah ch ao co r mid ->
  Forall (fun ev => is_request ev = false) mid.
Proof. intros Hrun. inv_run Hrun; by repeat constructor. Qed.

Lemma attempts_none t :
  Forall (fun ev => is_request ev = false) t -> attempts t = 0%nat.
Proof.
  induction 1 as [|ev t Hev _ IH]; [done|].
  unfold attempts in *. simpl. by rewrite Hev.
Qed.

(** The number of requests of a retrieval. *)
Lemma validate_injrepurl_count env filepath kw fs r reqs :
  validate_injrepurl env filepath kw (start fs) = Some (r, {| files := fs; trace := reqs |}) ->
  (length reqs <= 6 * 31)%nat /\
  ((forall req k resp, In (EvRequest req k (Responds resp)) reqs -> followed resp = false) ->
   (length reqs <= 6)%nat).
Proof.
  intros Hval.
  destruct (validate_injrepurl_sound env filepath kw (start fs))
    as (r0 & evs & _ & Hval' & Hrun).
  rewrite Hval in Hval'. injection Hval' as _ ->.
  destruct (prepare_request env filepath _) as [kind | url].
  { destruct Hrun as [_ ->]. simpl. split; intros; lia. }
  change (attempts (trace (start fs))) with 0%nat in Hrun.
  split; [exact (session_run_length _ _ _ _ _ _ Hrun)|].
  intros Hplain.
  destruct (requests.get_adapter session (req_url (sent_request url kw)))
    as [adapter|] eqn:Hget.
  - destruct (session_run_hop _ _ _ _ _ _ _ Hrun Hget)
      as (res & evs1 & evs2 & -> & Hhop & Hout).
    destruct (hop_length _ _ _ _ _ _ Hget Hhop) as [Hlen _].
    assert (evs2 = []) as ->; [|rewrite app_nil_r; lia].
    destruct (requests.send_outcome res) as [e | resp] eqn:Hres; [apply Hout|].
    apply send_outcome_returned in Hres.
    destruct (urlopen_run_returned _ _ _ _ _ _ Hhop _ Hres) as (evs0 & j & -> & _).
    rewrite (Hplain (sent_request url kw) j resp) in Hout; [apply Hout|].
    apply in_or_app. left. apply in_or_app. right. by left.
  - destruct (session_run_no_adapter _ _ _ _ _ _ Hrun Hget) as [-> _]. simpl. lia.
Qed.

(** X12. An invocation sends all its requests before anything else
    happens: the download of the body, the page count, the extraction and
    the cleanup never cause another request.  The session sends at most six
    requests for each URL it visits, so an invocation sends at most six
    when no answer is a redirect the session follows, and at most 186 (the
    first URL and thirty redirects) in all.  The local operation sends
    none. *)
Theorem requests_come_first env op filepath ah ch ao co fs :
  exists r w' reqs rest,
    run_entry env op filepath ah ch ao co (start fs) = Some (r, w') /\
    trace w' = reqs ++ rest /\
    Forall (fun ev => is_request ev = true) reqs /\
    Forall (fun ev => is_request ev = false) rest /\
    attempts (trace w') = length reqs /\
    (length reqs <= 6 * 31)%nat /\
    ((forall req k resp, In (EvRequest req k (Responds resp)) reqs -> followed resp = false) ->
     (length reqs <= 6)%nat) /\
    (op = FromLocal -> reqs = []).
Proof.
  assert (forall r w' reqs rest,
             trace w' = reqs ++ rest ->
             Forall (fun ev => is_request ev = true) reqs ->
             Forall (fun ev => is_request ev = false) rest ->
             ((length reqs <= 6 * 31)%nat /\
              ((forall req k resp,
                   In (EvRequest req k (Responds resp)) reqs -> followed resp = false) ->
               (length reqs <= 6)%nat)) ->
             (op = FromLocal -> reqs = []) ->
             run_entry env op filepath ah ch ao co (start fs) = Some (r, w') ->
             exists r w' reqs rest,
               run_entry env op filepath ah ch ao co (start fs) = Some (r, w') /\
               trace w' = reqs ++ rest /\
               Forall (fun ev => is_request ev = true) reqs /\
               Forall (fun ev => is_request ev = false) rest /\
               attempts (trace w') = length reqs /\
               (length reqs <= 6 * 31)%nat /\
               ((forall req k resp,
                    In (EvRequest req k (Responds resp)) reqs -> followed resp = false) ->
                (length reqs <= 6)%nat) /\
               (op = FromLocal -> reqs = [])) as Hgive.
  { intros r w' reqs rest Ht Hreqs Hrest [Hall Hplain] HP Hrun.
    exists r, w', reqs, rest. repeat split; try done.
    rewrite Ht, attempts_app, (attempts_requests _ Hreqs), (attempts_none _ Hrest). lia. }
  destruct op as [kw|].
  - destruct (extract_injrepurl_full env filepath ah ch ao co kw fs)
      as (r0 & reqs & Hval & Hreqs & Hrun).
    pose proof (validate_injrepurl_count _ _ _ _ _ _ Hval) as Hlen.
    assert (forall p items, Forall (fun ev => is_request ev = false) (writes_of p items))
      as Hwr.
    { intros p items. eapply Forall_impl; [apply writes_of_writes|]. by intros ev [b ->]. }
    destruct r0 as [e | resp].
    { refine (Hgive _ _ reqs [] _ Hreqs _ Hlen _ Hrun);
        [simpl; by rewrite app_nil_r | done | discriminate]. }
    cbv zeta in Hrun. set (p := mkstemp env fs) in *.
    destruct (fs !! p) eqn:Hfresh.
    { refine (Hgive _ _ reqs [] _ Hreqs _ Hlen _ Hrun);
        [simpl; by rewrite app_nil_r | done | discriminate]. }
    destruct (stream_failure (iter_content resp)) as [e|].
    { refine (Hgive _ _ reqs _ _ Hreqs _ Hlen _ Hrun);
        [reflexivity | by constructor | discriminate]. }
    destruct Hrun as (r & mid & Hrun & Hmid).
    refine (Hgive _ _ reqs _ _ Hreqs _ Hlen _ Hrun);
      [cbn [trace]; by rewrite <- !app_assoc | | discriminate].
    simpl. constructor; [done|]. apply Forall_app. split; [done|].
    apply Forall_app. split; [|by repeat constructor].
    destruct Hmid as [(e & -> & _) | (k & evs & -> & Hpages)]; [by repeat constructor|].
    constructor; [done|]. by eapply pages_run_no_requests.
  - destruct (extract_injreplocal_run env filepath ah ch ao co fs)
      as (r & t & Hrun & Hcases).
    refine (Hgive _ _ [] t _ _ _ _ _ Hrun); [done | done | | simpl; split; intros; lia | done].
    destruct Hcases as [(e & -> & _) | (n & evs & -> & _ & Hpages)];
      [by repeat constructor|].
    constructor; [done|]. by eapply pages_run_no_requests.
Qed.

(** ** The retry policy at work *)

(** The retrieval, for a prepared URL the retrying adapter serves, as a run
    of [urlopen] with [retries], followed by what the session makes of
    it. *)
Lemma validate_injrepurl_https env filepath kw fs url :
  prepare_request env filepath (dict_update default_headers (default ∅ kw)) = inr url ->
  is_https url = true ->
  exists r0 res evs1 evs2,
    validate_injrepurl env filepath kw (start fs) =
      Some (checked filepath r0, {| files := fs; trace := evs1 ++ evs2 |}) /\
    urlopen_run (transport env) (sent_request url kw) retries 0 res evs1 /\
    match requests.send_outcome res with
    | inl e => r0 = inl e /\ evs2 = []
    | inr resp => followed resp = false -> r0 = inr resp /\ evs2 = []
    end.
Proof.
  intros Hprep Hs.
  destruct (validate_injrepurl_sound env filepath kw (start fs))
    as (r0 & evs & _ & Hval & Hrun).
  rewrite Hprep in Hrun. change (attempts (trace (start fs))) with 0%nat in Hrun.
  assert (requests.get_adapter session (req_url (sent_request url kw)) =
            Some (requests.HTTPAdapter_init retries)) as Hget
    by (simpl; by rewrite get_adapter_session, Hs).
  destruct (session_run_hop _ _ _ _ _ _ _ Hrun Hget) as (res & evs1 & evs2 & -> & Hhop & Hout).
  exists r0, res, evs1, evs2. split; [exact Hval|]. split; [exact Hhop|].
  destruct (requests.send_outcome res) as [e | resp]; [done|].
  intros Hfinal. by rewrite Hfinal in Hout.
Qed.





(** X15. No request is sent for a location requests cannot serve: when the
    preparation of the request raises (a URL without a scheme or without a
    host, a header that is refused), or when the prepared URL starts with
    neither ["https://"] nor ["http://"] and so has no adapter,
    [extract_injrepurl] raises [URLRetrievalError] caused by that
    exception, [InvalidSchema] in the second case, and nothing has been
    called and no file touched. *)
Theorem unsupported_location env filepath ah ch ao co kw fs cause :
  prepare_request env filepath (dict_update default_headers (default ∅ kw)) = inl cause \/
  (cause = InvalidSchema /\
   exists url,
     prepare_request env filepath (dict_update default_headers (default ∅ kw)) = inr url /\
     is_https url = false /\
     requests.startswith (requests.lower url) "http://" = false) ->
  extract_injrepurl env filepath ah ch ao co kw (start fs) =
    Some (inl (URLRetrievalError filepath (RequestException cause)), start fs).
Proof.
  intros Hcases.
  assert (validate_injrepurl env filepath kw (start fs) =
            Some (inl (URLRetrievalError filepath (RequestException cause)), start fs))
    as Hval.
  { unfold validate_injrepurl, try_except. unfold bind at 1. unfold requests.Session_get.
    destruct Hcases as [-> | (-> & url & -> & Hs & Hh)]; [done|].
    destruct requests.DEFAULT_REDIRECT_LIMIT; cbn [requests.Session_send req_url];
      by rewrite get_adapter_session, Hs, Hh. }
  unfold extract_injrepurl. unfold bind at 1. by rewrite Hval.
Qed.

Lemma unsupported_location_witness :
  extract_injrepurl (sample_env 200 sample_body 1 (inr tt) None)
    "ftp://ak-static.cms.nba.com/referee/injury/Injury-Report_2026-11-03_05PM.pdf"
    sample_area sample_cols None None None (start ∅) =
    Some (inl (URLRetrievalError
                 "ftp://ak-static.cms.nba.com/referee/injury/Injury-Report_2026-11-03_05PM.pdf"
                 (RequestException InvalidSchema)), start ∅).
Proof.
  apply (unsupported_location (sample_env 200 sample_body 1 (inr tt) None)).
  right. split; [reflexivity|]. eexists. split; [reflexivity|]. split; reflexivity.
Defined.




(** A response with a status of [RETRY_AFTER_STATUS_CODES] and a
    [Retry-After] header: with retries left it is retried when the header
    can be read, and ends the run in [InvalidHeader] when it cannot; a
    forced status with a header that cannot be read ends it likewise. *)
Lemma after_attempt_retry_after r n resp :
  retrying r n ->
  1 <= n ->
  (forced (status_code resp) = true \/
   (urllib3.has_retry_after resp = true /\
    urllib3.mem_Z (status_code resp) urllib3.RETRY_AFTER_STATUS_CODES = true)) ->
  after_attempt r "GET" (Responds resp) =
    if urllib3.parse_retry_after (retry_after resp)
    then inl urllib3.RaisedInvalidHeader
    else inr (urllib3.with_counts r (urllib3.CInt (n - 1)) urllib3.CNone (urllib3.read r)
                urllib3.CNone urllib3.CNone urllib3.CNone).
Proof.
  intros (Hr & Hread & Hm & Hf & Hresp) Hn Hcases.
  assert (urllib3._is_method_retryable r "GET" = true) as Hget
    by (unfold urllib3._is_method_retryable; by rewrite Hm).
  assert (urllib3.total r = urllib3.CInt n) as Ht by apply Hr.
  assert (urllib3.is_retry r "GET" (status_code resp) (urllib3.has_retry_after resp) = true)
    as Hretry.
  { unfold urllib3.is_retry. rewrite Hget, Hf, Ht, Hresp. cbn [negb urllib3.truthy].
    destruct Hcases as [Hforced | [Hra Hcode]].
    - unfold forced in Hforced. by rewrite Hforced.
    - rewrite Hra, Hcode.
      destruct (urllib3.mem_Z (status_code resp) (urllib3.status_forcelist retries));
        [reflexivity|].
      destruct (Z.eqb_spec n 0); [lia|reflexivity]. }
  unfold after_attempt. rewrite Hretry, (increment_total_only _ _ _ _ Hr). cbv zeta.
  destruct (Z.ltb_spec (n - 1) 0); [lia|].
  cbn [urllib3.sleep urllib3.with_counts urllib3.respect_retry_after_header].
  by rewrite Hresp.
Qed.



(** X18. A [Retry-After] header urllib3 cannot read ends the retries: for
    a location whose prepared URL is an https one, a first response that
    would be retried (a forced status, or 413, 429 or 503 with a
    [Retry-After] header) but whose [Retry-After] header is empty or is
    neither a number of seconds nor a date makes [validate_injrepurl] raise
    [URLRetrievalError] caused by [InvalidHeader], after that one
    request. *)
Theorem unreadable_retry_after_stops env filepath kw fs url resp :
  prepare_request env filepath (dict_update default_headers (default ∅ kw)) = inr url ->
  is_https url = true ->
  transport env (sent_request url kw) 0 = Responds resp ->
  forced (status_code resp) = true \/
  (urllib3.has_retry_after resp = true /\ In (status_code resp) [413; 429; 503]) ->
  readable_retry_after resp = false ->
  validate_injrepurl env filepath kw (start fs) =
    Some (inl (URLRetrievalError filepath (RequestException InvalidHeader)),
          {| files := fs;
             trace := [EvRequest (sent_request url kw) 0 (Responds resp)] |}).
Proof.
  intros Hprep Hs Htr Hcases Hbad.
  destruct (validate_injrepurl_https env filepath kw fs url Hprep Hs)
    as (r0 & res & evs1 & evs2 & Hval & Hhop & Hout).
  assert (after_attempt retries "GET" (Responds resp) = inl urllib3.RaisedInvalidHeader)
    as Hafter.
  { rewrite (after_attempt_retry_after _ 5 _ retrying_retries).
    - unfold readable_retry_after in Hbad.
      by destruct (urllib3.parse_retry_after (retry_after resp)).
    - lia.
    - destruct Hcases as [Hforced | [Hra Hcode]]; [by left|].
      right. split; [done|]. by apply mem_Z_In. }
  apply urlopen_run_inv in Hhop as [[Hend ->] | (r' & evs' & Hgo & _)];
    change (req_method (sent_request url kw)) with "GET" in *;
    rewrite Htr in *; [|congruence].
  rewrite Hafter in Hend. injection Hend as <-.
  simpl in Hout. destruct Hout as [-> ->]. by rewrite Hval.
Qed.

Lemma unreadable_retry_after_stops_witness :
  validate_injrepurl (network_env garbled_network) sample_url None (start ∅) =
    Some (inl (URLRetrievalError sample_url (RequestException InvalidHeader)),
          {| files := ∅;
             trace := [EvRequest (sent_request sample_url None) 0
                         (Responds garbled_response)] |}).
Proof.
  apply (unreadable_retry_after_stops (network_env garbled_network) sample_url None ∅
           sample_url garbled_response); try reflexivity.
  by left.
Defined.

(** ** Sample runs of the retrieval *)

(** A redirect is followed, and the new URL has a retry budget of its own:
    an http location that is moved to an https one whose server answers
    503 costs seven requests, one for the redirect and six for the new
    URL. *)
Example redirect_then_retries :
  exists w',
    validate_injrepurl (network_env moved_network) sample_http_url None (start ∅) =
      Some (inl (URLRetrievalError sample_http_url (RequestException RetryError)), w') /\
    attempts (trace w') = 7%nat /\
    visited (trace w') =
      [sample_http_url; sample_url; sample_url; sample_url; sample_url; sample_url;
       sample_url].
Proof. eexists. split; [vm_compute; reflexivity|]. split; by vm_compute. Qed.

(** The adapter is picked for the prepared URL: when requests strips the
    blank a location begins with, an https location gets the retrying
    adapter all the same. *)
Example blank_before_https :
  exists w',
    validate_injrepurl (stripping_env 503) (" " +:+ sample_url) None (start ∅) =
      Some (inl (URLRetrievalError (" " +:+ sample_url) (RequestException RetryError)), w') /\
    attempts (trace w') = 6%nat.
Proof. eexists. split; [vm_compute; reflexivity|]. by vm_compute. Qed.

(** The body of a redirect is read before the redirect is followed: when
    the connection breaks there, the retrieval ends after that one
    request. *)
Example redirect_body_breaks :
  exists w',
    validate_injrepurl (network_env (broken_redirect_network (RequestException ConnectionError)))
      sample_url None (start ∅) =
      Some (inl (URLRetrievalError sample_url (RequestException ConnectionError)), w') /\
    attempts (trace w') = 1%nat.
Proof. eexists. split; [vm_compute; reflexivity|]. by vm_compute. Qed.

(** A server that redirects for ever is given up after thirty redirects:
    with bodies that break in a way requests catches, that makes
    thirty-one requests. *)
Example redirect_loop :
  exists w',
    validate_injrepurl
      (network_env (broken_redirect_network (RequestException ChunkedEncodingError)))
      sample_url None (start ∅) =
      Some (inl (URLRetrievalError sample_url (RequestException TooManyRedirects)), w') /\
    attempts (trace w') = 31%nat.
Proof. eexists. split; [vm_compute; reflexivity|]. by vm_compute. Qed.
